(** * of-core: fleet orchestration over HTTP and the Kafka consumption engine

    A shallow embedding of [kafka_consumer.py], [producer_manager.py] and
    [consumer_manager.py].  Python objects that travel as JSON are values of
    [json]; a call that may raise returns a [py_result]; the outside world
    (broker replies, HTTP replies, the clock) is explicit: every effect of
    the code is a function on a state that records what was called. *)

From Equations Require Import Equations.
From Stdlib Require Import ZArith Lia PrimFloat Ascii String.
From stdpp Require Import gmap strings list.

#[local] Open Scope Z_scope.
#[local] Set Default Proof Using "Type".

(** ** Python values and exceptions *)

(** What [json.loads] and [resp.json()] produce, and what configuration
    entries hold: [None], [bool], [int], [float], [str], [list], [dict]. *)
#[warnings="-register-all"]
Inductive json : Type :=
| JNull
| JBool (b : bool)
| JInt (n : Z)
| JFloat (f : float)
| JStr (s : string)
| JList (items : list json)
| JDict (entries : list (string * json)).

(** Python's truth value, as [if deserialized_data:] tests it. *)
Definition truthy (v : json) : bool :=
  match v with
  | JNull => false
  | JBool b => b
  | JInt n => negb (n =? 0)
  | JFloat f => negb (PrimFloat.eqb f 0%float)
  | JStr s => negb (String.eqb s "")
  | JList items => match items with [] => false | _ => true end
  | JDict entries => match entries with [] => false | _ => true end
  end.

(** Whether a value holds a float that is NaN or infinite, anywhere: what
    [json.dumps(..., allow_nan=False)] refuses. *)
Fixpoint has_non_finite (data : json) : bool :=
  match data with
  | JFloat f => PrimFloat.is_nan f || PrimFloat.is_infinity f
  | JList items => existsb has_non_finite items
  | JDict entries =>
      existsb (λ kv, match kv with (_, v) => has_non_finite v end) entries
  | _ => false
  end.

(** The exception classes the three files can meet. *)
Inductive exn : Type :=
| RequestException (detail : string)
| HTTPError (status : Z) (url : string)
| KeyError (key : string)
| IndexError
| RuntimeError (msg : string)
| TypeError (msg : string)
| AttributeError
| UnicodeDecodeError
| JSONDecodeError
| KafkaException (detail : string)
| RecursionError
| ValueError (msg : string)
| InvalidJSONError.

(** A call either returns or raises. *)
Inductive py_result (A : Type) : Type :=
| Return (a : A)
| Raise (e : exn).
Arguments Return {A} a.
Arguments Raise {A} e.

Inductive level : Type := DEBUG | INFO | WARNING | ERROR.

(** [s.split(sep)[0]] for a one-character separator: the text before the
    first [sep] (all of [s] when there is none). *)
Fixpoint before_char (sep : ascii) (s : string) : string :=
  match s with
  | EmptyString => EmptyString
  | String a rest => if Ascii.eqb a sep then EmptyString else String a (before_char sep rest)
  end.

(** [s.split(': ')]: the fields of [s] between occurrences of colon-space,
    scanned left to right; [cur] is the field being read. *)
Fixpoint split_colon_space (s : string) (cur : string) : list string :=
  match s with
  | EmptyString => [cur]
  | String a rest =>
      match rest with
      | String b rest' =>
          if Ascii.eqb a ":"%char && Ascii.eqb b " "%char
          then cur :: split_colon_space rest' EmptyString
          else split_colon_space rest (cur +:+ String a EmptyString)
      | EmptyString => [cur +:+ String a EmptyString]
      end
  end.

(** [list(range(a, b))]. *)
Definition range (a b : Z) : list Z := seqZ a (b - a).

Definition ints (l : list Z) : json := JList (JInt <$> l).

(** ** kafka_consumer.py *)
Module KafkaConsumer.

(** Patterns to match different types of Kafka topics. *)
Definition topics_dict : list (string * string) :=
  [ ("anomalies", "^.*_anomalies$");
    ("normal_data", "^.*_normal_data$");
    ("statistics", "^.*_statistics$") ].

(** [list(topics_dict.values())] *)
Definition topics_dict_values : list string := topics_dict.*2.

(** confluent_kafka's [KafkaError]: [code()] and [str()]. *)
Record KafkaError : Type := mkKafkaError { code : Z; str : string }.

Definition _PARTITION_EOF : Z := -191.
Definition UNKNOWN_TOPIC_OR_PART : Z := 3.

(** What [msg.value()] holds, by what [.decode('utf-8')] and [json.loads]
    do with it. *)
Inductive payload : Type :=
| NoValue            (* [msg.value()] is [None]: [.decode] raises AttributeError *)
| NotUtf8            (* bytes that are not UTF-8: [.decode] raises UnicodeDecodeError *)
| NotJson            (* UTF-8 text that is not JSON: [json.loads] raises JSONDecodeError *)
| LoadsRaises (e : exn)
    (* UTF-8 text on which [json.loads] raises [e]: RecursionError when it
       is nested too deep, ValueError when an integer has too many digits *)
| JsonText (v : json) (* UTF-8 text from which [json.loads] returns [v] *).

Record Message : Type := mkMessage {
  error : option KafkaError;
  topic : string;
  value : payload
}.

(** The replies of the broker client. *)
Inductive poll_reply : Type :=
| PollRaises (e : exn)
| NoMessage
| Delivered (msg : Message).

Inductive subscribe_reply : Type :=
| Subscribed
| SubscribeKafkaError (e : KafkaError)
| SubscribeRaises (e : exn).

Inductive list_topics_reply : Type :=
| Topics (names : gset string)
| ListTopicsRaises (e : exn).

(** The logger's records, by the f-string that builds them. *)
Inductive log_msg : Type :=
| ErrorSubscribing (e : KafkaError)
| StartedConsuming (patterns : list string)
| NewTopics (new_topics : gset string) (available : nat)
| ErrorDeserializing
| EndOfPartition (e : KafkaError)
| NoVehiclesYet
| ConsumerError (e : KafkaError)
| DeserializedMessageIsNone
| ErrorWhileReading (e : exn)
| RetryingIn (seconds : Z).

(** Every call the object makes on the outside, oldest first. *)
Inductive event : Type :=
| ListTopics
| Subscribe (patterns : list string)
| Poll
| Close
| Sleep (seconds : Z)
| Log (lv : level) (m : log_msg)
| Dispatch (topic : string) (data : json).

(** The fields of a [KafkaMessageConsumer], and the [journal] of its calls
    on [self.consumer], [self.parent.logger], [self.parent] and [time]. *)
Record KafkaMessageConsumer : Type := mkConsumer {
  is_running : bool;
  current_topics : gset string;
  retry_delay : Z;
  journal : list event
}.

Definition emit (ev : event) (self : KafkaMessageConsumer) : KafkaMessageConsumer :=
  {| is_running := is_running self;
     current_topics := current_topics self;
     retry_delay := retry_delay self;
     journal := journal self ++ [ev] |}.

Definition set_current_topics (ts : gset string) (self : KafkaMessageConsumer)
  : KafkaMessageConsumer :=
  {| is_running := is_running self;
     current_topics := ts;
     retry_delay := retry_delay self;
     journal := journal self |}.

Definition subscribe (sr : subscribe_reply) (self : KafkaMessageConsumer)
  : py_result unit * KafkaMessageConsumer :=
  let self := emit (Subscribe topics_dict_values) self in
  match sr with
  | SubscribeKafkaError e => (Return tt, emit (Log ERROR (ErrorSubscribing e)) self)
  | SubscribeRaises e => (Raise e, self)
  | Subscribed => (Return tt, emit (Log DEBUG (StartedConsuming topics_dict_values)) self)
  end.

(** [topic_update] has no [return]: its value is Python's [None], here the
    [None] of [option (gset string)]. *)
Definition topic_update (lr : list_topics_reply) (sr : subscribe_reply)
    (self : KafkaMessageConsumer)
  : py_result (option (gset string)) * KafkaMessageConsumer :=
  let self := emit ListTopics self in
  match lr with
  | ListTopicsRaises e => (Raise e, self)
  | Topics available_topics =>
      let new_topics := available_topics ∖ current_topics self in
      let self := set_current_topics available_topics self in
      if (0 <? size new_topics)%nat then
        let self :=
          emit (Log DEBUG (NewTopics new_topics (size (current_topics self)))) self in
        match subscribe sr self with
        | (Return _, self) => (Return None, self)
        | (Raise e, self) => (Raise e, self)
        end
      else (Return None, self)
  end.

(** [__init__] up to the creation of the threads. *)
Definition __init__ (sr0 : subscribe_reply) (lr : list_topics_reply) (sr1 : subscribe_reply)
  : py_result unit * KafkaMessageConsumer :=
  let self := {| is_running := true; current_topics := ∅; retry_delay := 1; journal := [] |} in
  match subscribe sr0 self with
  | (Raise e, self) => (Raise e, self)
  | (Return _, self) =>
      match topic_update lr sr1 self with
      | (Raise e, self) => (Raise e, self)
      | (Return _, self) => (Return tt, self)
      end
  end.

(** [except json.JSONDecodeError]: the one class the handler catches. *)
Definition is_json_decode_error (e : exn) : bool :=
  match e with JSONDecodeError => true | _ => false end.

(** The value is [None] both when [json.loads] gives [None] and when the
    handler of [json.JSONDecodeError] runs; no other exception is caught. *)
Definition deserialize_message (msg : Message) (self : KafkaMessageConsumer)
  : py_result json * KafkaMessageConsumer :=
  match value msg with
  | NoValue => (Raise AttributeError, self)
  | NotUtf8 => (Raise UnicodeDecodeError, self)
  | NotJson => (Return JNull, emit (Log ERROR ErrorDeserializing) self)
  | LoadsRaises e =>
      if is_json_decode_error e
      then (Return JNull, emit (Log ERROR ErrorDeserializing) self)
      else (Raise e, self)
  | JsonText v => (Return v, self)
  end.

(** The [if msg.error():] block up to its [continue]. *)
Definition report_error (err : KafkaError) (self : KafkaMessageConsumer)
  : py_result unit * KafkaMessageConsumer :=
  if code err =? _PARTITION_EOF then
    (Return tt, emit (Log INFO (EndOfPartition err)) self)
  else if code err =? UNKNOWN_TOPIC_OR_PART then
    match split_colon_space (str err) EmptyString !! 1%nat with
    | None => (Raise IndexError, self)
    | Some name =>
        if bool_decide (name ∈ topics_dict_values)
        then (Return tt, emit (Log INFO NoVehiclesYet) self)
        else (Return tt, emit (Log ERROR (ConsumerError err)) self)
    end
  else (Return tt, emit (Log ERROR (ConsumerError err)) self).

Inductive loop_exit : Type :=
| Exhausted            (* the replies given are used up: the loop is still polling *)
| Escaped (e : exn)    (* an exception left the [while True] block *).

Section Consumer.

(** The parent object and its [process_message_routine]. *)
Context {Parent : Type}.
Variable process_message_routine : string → json → Parent → py_result unit * Parent.

(** The [while True] block over the broker's next replies. [local] is the
    local variable [retry_delay] of [read_messages], unbound at first. *)
Fixpoint poll_loop (replies : list poll_reply) (self : KafkaMessageConsumer)
    (parent : Parent) (local : option Z)
  : loop_exit * KafkaMessageConsumer * Parent * option Z * list poll_reply :=
  match replies with
  | [] => (Exhausted, self, parent, local, [])
  | reply :: rest =>
      let self := emit Poll self in
      match reply with
      | PollRaises e => (Escaped e, self, parent, local, rest)
      | NoMessage => poll_loop rest self parent local
      | Delivered msg =>
          match error msg with
          | Some err =>
              match report_error err self with
              | (Raise e, self) => (Escaped e, self, parent, local, rest)
              | (Return _, self) => poll_loop rest self parent local
              end
          | None =>
              match deserialize_message msg self with
              | (Raise e, self) => (Escaped e, self, parent, local, rest)
              | (Return deserialized_data, self) =>
                  if truthy deserialized_data then
                    let self := emit (Dispatch (topic msg) deserialized_data) self in
                    match process_message_routine (topic msg) deserialized_data parent with
                    | (Raise e, parent) => (Escaped e, self, parent, local, rest)
                    | (Return _, parent) => poll_loop rest self parent (Some 1)
                    end
                  else
                    let self := emit (Log WARNING DeserializedMessageIsNone) self in
                    poll_loop rest self parent (Some 1)
              end
          end
      end
  end.

Inductive status : Type :=
| Polling     (* still inside [while True] *)
| Returned    (* [read_messages] has returned *).

(** [read_messages]: the loop, the handler of [Exception] and [finally]. *)
Definition read_messages (replies : list poll_reply) (self : KafkaMessageConsumer)
    (parent : Parent)
  : status * KafkaMessageConsumer * Parent * option Z * list poll_reply :=
  match poll_loop replies self parent None with
  | (Exhausted, self, parent, local, rest) => (Polling, self, parent, local, rest)
  | (Escaped e, self, parent, local, rest) =>
      let self := emit (Log ERROR (ErrorWhileReading e)) self in
      let self := emit (Log INFO (RetryingIn (retry_delay self))) self in
      let self := emit (Sleep (retry_delay self)) self in
      let local := Some (Z.min (retry_delay self * 2) 60) in
      let self := emit Close self in
      (Returned, self, parent, local, rest)
  end.

End Consumer.

(** What one turn of the loop of [_periodic_topic_update] meets: the value
    of [self.is_running] when the loop tests it (the thread that calls
    [stop] may have cleared it), and the broker's replies to the refresh of
    that turn. *)
Record turn : Type := mkTurn {
  running : bool;
  listing : list_topics_reply;
  resubscription : subscribe_reply
}.

Definition set_is_running (flag : bool) (self : KafkaMessageConsumer) : KafkaMessageConsumer :=
  {| is_running := flag;
     current_topics := current_topics self;
     retry_delay := retry_delay self;
     journal := journal self |}.

Inductive periodic_exit : Type :=
| Waiting    (* the turns given are used up: the loop is still running *)
| Stopped    (* the loop saw [self.is_running] false and the function returned *).

(** [_periodic_topic_update] over the coming turns, with the interval a
    number of seconds that is not negative.  The records "Error in
    periodic resubscription" of the handler are returned by their
    exception, oldest first. *)
Fixpoint _periodic_topic_update (resubscribe_interval_seconds : N) (turns : list turn)
    (self : KafkaMessageConsumer) : periodic_exit * KafkaMessageConsumer * list exn :=
  match turns with
  | [] => (Waiting, self, [])
  | t :: rest =>
      let self := set_is_running (running t) self in
      if running t then
        let self := emit (Sleep (Z.of_N resubscribe_interval_seconds)) self in
        match topic_update (listing t) (resubscription t) self with
        | (Return _, self) => _periodic_topic_update resubscribe_interval_seconds rest self
        | (Raise e, self) =>
            let r := _periodic_topic_update resubscribe_interval_seconds rest self in
            (r.1.1, r.1.2, e :: r.2)
        end
      else (Stopped, self, [])
  end.

End KafkaConsumer.

(** ** The HTTP side shared by the two managers *)
Module Http.

Inductive method : Type := GET | POST.

Record request : Type := mkRequest {
  verb : method;
  url : string;
  sent_json : option json
}.

(** What [requests] hands back: a response, with its status code and what
    [.json()] gives ([None] when [.json()] raises), or a
    [requests.exceptions.RequestException] (refused, timed out, ...). *)
Inductive reply : Type :=
| Response (status_code : Z) (body : option json)
| Unreachable (detail : string).

Record exchange : Type := mkExchange {
  sent_at : Z;
  asked : request;
  answered : reply
}.

(** The remote side: its reply to a request and the milliseconds it takes,
    given all that was exchanged before and the time of the request. *)
Definition network : Type := list exchange → Z → request → reply * N.

(** The clock (milliseconds), the requests made with their replies, and the
    records of the loggers, oldest first. *)
Record World : Type := mkWorld {
  clock : Z;
  exchanges : list exchange;
  logged : list (level * string)
}.

(** [resp.ok], and the test of [raise_for_status]: a status from 400 to 599
    is an error, any other is not. *)
Definition is_error (status_code : Z) : bool :=
  (400 <=? status_code) && (status_code <? 600).

(** A computation that may raise, on the world. *)
Definition M (A : Type) : Type := World → py_result A * World.

Definition ret {A : Type} (a : A) : M A := λ w, (Return a, w).

Definition raise {A : Type} (e : exn) : M A := λ w, (Raise e, w).

Definition bind {A B : Type} (m : M A) (k : A → M B) : M B :=
  λ w, match m w with
       | (Return a, w1) => k a w1
       | (Raise e, w1) => (Raise e, w1)
       end.

(** [try: m  except Exception as e: handler e] *)
Definition try_except {A : Type} (m : M A) (handler : exn → M A) : M A :=
  λ w, match m w with
       | (Return a, w1) => (Return a, w1)
       | (Raise e, w1) => handler e w1
       end.

Notation "'let!' x := m 'in' k" := (bind m (λ x, k))
  (at level 10, x name, m at level 100, k at level 200).
Notation "m ;;; k" := (bind m (λ _, k))
  (at level 100, k at level 200, right associativity).

Definition say_all (lines : list (level * string)) (w : World) : World :=
  {| clock := clock w; exchanges := exchanges w; logged := logged w ++ lines |}.

(** [logger.<level>(text)] *)
Definition say (lv : level) (text : string) : M unit :=
  λ w, (Return tt, say_all [(lv, text)] w).

(** [time.sleep(seconds)] *)
Definition sleep (seconds : Z) (w : World) : World :=
  {| clock := clock w + 1000 * seconds; exchanges := exchanges w; logged := logged w |}.

(** The verdict of one round of a health loop on the reply it got. *)
Inductive verdict : Type :=
| Passed
| NotTheApi            (* a body that is no dict or has none of the marker keys *)
| NotParsed            (* [.json()] raised *)
| BadStatus (status_code : Z)
| RequestFailed (detail : string).

(** [isinstance(data, dict) and (m1 in data or m2 in data ...)] *)
Definition has_marker (markers : list string) (data : json) : bool :=
  match data with
  | JDict entries => existsb (λ m, bool_decide (m ∈ entries.*1)) markers
  | _ => false
  end.

Definition judge (markers : list string) (rp : reply) : verdict :=
  match rp with
  | Unreachable detail => RequestFailed detail
  | Response status_code body =>
      if is_error status_code then BadStatus status_code
      else match body with
           | None => NotParsed
           | Some data => if has_marker markers data then Passed else NotTheApi
           end
  end.

Definition passed (v : verdict) : bool :=
  match v with Passed => true | _ => false end.

(** A health reply that is accepted: [ok], a dict, one of the markers. *)
Definition healthy (markers : list string) (rp : reply) : bool :=
  passed (judge markers rp).

(** What tells the two health loops apart: the marker keys, and what is
    logged after a round and after the deadline. *)
Record probe_style : Type := mkStyle {
  markers : list string;
  on_round : string → verdict → list (level * string);
  on_timeout : string → list (level * string)
}.

Definition health_request (api_url : string) : request :=
  {| verb := GET; url := api_url +:+ "/health"; sent_json := None |}.

Section Calls.

Variable net : network.

Definition http_request (rq : request) (w : World) : reply * World :=
  let answer := net (exchanges w) (clock w) rq in
  (answer.1,
   {| clock := clock w + Z.of_N answer.2;
      exchanges := exchanges w ++ [mkExchange (clock w) rq answer.1];
      logged := logged w |}).

(** [requests.get] / [requests.post], then [raise_for_status()] on the
    response: the status code and the body when neither raises. *)
Definition checked (rq : request) : M (Z * option json) :=
  λ w, match http_request rq w with
       | (Unreachable detail, w1) => (Raise (RequestException detail), w1)
       | (Response status_code body, w1) =>
           if is_error status_code then (Raise (HTTPError status_code (url rq)), w1)
           else (Return (status_code, body), w1)
       end.

(** [requests.post(target, json=data)] serializes [data] with
    [allow_nan=False] before anything is sent: a NaN or infinite float
    raises [InvalidJSONError], a [RequestException], and no request is
    made. *)
Definition post (target : string) (data : json) : M (Z * option json) :=
  if has_non_finite data then raise InvalidJSONError
  else checked {| verb := POST; url := target; sent_json := Some data |}.

Definition get (target : string) : M (Z * option json) :=
  checked {| verb := GET; url := target; sent_json := None |}.

(** [while time.time() < deadline: <one round>; time.sleep(2)], with
    [return True] from the round that passes and [return False] after the
    loop.  Both callers leave the poll interval at two seconds. *)
Equations? health_loop (style : probe_style) (api_url : string) (deadline : Z) (w : World)
  : bool * World by wf (Z.to_nat (deadline - clock w)) lt :=
health_loop style api_url deadline w with Z_lt_dec (clock w) deadline := {
  | left _ =>
      let r := http_request (health_request api_url) w in
      let v := judge (markers style) r.1 in
      let w1 := say_all (on_round style api_url v) r.2 in
      if passed v then (true, w1)
      else health_loop style api_url deadline (sleep 2 w1)
  | right _ => (false, say_all (on_timeout style api_url) w) }.
Proof. subst w1 r. unfold http_request. cbn. lia. Qed.

(** [for candidate in candidates: if wait(candidate): api_url = candidate;
    break], with [api_url = None] before the loop. *)
Fixpoint first_healthy (wait : string → World → bool * World) (candidates : list string)
    (w : World) : option string * World :=
  match candidates with
  | [] => (None, w)
  | candidate :: rest =>
      let r := wait candidate w in
      if r.1 then (Some candidate, r.2) else first_healthy wait rest r.2
  end.

End Calls.

End Http.

(** ** Configuration shared by the two managers *)

(** An entry of [cfg.vehicles]: a name, or a one-key [DictConfig] from the
    name to a mapping of overrides (only the first key is ever read).
    Entries of another shape are outside this type: one whose value is not
    a mapping, for instance, on which [update] raises TypeError in both
    constructors. *)
Inductive vehicle : Type :=
| Named (name : string)
| Overridden (name : string) (overrides : gmap string json).

Definition vehicle_name_of (v : vehicle) : string :=
  match v with Named name => name | Overridden name _ => name end.

(** The parts of [cfg] the constructors read. *)
Record Config : Type := mkConfig {
  default_vehicle_config : gmap string json;
  default_consumer_config : gmap string json;
  kafka_topic_update_interval_secs : json;
  vehicles : list vehicle
}.

(** [value == "all"] *)
Definition is_all (value : json) : bool :=
  match value with JStr s => String.eqb s "all" | _ => false end.

(** A Docker container, by what the two subscripts of
    [attrs['NetworkSettings']['IPAddress']] find. *)
Inductive container : Type :=
| NoNetworkSettings             (* [attrs] has no 'NetworkSettings' *)
| NoIPAddress                   (* its network settings have no 'IPAddress' *)
| WithIPAddress (ip : string)   (* the address, which may be the empty string *).

(** [attrs['NetworkSettings']['IPAddress']] when neither subscript raises. *)
Definition attrs_ip_address (box : container) : option string :=
  match box with WithIPAddress ip => Some ip | _ => None end.

(** The key of the [KeyError] when one of them does. *)
Definition missing_attr (box : container) : string :=
  match box with NoNetworkSettings => "NetworkSettings" | _ => "IPAddress" end.

(** [d[key]] and [key in d] on a dict kept in insertion order. *)
Definition dict_get {A : Type} (d : list (string * A)) (key : string) : option A :=
  snd <$> List.find (λ kv, String.eqb kv.1 key) d.

(** ** producer_manager.py *)
Module ProducerManager.
Import Http.

Record ProducerManager : Type := mkProducerManager {
  producers : list (string * container);
  containers_ips : gmap string string;
  vehicle_configs : gmap string (gmap string json);
  vehicle_names : list string
}.

(** [if vehicle_config.get(key) == "all": vehicle_config[key] = classes] *)
Definition expand_all (key : string) (classes : list Z) (vehicle_config : gmap string json)
  : gmap string json :=
  match vehicle_config !! key with
  | Some value => if is_all value then <[key := ints classes]> vehicle_config else vehicle_config
  | None => vehicle_config
  end.

(** The default configuration with the vehicle's own entries over it. *)
Definition template (cfg : Config) (v : vehicle) : gmap string json :=
  match v with
  | Named _ => default_vehicle_config cfg
  | Overridden _ overrides => overrides ∪ default_vehicle_config cfg
  end.

(** One round of the loop of [__init__] over [cfg.vehicles]. *)
Definition add_vehicle (cfg : Config) (acc : list string * gmap string (gmap string json))
    (v : vehicle) : list string * gmap string (gmap string json) :=
  let vehicle_name := vehicle_name_of v in
  let vehicle_config := template cfg v in
  let vehicle_config := expand_all "anomaly_classes" (range 0 19) vehicle_config in
  let vehicle_config := expand_all "diagnostics_classes" (range 1 15) vehicle_config in
  (acc.1 ++ [vehicle_name], <[vehicle_name := vehicle_config]> acc.2).

Definition __init__ (cfg : Config) (producers : list (string * container))
    (containers_ips : gmap string string) : ProducerManager :=
  let filled := foldl (add_vehicle cfg) ([], ∅) (vehicles cfg) in
  {| producers := producers;
     containers_ips := containers_ips;
     vehicle_configs := filled.2;
     vehicle_names := filled.1 |}.

(** The records of [_wait_for_health] (texts without the interpolated
    response data and exception). *)
Definition producer_style : probe_style :=
  {| markers := ["running"; "config_loaded"; "vehicle"];
     on_round := λ api_url v,
       match v with
       | Passed => [(INFO, "Health check passed for " +:+ api_url)]
       | NotTheApi => [(DEBUG, "Health check response doesn't look like producer API")]
       | NotParsed => [(DEBUG, "Failed to parse health response from " +:+ api_url)]
       | BadStatus _ => [(DEBUG, "Health check failed with status for " +:+ api_url)]
       | RequestFailed _ => [(DEBUG, "Health check request failed for " +:+ api_url)]
       end;
     on_timeout := λ api_url,
       [(ERROR, "Health check timed out or not producer API for " +:+ api_url)] |}.

Section Manager.

Variable net : network.
(** [str(e)], the text of an exception inside an f-string. *)
Variable str_exn : exn → string.
(** [_build_config_data]: the data it returns or the exception it raises,
    with the records it has logged by then (its three DEBUG records, unless
    a conversion raised before them); and the text of the [TypeError] of
    [json.dumps] on a value it cannot serialize. *)
Variable _build_config_data :
  gmap string json → string → py_result json * list (level * string).
Variable dumps_type_error : json → option string.

Definition _wait_for_health (api_url : string) (overall_timeout_seconds : Z) (w : World)
  : bool * World :=
  let deadline := clock w + 1000 * overall_timeout_seconds in
  health_loop net producer_style api_url deadline w.

(** The URL picked by the loop over [(hostname_url, ip_url)]. *)
Definition pick_api_url (candidates : list string) (w : World) : option string * World :=
  first_healthy (λ candidate, _wait_for_health candidate 20) candidates w.

(** The records of the [except TypeError] block after [json.dumps]. *)
Definition serialization_report (error_msg : string) (config_data : json)
  : list (level * string) :=
  (ERROR, error_msg) :: (ERROR, "Config data keys")
  :: match config_data with
     | JDict entries =>
         flat_map (λ kv, match dumps_type_error kv.2 with
                         | Some _ => [(ERROR, "Non-serializable key: " +:+ kv.1)]
                         | None => []
                         end) entries
     | _ => []
     end.

(** The body of the [try] of [start_producer]. *)
Definition start_producer_body (self : ProducerManager) (producer_name : string)
    (vehicle_config : gmap string json) : M string :=
  match containers_ips self !! producer_name with
  | None | Some EmptyString =>
      ret ("Failed to start producer " +:+ producer_name +:+ ": Container IP not found")
  | Some container_ip =>
      let hostname_url := "http://" +:+ producer_name +:+ ":5000" in
      let ip_url := "http://" +:+ container_ip +:+ ":5000" in
      let! api_url := (λ w, let r := pick_api_url [hostname_url; ip_url] w in (Return r.1, r.2)) in
      match api_url with
      | None =>
          let error_msg := "Failed to start producer " +:+ producer_name
                           +:+ ": API not healthy at " +:+ hostname_url +:+ " or " +:+ ip_url in
          say ERROR error_msg ;;; ret error_msg
      | Some api_url =>
          let! config_data :=
            (λ w, let built := _build_config_data vehicle_config
                                 (before_char "_" producer_name) in
                  (built.1, say_all built.2 w)) in
          match dumps_type_error config_data with
          | Some e =>
              let error_msg := "JSON serialization failed for " +:+ producer_name
                               +:+ ": " +:+ e in
              (λ w, (Return error_msg, say_all (serialization_report error_msg config_data) w))
          | None =>
              let! config_response := post net (api_url +:+ "/configure") config_data in
              let! start_response := post net (api_url +:+ "/start") (JDict []) in
              let! status_response := get net (api_url +:+ "/status") in
              say INFO ("Producer " +:+ producer_name +:+ " started successfully") ;;;
              ret ("Producer " +:+ producer_name +:+ " started successfully")
          end
      end
  end.

(** [start_producer]: both [except] clauses build the same message. *)
Definition start_producer (self : ProducerManager) (producer_name : string)
    (producer_container : container) (vehicle_config : gmap string json) (w : World)
  : string * World :=
  match start_producer_body self producer_name vehicle_config w with
  | (Return outcome, w1) => (outcome, w1)
  | (Raise e, w1) =>
      let error_msg := "Failed to start producer " +:+ producer_name +:+ ": " +:+ str_exn e in
      (error_msg, say_all [(ERROR, error_msg)] w1)
  end.

(** The loop of [start_all_producers] over
    [zip(self.producers.keys(), self.vehicle_names)]. *)
Fixpoint start_paired (self : ProducerManager) (pairs : list (string * string)) : M (list string) :=
  match pairs with
  | [] => ret []
  | (producer_name, vehicle_name) :: rest =>
      match dict_get (producers self) producer_name, vehicle_configs self !! vehicle_name with
      | Some producer_container, Some vehicle_config =>
          let! result := (λ w, let r := start_producer self producer_name producer_container
                                          vehicle_config w in (Return r.1, r.2)) in
          let! results := start_paired self rest in
          ret (result :: results)
      | None, _ => raise (KeyError producer_name)
      | _, None => raise (KeyError vehicle_name)
      end
  end.

Definition start_all_producers (self : ProducerManager) : M (string * list string) :=
  let! results := start_paired self (zip (producers self).*1 (vehicle_names self)) in
  ret ("All producers started!", results).

Definition stop_producer (self : ProducerManager) (producer_name : string)
    (producer_container : container) (w : World) : string * World :=
  match containers_ips self !! producer_name with
  | None | Some EmptyString =>
      ("Failed to stop producer " +:+ producer_name +:+ ": Container IP not found", w)
  | Some container_ip =>
      let api_url := "http://" +:+ container_ip +:+ ":5000" in
      match post net (api_url +:+ "/stop") (JDict []) w with
      | (Return _, w1) => ("Producer " +:+ producer_name +:+ " stopped successfully", w1)
      | (Raise e, w1) =>
          let error_msg := "Failed to stop producer " +:+ producer_name +:+ ": " +:+ str_exn e in
          (error_msg, say_all [(ERROR, error_msg)] w1)
      end
  end.

(** The loop of [stop_all_producers] over [self.producers.keys()]. *)
Fixpoint stop_each (self : ProducerManager) (names : list string) : M (list string) :=
  match names with
  | [] => ret []
  | producer_name :: rest =>
      match dict_get (producers self) producer_name with
      | Some producer_container =>
          let! result := (λ w, let r := stop_producer self producer_name producer_container w
                               in (Return r.1, r.2)) in
          let! results := stop_each self rest in
          ret (result :: results)
      | None => raise (KeyError producer_name)
      end
  end.

Definition stop_all_producers (self : ProducerManager) : M (string * list string) :=
  let! results := stop_each self (producers self).*1 in
  ret ("All producers stopped!", results).

End Manager.

End ProducerManager.

(** ** producer_manager.py: the data of the configure request *)
Module ProducerConfigData.

(** The fields of [self] that [_build_config_data] reads; [attack_config]
    is a dict. *)
Record Settings : Type := mkSettings {
  logging_level : json;
  mode : json;
  manager_port : json;
  probe_metrics : json;
  attack_config : gmap string json
}.

(** [_convert_to_json_serializable] on plain Python data: a list or dict
    is rebuilt from its converted members, any other value is returned as
    it is.  (A [ListConfig] or [DictConfig] is the list or dict it
    converts to.) *)
Fixpoint _convert_to_json_serializable (obj : json) : json :=
  match obj with
  | JList items => JList (List.map _convert_to_json_serializable items)
  | JDict entries =>
      JDict (List.map (λ kv, match kv with
                             | (k, v) => (k, _convert_to_json_serializable v)
                             end) entries)
  | _ => obj
  end.

(** [f"{type(obj)}"] for plain Python data. *)
Definition type_text (obj : json) : string :=
  match obj with
  | JNull => "<class 'NoneType'>"
  | JBool _ => "<class 'bool'>"
  | JInt _ => "<class 'int'>"
  | JFloat _ => "<class 'float'>"
  | JStr _ => "<class 'str'>"
  | JList _ => "<class 'list'>"
  | JDict _ => "<class 'dict'>"
  end.

(** The three records [_build_config_data] logs at DEBUG once its
    arguments are converted; the two configurations are dicts by then. *)
Definition debug_records (self : Settings) : list (level * string) :=
  [ (DEBUG, "Vehicle config type: <class 'dict'>");
    (DEBUG, "Probe metrics type: "
              +:+ type_text (_convert_to_json_serializable (probe_metrics self)));
    (DEBUG, "Attack config type: <class 'dict'>") ].

(** [d.get(key, default)] *)
Definition dict_get_default (d : gmap string json) (key : string) (default : json) : json :=
  match d !! key with Some value => value | None => default end.

(** The literals [0.001], [0.2] and [1.9], as the doubles Python reads. *)
Definition delay_default : float := 0x1.0624dd2f1a9fcp-10%float.
Definition alpha_default : float := 0x1.999999999999ap-3%float.
Definition beta_default : float := 0x1.e666666666666p+0%float.

Definition _build_config_data (self : Settings) (vehicle_config : gmap string json)
    (vehicle_name : string) : py_result json :=
  let vehicle_config := _convert_to_json_serializable <$> vehicle_config in
  let probe_metrics := _convert_to_json_serializable (probe_metrics self) in
  let attack_config := _convert_to_json_serializable <$> attack_config self in
  let config_data :=
    JDict
      [ ("vehicle_name", JStr vehicle_name);
        ("kafka_broker", dict_get_default vehicle_config "kafka_broker" (JStr "kafka:9092"));
        ("logging_level", logging_level self);
        ("manager_port", manager_port self);
        ("mode", mode self);
        ("target_ip", dict_get_default attack_config "target_ip" (JStr "172.18.0.4"));
        ("target_port", dict_get_default attack_config "target_port" (JInt 80));
        ("bot_port", dict_get_default attack_config "bot_port" (JInt 5002));
        ("probe_frequency_seconds",
           dict_get_default vehicle_config "probe_frequency_seconds" (JInt 2));
        ("ping_thread_timeout", dict_get_default vehicle_config "ping_thread_timeout" (JInt 5));
        ("ping_host", dict_get_default vehicle_config "ping_host" (JStr "www.google.com"));
        ("duration", dict_get_default attack_config "duration" (JInt 0));
        ("packet_size", dict_get_default attack_config "packet_size" (JInt 1024));
        ("delay", dict_get_default attack_config "delay" (JFloat delay_default));
        ("mu_anomalies", dict_get_default vehicle_config "mu_anomalies" (JInt 157));
        ("mu_normal", dict_get_default vehicle_config "mu_normal" (JInt 115));
        ("alpha", dict_get_default vehicle_config "alpha" (JFloat alpha_default));
        ("beta", dict_get_default vehicle_config "beta" (JFloat beta_default));
        ("time_emulation", dict_get_default vehicle_config "time_emulation" (JBool false));
        ("probe_metrics", probe_metrics);
        ("anomaly_classes",
           dict_get_default vehicle_config "anomaly_classes" (ints (range 0 19)));
        ("diagnostics_classes",
           dict_get_default vehicle_config "diagnostics_classes" (ints (range 0 15))) ] in
  Return (_convert_to_json_serializable config_data).

(** [_build_config_data] as [start_producer] sees it: the data and the
    records logged on the way. *)
Definition build_and_log (self : Settings) (vehicle_config : gmap string json)
    (vehicle_name : string) : py_result json * list (level * string) :=
  (_build_config_data self vehicle_config vehicle_name, debug_records self).

End ProducerConfigData.

(** ** producer_manager.py: the status queries *)
Module ProducerStatus.
Import Http.

Section Status.

Variable net : network.
(** [str(e)], the text of an exception. *)
Variable str_exn : exn → string.
(** Whether the exception of a failing [response.json()] is a
    [RequestException], as it is from requests 2.27 on. *)
Variable json_error_is_request_exception : bool.

(** [{"error": text}] *)
Definition error_dict (text : string) : json := JDict [("error", JStr text)].

Definition get_producer_status (self : ProducerManager.ProducerManager)
    (producer_name : string) (producer_container : container) : M json :=
  λ w,
    match ProducerManager.containers_ips self !! producer_name with
    | None | Some EmptyString => (Return (error_dict "Container IP not found"), w)
    | Some container_ip =>
        let api_url := "http://" +:+ container_ip +:+ ":5000" in
        match get net (api_url +:+ "/status") w with
        | (Return (_, Some data), w1) => (Return data, w1)
        | (Return (_, None), w1) =>
            if json_error_is_request_exception
            then (Return (error_dict (str_exn JSONDecodeError)), w1)
            else (Raise JSONDecodeError, w1)
        | (Raise e, w1) => (Return (error_dict (str_exn e)), w1)
        end
    end.

(** The loop of [get_all_producer_statuses] over [self.producers.items()]. *)
Fixpoint status_each (self : ProducerManager.ProducerManager)
    (items : list (string * container)) : M (list (string * json)) :=
  match items with
  | [] => ret []
  | (producer_name, producer_container) :: rest =>
      let! status := get_producer_status self producer_name producer_container in
      let! statuses := status_each self rest in
      ret ((producer_name, status) :: statuses)
  end.

Definition get_all_producer_statuses (self : ProducerManager.ProducerManager) : M json :=
  let! statuses := status_each self (ProducerManager.producers self) in
  ret (JDict statuses).

End Status.

End ProducerStatus.

(** ** consumer_manager.py *)
Module ConsumerManager.
Import Http.

Record ConsumerManager : Type := mkConsumerManager {
  consumers : list (string * container);
  consumer_configs : gmap string (gmap string json)
}.

(** [self.default_consumer_config] *)
Definition base_config (cfg : Config) : gmap string json :=
  <["kafka_topic_update_interval_secs" := kafka_topic_update_interval_secs cfg]>
    (default_consumer_config cfg).

(** The copy of the default configuration with the vehicle's own entries
    over it. *)
Definition template (cfg : Config) (v : vehicle) : gmap string json :=
  match v with
  | Named _ => base_config cfg
  | Overridden _ overrides => overrides ∪ base_config cfg
  end.

(** [if config[key] == "all": config[key] = classes]; the subscript raises
    [KeyError] when the key is missing. *)
Definition expand_all (key : string) (classes : list Z) (config : gmap string json)
  : py_result (gmap string json) :=
  match config !! key with
  | None => Raise (KeyError key)
  | Some value => Return (if is_all value then <[key := ints classes]> config else config)
  end.

(** The configuration [__init__] stores for one entry of [cfg.vehicles]. *)
Definition resolve (cfg : Config) (v : vehicle) : py_result (gmap string json) :=
  match expand_all "anomaly_classes" (range 1 19) (template cfg v) with
  | Raise e => Raise e
  | Return config => expand_all "diagnostics_classes" (range 1 15) config
  end.

(** The loop of [__init__] over [cfg.vehicles]. *)
Fixpoint fill (cfg : Config) (vs : list vehicle) (configs : gmap string (gmap string json))
  : py_result (gmap string (gmap string json)) :=
  match vs with
  | [] => Return configs
  | v :: rest =>
      match resolve cfg v with
      | Raise e => Raise e
      | Return config => fill cfg rest (<[vehicle_name_of v := config]> configs)
      end
  end.

Definition __init__ (cfg : Config) (consumers : list (string * container))
  : py_result ConsumerManager :=
  match fill cfg (vehicles cfg) ∅ with
  | Raise e => Raise e
  | Return configs => Return {| consumers := consumers; consumer_configs := configs |}
  end.

(** The nested [wait_for_health] logs nothing. *)
Definition consumer_style : probe_style :=
  {| markers := ["running"; "configured"];
     on_round := λ _ _, [];
     on_timeout := λ _, [] |}.

Section Manager.

Variable net : network.
(** [str(e)], the text of an exception inside an f-string. *)
Variable str_exn : exn → string.
(** The dict literal [cfg_payload] with the three optional keys, from the
    consumer's configuration and the vehicle name; it raises when a key is
    missing or a conversion fails. *)
Variable cfg_payload : gmap string json → string → py_result json.

Definition wait_for_health (base_url : string) (timeout : Z) (w : World) : bool * World :=
  let w := sleep 2 w in
  let deadline := clock w + 1000 * timeout in
  health_loop net consumer_style base_url deadline w.

(** [hostname_url if wait_for_health(hostname_url) else
     (ip_url if wait_for_health(ip_url) else None)] *)
Definition pick_api_url (hostname_url ip_url : string) (w : World) : option string * World :=
  let r := wait_for_health hostname_url 60 w in
  if r.1 then (Some hostname_url, r.2)
  else let r := wait_for_health ip_url 60 r.2 in
       if r.1 then (Some ip_url, r.2) else (None, r.2).

(** The body of the [try] of [start_consumer]. *)
Definition start_consumer_body (self : ConsumerManager) (consumer_name : string)
    (consumer_container : container) : M string :=
  let vehicle_name := before_char "_" consumer_name in
  match consumer_configs self !! vehicle_name with
  | None => raise (KeyError vehicle_name)
  | Some consumer_config =>
      match attrs_ip_address consumer_container with
      | None => raise (KeyError (missing_attr consumer_container))
      | Some container_ip =>
          let hostname_url := "http://" +:+ consumer_name +:+ ":5000" in
          let ip_url := "http://" +:+ container_ip +:+ ":5000" in
          let! api_url := (λ w, let r := pick_api_url hostname_url ip_url w in (Return r.1, r.2)) in
          match api_url with
          | None => ret ("Failed to start consumer " +:+ consumer_name +:+ ": API not healthy")
          | Some api_url =>
              let! payload := (λ w, (cfg_payload consumer_config vehicle_name, w)) in
              let! r1 := post net (api_url +:+ "/configure") payload in
              let! r2 := post net (api_url +:+ "/start") (JDict []) in
              say INFO ("Consumer " +:+ consumer_name +:+ " started successfully") ;;;
              ret ("Consumer " +:+ consumer_name +:+ " started successfully")
          end
      end
  end.

Definition start_consumer (self : ConsumerManager) (consumer_name : string)
    (consumer_container : container) (w : World) : string * World :=
  match start_consumer_body self consumer_name consumer_container w with
  | (Return outcome, w1) => (outcome, w1)
  | (Raise e, w1) =>
      let msg := "Failed to start consumer " +:+ consumer_name +:+ ": " +:+ str_exn e in
      (msg, say_all [(ERROR, msg)] w1)
  end.

(** The loop of [start_all_consumers] over [self.consumers.items()]. *)
Fixpoint start_each (self : ConsumerManager) (items : list (string * container)) (w : World)
  : list string * World :=
  match items with
  | [] => ([], w)
  | (consumer_name, consumer) :: rest =>
      let r := start_consumer self consumer_name consumer w in
      let rs := start_each self rest r.2 in
      (r.1 :: rs.1, rs.2)
  end.

Definition start_all_consumers (self : ConsumerManager) (w : World)
  : (string * list string) * World :=
  let rs := start_each self (consumers self) w in
  (("All consumers started!", rs.1), rs.2).

(** The inner [try] of [stop_consumer]: [True] when the stop by host name
    went through (the function returns), [False] when it raised ([pass]). *)
Definition stop_by_hostname (consumer_name hostname_url : string) : M bool :=
  try_except
    (let! r := post net hostname_url (JDict []) in
     say INFO ("Stopped consumer " +:+ consumer_name) ;;; ret true)
    (λ _, ret false).

Definition stop_consumer (self : ConsumerManager) (consumer_name : string) : M unit :=
  match dict_get (consumers self) consumer_name with
  | None => raise (KeyError consumer_name)
  | Some container =>
      try_except
        (match attrs_ip_address container with
         | None => raise (KeyError (missing_attr container))
         | Some container_ip =>
             let hostname_url := "http://" +:+ consumer_name +:+ ":5000/stop" in
             let! stopped := stop_by_hostname consumer_name hostname_url in
             if stopped then ret tt
             else
               match container_ip with
               | EmptyString =>
                   raise (RuntimeError ("Could not reach consumer stop endpoint. Tried: "
                                        +:+ hostname_url))
               | _ =>
                   let ip_url := "http://" +:+ container_ip +:+ ":5000/stop" in
                   let! r := post net ip_url (JDict []) in
                   say INFO ("Stopped consumer " +:+ consumer_name)
               end
         end)
        (λ e, say INFO ("Error stopping " +:+ consumer_name +:+ ": " +:+ str_exn e))
  end.

(** The loop of [stop_all_consumers] over the keys of [self.consumers]. *)
Fixpoint stop_each (self : ConsumerManager) (names : list string) : M unit :=
  match names with
  | [] => ret tt
  | consumer_name :: rest => stop_consumer self consumer_name ;;; stop_each self rest
  end.

Definition stop_all_consumers (self : ConsumerManager) : M unit :=
  stop_each self (consumers self).*1.

End Manager.

End ConsumerManager.

(** * The vocabulary of the properties *)

Section KafkaVocabulary.
Import KafkaConsumer.

(** What [subscribe] logs after its call on the broker client. *)
Definition subscribe_log (sr : subscribe_reply) : list event :=
  match sr with
  | Subscribed => [Log DEBUG (StartedConsuming topics_dict_values)]
  | SubscribeKafkaError e => [Log ERROR (ErrorSubscribing e)]
  | SubscribeRaises _ => []
  end.

Definition is_subscribe (ev : event) : bool :=
  match ev with Subscribe _ => true | _ => false end.

(** How many times the broker was (re)subscribed. *)
Definition subscriptions (evs : list event) : nat :=
  length (List.filter is_subscribe evs).

(** The refresh as the specification words it: the snapshot is replaced,
    the difference is handed back to the caller, and the broker is
    resubscribed exactly when the difference is not empty. *)
Definition refresh_as_specified (available : gset string) (sr : subscribe_reply)
    (self : KafkaMessageConsumer) : Prop :=
  let r := topic_update (Topics available) sr self in
  current_topics r.2 = available
  ∧ r.1 = Return (Some (available ∖ current_topics self))
  ∧ subscriptions (journal r.2) =
      (subscriptions (journal self)
       + (if bool_decide (available ∖ current_topics self = ∅) then 0 else 1))%nat.

(** A consumer that has seen no topic yet. *)
Definition fresh : KafkaMessageConsumer :=
  {| is_running := true; current_topics := ∅; retry_delay := 1; journal := [] |}.

Definition dispatches (evs : list event) : list (string * json) :=
  omap (λ ev, match ev with Dispatch t d => Some (t, d) | _ => None end) evs.

Definition none_warnings (evs : list event) : nat :=
  length (List.filter
    (λ ev, match ev with Log WARNING DeserializedMessageIsNone => true | _ => false end) evs).

(** The record a reply hands to the routine: one without broker error whose
    payload parses to a value that Python counts as true. *)
Definition deliverable (reply : poll_reply) : option (string * json) :=
  match reply with
  | Delivered {| error := None; topic := t; value := JsonText v |} =>
      if truthy v then Some (t, v) else None
  | _ => None
  end.

(** The replies whose record is dropped with the warning. *)
Definition dropped (reply : poll_reply) : bool :=
  match reply with
  | Delivered {| error := None; value := NotJson |} => true
  | Delivered {| error := None; value := LoadsRaises e |} => is_json_decode_error e
  | Delivered {| error := None; value := JsonText v |} => negb (truthy v)
  | _ => false
  end.

(** The parent after the routine was called on each of the records, in
    order. *)
Definition handed {Parent : Type}
    (routine : string → json → Parent → py_result unit * Parent)
    (records : list (string * json)) (parent : Parent) : Parent :=
  foldl (λ p record, (routine record.1 record.2 p).2) parent records.

(** [': ' in s] *)
Fixpoint has_colon_space (s : string) : bool :=
  match s with
  | EmptyString => false
  | String a rest =>
      match rest with
      | String b _ => (Ascii.eqb a ":"%char && Ascii.eqb b " "%char) || has_colon_space rest
      | EmptyString => false
      end
  end.

(** The topic an "unknown topic" error names: the second field of its
    text, between the first two colon-spaces. *)
Definition topic_named (err : KafkaError) : option string :=
  split_colon_space (str err) EmptyString !! 1%nat.

(** The record a broker error gets, in the words of the specification:
    informational for the end of a partition and for an unknown topic
    whose name is one of the subscription patterns, an error otherwise. *)
Definition classified (err : KafkaError) : event :=
  if code err =? _PARTITION_EOF then Log INFO (EndOfPartition err)
  else if (code err =? UNKNOWN_TOPIC_OR_PART)
          && match topic_named err with
             | Some name => bool_decide (name ∈ topics_dict_values)
             | None => false
             end
       then Log INFO NoVehiclesYet
       else Log ERROR (ConsumerError err).

(** A poll that returns no record, or a record with a broker error whose
    text, when the error is "unknown topic", has a colon-space, as the
    texts of the client library for that code have ("Broker: Unknown topic
    or partition", "Subscribed topic not available: <topic>: Broker:
    Unknown topic or partition"). *)
Definition no_record_or_broker_error (reply : poll_reply) : Prop :=
  match reply with
  | NoMessage => True
  | Delivered {| error := Some err |} =>
      code err = UNKNOWN_TOPIC_OR_PART → has_colon_space (str err) = true
  | _ => False
  end.

(** What the loop calls for such a reply: the poll, and for a broker error
    its record. *)
Definition calls_for (reply : poll_reply) : list event :=
  match reply with
  | Delivered {| error := Some err |} => [Poll; classified err]
  | _ => [Poll]
  end.

(** What the handler of [Exception] and the [finally] clause add. *)
Definition farewell (e : exn) (delay : Z) : list event :=
  [Log ERROR (ErrorWhileReading e); Log INFO (RetryingIn delay); Sleep delay; Close].

(** The calls on the broker client and the clock, by kind. *)
Definition is_poll (ev : event) : bool :=
  match ev with Poll => true | _ => false end.

Definition is_close (ev : event) : bool :=
  match ev with Close => true | _ => false end.

Definition is_sleep (ev : event) : bool :=
  match ev with Sleep _ => true | _ => false end.

Definition count (kind : event → bool) (evs : list event) : nat :=
  length (List.filter kind evs).

(** A reply the loop gets past when the routine does not raise: no message,
    a broker error that is not "unknown topic" or whose text has a second
    field, or a record whose bytes are UTF-8 text on which [json.loads]
    returns or raises JSONDecodeError. *)
Definition benign (reply : poll_reply) : bool :=
  match reply with
  | PollRaises _ => false
  | NoMessage => true
  | Delivered {| error := Some err |} =>
      negb (code err =? UNKNOWN_TOPIC_OR_PART)
      || bool_decide (is_Some (split_colon_space (str err) EmptyString !! 1%nat))
  | Delivered {| error := None; value := NoValue |} => false
  | Delivered {| error := None; value := NotUtf8 |} => false
  | Delivered {| error := None; value := LoadsRaises e |} => is_json_decode_error e
  | Delivered {| error := None; value := _ |} => true
  end.

(** [': '.join(fields)] *)
Fixpoint join_colon_space (fields : list string) : string :=
  match fields with
  | [] => EmptyString
  | [field] => field
  | field :: rest => field +:+ ": " +:+ join_colon_space rest
  end.

(** The turns the periodic loop goes through: those before the first one
    that finds the flag cleared. *)
Fixpoint active (turns : list turn) : list turn :=
  match turns with
  | [] => []
  | t :: rest => if running t then t :: active rest else []
  end.

(** The listing the broker gave last, [snapshot] when it gave none. *)
Fixpoint last_listing (snapshot : gset string) (turns : list turn) : gset string :=
  match turns with
  | [] => snapshot
  | t :: rest =>
      match listing t with
      | Topics names => last_listing names rest
      | ListTopicsRaises _ => last_listing snapshot rest
      end
  end.

(** How many of the listings show a topic the listing before did not. *)
Fixpoint listings_with_news (snapshot : gset string) (turns : list turn) : nat :=
  match turns with
  | [] => 0
  | t :: rest =>
      match listing t with
      | Topics names =>
          ((if bool_decide (names ⊆ snapshot) then 0 else 1) + listings_with_news names rest)%nat
      | ListTopicsRaises _ => listings_with_news snapshot rest
      end
  end.

(** The calls of the loop body other than the poll: log records and calls
    of the routine. *)
Definition harmless (ev : event) : bool :=
  match ev with Log _ _ | Dispatch _ _ => true | _ => false end.

Definition poll_or_harmless (ev : event) : Prop := is_poll ev = true ∨ harmless ev = true.

End KafkaVocabulary.

Section HttpVocabulary.
Import Http.

(** [str(e)], the text of an exception inside an f-string. *)
Variable str_exn : exn → string.

(** A round of the probe of [api_url] begun at [start] with deadline
    [deadline]: a GET of its health endpoint, sent inside that window. *)
Definition health_poll (api_url : string) (start deadline : Z) (x : exchange) : Prop :=
  asked x = health_request api_url ∧ start ≤ sent_at x < deadline.

Definition unhealthy (markers : list string) (x : exchange) : Prop :=
  healthy markers (answered x) = false.

(** What one wait on one candidate does, in the words of the probe: it
    only polls the candidate's health endpoint, each poll begun before the
    deadline; it answers yes on the first healthy reply and polls no
    further; it answers no only when every reply was unhealthy and the
    deadline has passed. *)
Definition waited (markers : list string) (api_url : string) (start deadline : Z)
    (polls : list exchange) (accepted : bool) (finish : Z) : Prop :=
  Forall (health_poll api_url start deadline) polls
  ∧ start ≤ finish
  ∧ if accepted
    then ∃ init last, polls = init ++ [last]
           ∧ Forall (unhealthy markers) init ∧ healthy markers (answered last) = true
    else Forall (unhealthy markers) polls ∧ deadline ≤ finish.

(** The probe over the candidates: the candidates are waited on in list
    order and every wait polls at least once; the first whose wait accepts
    is returned at once, a candidate is passed over only when its wait
    ended after its deadline with no healthy reply, and none is returned
    when the list runs out.  [span] is the time from the start of a wait to
    its deadline; the exchanges are those of the waits, in order. *)
Inductive probed (markers : list string) (span : Z)
  : list string → Z → list exchange → option string → Z → Prop :=
| probed_none start :
    probed markers span [] start [] None start
| probed_accept candidate rest start polls finish :
    waited markers candidate start (start + span) polls true finish →
    probed markers span (candidate :: rest) start polls (Some candidate) finish
| probed_next candidate rest start polls next later result finish :
    polls ≠ [] →
    waited markers candidate start (start + span) polls false next →
    probed markers span rest next later result finish →
    probed markers span (candidate :: rest) start (polls ++ later) result finish.

(** A wait that does what [waited] says, and polls. *)
Definition waits (markers : list string) (span : Z)
    (wait : string → World → bool * World) : Prop :=
  ∀ api_url w, ∃ polls,
    exchanges (wait api_url w).2 = exchanges w ++ polls
    ∧ polls ≠ []
    ∧ waited markers api_url (clock w) (clock w + span) polls
        (wait api_url w).1 (clock (wait api_url w).2).

Definition post_request (target : string) (data : json) : request :=
  {| verb := POST; url := target; sent_json := Some data |}.

Definition get_request (target : string) : request :=
  {| verb := GET; url := target; sent_json := None |}.

(** A reply that makes [requests] or [raise_for_status] raise. *)
Definition rejected (rp : reply) : bool :=
  match rp with
  | Unreachable _ => true
  | Response status_code _ => is_error status_code
  end.

(** The exception that reply raises. *)
Definition rejection (rq : request) (rp : reply) : exn :=
  match rp with
  | Unreachable detail => RequestException detail
  | Response status_code _ => HTTPError status_code (url rq)
  end.

Definition is_get (x : exchange) : Prop := verb (asked x) = GET.

Definition accepted (rp : reply) : Prop := rejected rp = false.

(** How a start goes once an address was picked, by the exchanges it adds
    and the outcome it returns: a rejected configure, or an accepted
    configure and a start, and for a manager that verifies ([verify]) a GET
    of the status after an accepted start. *)
Inductive startup (api_url : string) (failed : exn → string) (succeeded : string)
    (verify : bool) : list exchange → string → Prop :=
| configure_rejected c data :
    asked c = post_request (api_url +:+ "/configure") data →
    rejected (answered c) = true →
    startup api_url failed succeeded verify [c] (failed (rejection (asked c) (answered c)))
| start_rejected c data s :
    asked c = post_request (api_url +:+ "/configure") data →
    accepted (answered c) →
    asked s = post_request (api_url +:+ "/start") (JDict []) →
    rejected (answered s) = true →
    startup api_url failed succeeded verify [c; s] (failed (rejection (asked s) (answered s)))
| started_unverified c data s :
    verify = false →
    asked c = post_request (api_url +:+ "/configure") data →
    accepted (answered c) →
    asked s = post_request (api_url +:+ "/start") (JDict []) →
    accepted (answered s) →
    startup api_url failed succeeded verify [c; s] succeeded
| status_rejected c data s g :
    verify = true →
    asked c = post_request (api_url +:+ "/configure") data →
    accepted (answered c) →
    asked s = post_request (api_url +:+ "/start") (JDict []) →
    accepted (answered s) →
    asked g = get_request (api_url +:+ "/status") →
    rejected (answered g) = true →
    startup api_url failed succeeded verify [c; s; g] (failed (rejection (asked g) (answered g)))
| started_verified c data s g :
    verify = true →
    asked c = post_request (api_url +:+ "/configure") data →
    accepted (answered c) →
    asked s = post_request (api_url +:+ "/start") (JDict []) →
    accepted (answered s) →
    asked g = get_request (api_url +:+ "/status") →
    accepted (answered g) →
    startup api_url failed succeeded verify [c; s; g] succeeded.

Definition consumer_failed (consumer_name : string) (e : exn) : string :=
  "Failed to start consumer " +:+ consumer_name +:+ ": " +:+ str_exn e.

Definition producer_failed (producer_name : string) (e : exn) : string :=
  "Failed to start producer " +:+ producer_name +:+ ": " +:+ str_exn e.

Definition is_start_post (x : exchange) : Prop :=
  ∃ api_url, asked x = post_request (api_url +:+ "/start") (JDict []).

Definition is_configure_post (x : exchange) : Prop :=
  ∃ api_url data, asked x = post_request (api_url +:+ "/configure") data.

(** In the exchanges [news] of one startup, a POST to the start endpoint
    comes right after a POST to the configure endpoint whose reply is
    [good]. *)
Definition start_follows_configure (good : reply → Prop) (news : list exchange) : Prop :=
  ∀ before s after,
    news = before ++ s :: after → is_start_post s →
    ∃ earlier c, before = earlier ++ [c] ∧ is_configure_post c ∧ good (answered c).

(** A rejected POST is the last exchange of the startup, and the outcome
    is the failure message with the text of its exception. *)
Definition rejection_aborts (failed : exn → string) (news : list exchange)
    (outcome : string) : Prop :=
  ∀ before x after,
    news = before ++ x :: after → verb (asked x) = POST → rejected (answered x) = true →
    after = [] ∧ outcome = failed (rejection (asked x) (answered x)).

Fixpoint last_char (s : string) (previous : ascii) : ascii :=
  match s with
  | EmptyString => previous
  | String a rest => last_char rest a
  end.

(** The claim as the specification words it: only a 2xx reply to configure
    lets the start be posted. *)
Definition is_2xx (rp : reply) : Prop :=
  match rp with
  | Response status_code _ => 200 ≤ status_code < 300
  | Unreachable _ => False
  end.

(** The acceptance as the specification words it, for a probe of a single
    candidate begun at [start] and ended at [finish]: the candidate is
    returned only when a successful (2xx) health response was received
    before its deadline. *)
Definition accepted_as_specified (span start : Z) (polls : list exchange)
    (result : option string) (finish : Z) : Prop :=
  is_Some result →
  finish < start + span ∧ ∃ x, last polls = Some x ∧ is_2xx (answered x).

Definition stopped_line (consumer_name : string) : level * string :=
  (INFO, "Stopped consumer " +:+ consumer_name).

Definition error_stopping_line (consumer_name : string) (e : exn) : level * string :=
  (INFO, "Error stopping " +:+ consumer_name +:+ ": " +:+ str_exn e).

Definition hostname_stop (consumer_name : string) : request :=
  post_request ("http://" +:+ consumer_name +:+ ":5000/stop") (JDict []).

Definition ip_stop (container_ip : string) : request :=
  post_request ("http://" +:+ container_ip +:+ ":5000/stop") (JDict []).

(** What one [stop_consumer] does, case by case. *)
Definition consumer_stop_attempts (self : ConsumerManager.ConsumerManager)
    (consumer_name : string) (w : World) (r : py_result unit * World) : Prop :=
  match dict_get (ConsumerManager.consumers self) consumer_name with
  | None => r = (Raise (KeyError consumer_name), w)
  | Some box =>
      r.1 = Return tt
      ∧ match attrs_ip_address box with
        | None =>
            exchanges r.2 = exchanges w
            ∧ logged r.2 = logged w ++ [error_stopping_line consumer_name (KeyError (missing_attr box))]
        | Some container_ip =>
            ∃ h, asked h = hostname_stop consumer_name
              ∧ if rejected (answered h) then
                  match container_ip with
                  | EmptyString =>
                      exchanges r.2 = exchanges w ++ [h]
                      ∧ ∃ e, logged r.2 = logged w ++ [error_stopping_line consumer_name e]
                  | _ =>
                      ∃ f, asked f = ip_stop container_ip
                        ∧ exchanges r.2 = exchanges w ++ [h; f]
                        ∧ logged r.2 = logged w ++
                            [if rejected (answered f)
                             then error_stopping_line consumer_name
                                    (rejection (asked f) (answered f))
                             else stopped_line consumer_name]
                  end
                else
                  exchanges r.2 = exchanges w ++ [h]
                  ∧ logged r.2 = logged w ++ [stopped_line consumer_name]
        end
  end.

(** What one [stop_producer] does: nothing without a known address, else
    one POST to the stop endpoint at that address. *)
Definition producer_stop_attempt (self : ProducerManager.ProducerManager)
    (producer_name : string) (w : World) (r : string * World) : Prop :=
  match ProducerManager.containers_ips self !! producer_name with
  | None | Some EmptyString =>
      r = ("Failed to stop producer " +:+ producer_name +:+ ": Container IP not found", w)
  | Some container_ip =>
      ∃ x, asked x = ip_stop container_ip
        ∧ exchanges r.2 = exchanges w ++ [x]
        ∧ r.1 = if rejected (answered x)
                then "Failed to stop producer " +:+ producer_name +:+ ": "
                       +:+ str_exn (rejection (asked x) (answered x))
                else "Producer " +:+ producer_name +:+ " stopped successfully"
  end.

(** The claim as the specification words it, for one worker: the first
    request of its stop is the POST to the stop endpoint at its name. *)
Definition stops_by_name_first (worker_name : string) (news : list exchange) : Prop :=
  ∃ x rest, news = x :: rest ∧ asked x = hostname_stop worker_name.

(** An outcome that names the worker: started, or failed with a reason. *)
Definition names_outcome (kind Kind worker_name outcome : string) : Prop :=
  outcome = Kind +:+ " " +:+ worker_name +:+ " started successfully"
  ∨ ∃ detail, outcome = "Failed to start " +:+ kind +:+ " " +:+ worker_name +:+ ": " +:+ detail.

(** The configuration [__init__] stores for a vehicle. *)
Definition producer_resolved (cfg : Config) (v : vehicle) : gmap string json :=
  ProducerManager.expand_all "diagnostics_classes" (range 1 15)
    (ProducerManager.expand_all "anomaly_classes" (range 0 19)
       (ProducerManager.template cfg v)).

(** Two producer containers, one configured vehicle. *)
Definition one_vehicle_cfg : Config :=
  {| default_vehicle_config :=
       {["anomaly_classes" := JStr "all"; "diagnostics_classes" := JStr "all"]};
     default_consumer_config :=
       {["anomaly_classes" := JStr "all"; "diagnostics_classes" := JStr "all"]};
     kafka_topic_update_interval_secs := JInt 30;
     vehicles := [Named "v1"] |}.

Definition two_producers : list (string * container) :=
  [ ("v1_producer", WithIPAddress "172.18.0.5");
    ("v2_producer", WithIPAddress "172.18.0.6") ].

Definition two_ips : gmap string string :=
  {["v1_producer" := "172.18.0.5"; "v2_producer" := "172.18.0.6"]}.

(** Every entry of [cfg.vehicles] has the two class keys the consumer
    manager subscripts. *)
Definition has_class_keys (cfg : Config) (v : vehicle) : Prop :=
  is_Some (ConsumerManager.template cfg v !! "anomaly_classes")
  ∧ is_Some (ConsumerManager.template cfg v !! "diagnostics_classes").

(** An outcome of [start_producer] that names the producer. *)
Definition producer_outcome (producer_name outcome : string) : Prop :=
  names_outcome "producer" "Producer" producer_name outcome
  ∨ ∃ detail, outcome = "JSON serialization failed for " +:+ producer_name +:+ ": " +:+ detail.

(** A result of [stop_producer] that names the producer. *)
Definition stop_outcome (producer_name outcome : string) : Prop :=
  outcome = "Producer " +:+ producer_name +:+ " stopped successfully"
  ∨ ∃ detail, outcome = "Failed to stop producer " +:+ producer_name +:+ ": " +:+ detail.

(** A POST to the stop endpoint of some host. *)
Definition is_stop_post (x : exchange) : Prop :=
  ∃ host, asked x = post_request ("http://" +:+ host +:+ ":5000/stop") (JDict []).

End HttpVocabulary.

Section ProducerDataVocabulary.
Import Http.

(** The keys of the data [_build_config_data] returns, in order. *)
Definition config_data_keys : list string :=
  [ "vehicle_name"; "kafka_broker"; "logging_level"; "manager_port"; "mode";
    "target_ip"; "target_port"; "bot_port";
    "probe_frequency_seconds"; "ping_thread_timeout"; "ping_host";
    "duration"; "packet_size"; "delay";
    "mu_anomalies"; "mu_normal"; "alpha"; "beta"; "time_emulation";
    "probe_metrics"; "anomaly_classes"; "diagnostics_classes" ].

(** The keys read from the vehicle configuration, with their defaults. *)
Definition vehicle_defaults : list (string * json) :=
  [ ("kafka_broker", JStr "kafka:9092");
    ("probe_frequency_seconds", JInt 2);
    ("ping_thread_timeout", JInt 5);
    ("ping_host", JStr "www.google.com");
    ("mu_anomalies", JInt 157);
    ("mu_normal", JInt 115);
    ("alpha", JFloat ProducerConfigData.alpha_default);
    ("beta", JFloat ProducerConfigData.beta_default);
    ("time_emulation", JBool false);
    ("anomaly_classes", ints (range 0 19));
    ("diagnostics_classes", ints (range 0 15)) ].

(** The keys read from the attack configuration, with their defaults. *)
Definition attack_defaults : list (string * json) :=
  [ ("target_ip", JStr "172.18.0.4");
    ("target_port", JInt 80);
    ("bot_port", JInt 5002);
    ("duration", JInt 0);
    ("packet_size", JInt 1024);
    ("delay", JFloat ProducerConfigData.delay_default) ].

(** The classes a producer is sent under a class key, by what the
    vehicle's template holds under it: [absent] without the key, [all] for
    the value "all", the value itself otherwise. *)
Definition classes_sent (absent all : list Z) (held : option json) : json :=
  match held with
  | None => ints absent
  | Some value => if is_all value then ints all else value
  end.

(** A GET of the status endpoint of some host. *)
Definition is_status_get (x : exchange) : Prop :=
  ∃ host, asked x = get_request ("http://" +:+ host +:+ ":5000/status").

End ProducerDataVocabulary.

(** * Scenarios *)

(** A worker whose health endpoint answers as a worker's should and which
    answers 304 to every POST; each request takes five milliseconds. *)
Definition not_modified_net : Http.network :=
  λ _ _ rq,
    match Http.verb rq with
    | Http.GET => (Http.Response 200 (Some (JDict [("running", JBool true)])), 5%N)
    | Http.POST => (Http.Response 304 None, 5%N)
    end.

(** A worker whose every reply is a 200 that takes four seconds, within the
    five seconds a health request is given; its body has no marker key
    until eighteen seconds have passed, and the key "running" afterwards. *)
Definition late_net : Http.network :=
  λ _ now rq,
    if now <? 18000
    then (Http.Response 200 (Some (JDict [])), 4000%N)
    else (Http.Response 200 (Some (JDict [("running", JBool true)])), 4000%N).

(** The probe of a producer at its host name against that worker. *)
Definition late_probe : option string * Http.World :=
  ProducerManager.pick_api_url late_net ["http://v1_producer:5000"]
    {| Http.clock := 0; Http.exchanges := []; Http.logged := [] |}.

(** A rendering of exceptions, and a payload builder, for the scenarios. *)
Definition no_text (e : exn) : string := EmptyString.

Definition empty_payload (config : gmap string json) (vehicle_name : string)
  : py_result json := Return (JDict []).

(** The world before any request. *)
Definition midnight : Http.World :=
  {| Http.clock := 0; Http.exchanges := []; Http.logged := [] |}.

(** One consumer container with its configuration. *)
Definition one_consumer : ConsumerManager.ConsumerManager :=
  {| ConsumerManager.consumers := [("v1_consumer", WithIPAddress "172.18.0.9")];
     ConsumerManager.consumer_configs := {["v1" := ∅]} |}.

(** Starting that consumer against that worker. *)
Definition not_modified_run : string * Http.World :=
  ConsumerManager.start_consumer not_modified_net no_text empty_payload one_consumer
    "v1_consumer" (WithIPAddress "172.18.0.9") midnight.

(** One producer container whose address is known. *)
Definition one_producer : ProducerManager.ProducerManager :=
  {| ProducerManager.producers := [("v1_producer", WithIPAddress "172.18.0.5")];
     ProducerManager.containers_ips := {["v1_producer" := "172.18.0.5"]};
     ProducerManager.vehicle_configs := ∅;
     ProducerManager.vehicle_names := [] |}.

(** Stopping that producer. *)
Definition producer_stop_run : string * Http.World :=
  ProducerManager.stop_producer not_modified_net no_text one_producer "v1_producer"
    (WithIPAddress "172.18.0.5") midnight.

(** Two vehicles, the second with an entry of its own. *)
Definition two_vehicles_cfg : Config :=
  {| default_vehicle_config :=
       {["anomaly_classes" := JStr "all"; "diagnostics_classes" := JStr "all"]};
     default_consumer_config :=
       {["anomaly_classes" := JStr "all"; "diagnostics_classes" := ints [1; 2]]};
     kafka_topic_update_interval_secs := JInt 30;
     vehicles := [Named "v1"; Overridden "v2" {["anomaly_classes" := ints [3; 4]]}] |}.

(** Polls that return no record or a broker error, with the texts of the
    client library. *)
Definition broker_error_replies : list KafkaConsumer.poll_reply :=
  [ KafkaConsumer.NoMessage;
    KafkaConsumer.Delivered
      {| KafkaConsumer.error :=
           Some {| KafkaConsumer.code := KafkaConsumer._PARTITION_EOF;
                   KafkaConsumer.str := "Broker: No more messages" |};
         KafkaConsumer.topic := "v1_anomalies";
         KafkaConsumer.value := KafkaConsumer.NoValue |};
    KafkaConsumer.Delivered
      {| KafkaConsumer.error :=
           Some {| KafkaConsumer.code := KafkaConsumer.UNKNOWN_TOPIC_OR_PART;
                   KafkaConsumer.str :=
                     "Subscribed topic not available: ^.*_anomalies$: Broker: Unknown topic or partition" |};
         KafkaConsumer.topic := EmptyString;
         KafkaConsumer.value := KafkaConsumer.NoValue |};
    KafkaConsumer.Delivered
      {| KafkaConsumer.error :=
           Some {| KafkaConsumer.code := KafkaConsumer.UNKNOWN_TOPIC_OR_PART;
                   KafkaConsumer.str := "Broker: Unknown topic or partition" |};
         KafkaConsumer.topic := "v1_anomalies";
         KafkaConsumer.value := KafkaConsumer.NoValue |};
    KafkaConsumer.Delivered
      {| KafkaConsumer.error :=
           Some {| KafkaConsumer.code := -195;
                   KafkaConsumer.str := "Local: Broker transport failure" |};
         KafkaConsumer.topic := "v1_anomalies";
         KafkaConsumer.value := KafkaConsumer.NoValue |} ].

(** A routine that counts the records it is handed and never raises. *)
Definition counting_routine (topic : string) (data : json) (seen : nat)
  : py_result unit * nat := (Return tt, S seen).


(** A [json.dumps] that accepts every value. *)
Definition always_serializable (data : json) : option string := None.

(** A vehicle whose name has an underscore, and its consumer container. *)
Definition underscored_cfg : Config :=
  {| default_vehicle_config := ∅;
     default_consumer_config :=
       {["anomaly_classes" := JStr "all"; "diagnostics_classes" := JStr "all"]};
     kafka_topic_update_interval_secs := JInt 30;
     vehicles := [Named "my_car"] |}.

Definition underscored_fleet : list (string * container) :=
  [("my_car_consumer", WithIPAddress "172.18.0.9")].

(** Settings of a producer manager. *)
Definition plain_settings : ProducerConfigData.Settings :=
  {| ProducerConfigData.logging_level := JStr "INFO";
     ProducerConfigData.mode := JStr "SW";
     ProducerConfigData.manager_port := JInt 5000;
     ProducerConfigData.probe_metrics := JList [JStr "RTT"];
     ProducerConfigData.attack_config := ∅ |}.

(** A builder of the producer's data that returns an empty dict. *)
Definition empty_data (config : gmap string json) (vehicle_name : string)
  : py_result json * list (level * string) :=
  (Return (JDict []), ProducerConfigData.debug_records plain_settings).

(** Starting the producer against the worker that answers 304. *)
Definition producer_start_run : string * Http.World :=
  ProducerManager.start_producer not_modified_net no_text empty_data always_serializable
    one_producer "v1_producer" (WithIPAddress "172.18.0.5") ∅ midnight.

(** Starting that producer with the data [_build_config_data] builds from
    the settings above and an empty vehicle configuration. *)
Definition built_start_run : string * Http.World :=
  ProducerManager.start_producer not_modified_net no_text
    (ProducerConfigData.build_and_log plain_settings) always_serializable
    one_producer "v1_producer" (WithIPAddress "172.18.0.5") ∅ midnight.

(** Starting the consumer of the vehicle with the underscore. *)
Definition underscored_run (self : ConsumerManager.ConsumerManager) : string * Http.World :=
  ConsumerManager.start_consumer not_modified_net no_text empty_payload self
    ("my_car" +:+ "_" +:+ "consumer") (WithIPAddress "172.18.0.9") midnight.

(** * Properties of the Kafka consumer *)

Section KafkaConsumerFacts.
Import KafkaConsumer.

Context {Parent : Type}.
Variable routine : string → json → Parent → py_result unit * Parent.

(** ** [topic_update] *)

Lemma subscribe_journal sr self :
  journal (subscribe sr self).2 =
  journal self ++ Subscribe topics_dict_values :: subscribe_log sr.
Proof. destruct sr; cbn; rewrite <- ?app_assoc; reflexivity. Qed.

Lemma subscribe_current_topics sr self :
  current_topics (subscribe sr self).2 = current_topics self.
Proof. by destruct sr. Qed.

Lemma subscribe_result sr self :
  (subscribe sr self).1 = match sr with SubscribeRaises e => Raise e | _ => Return tt end.
Proof. by destruct sr. Qed.

Lemma size_pos_non_empty (X : gset string) : (0 <? size X)%nat = negb (bool_decide (X = ∅)).
Proof.
  case_bool_decide as HX.
  - subst X. by rewrite size_empty.
  - apply Nat.ltb_lt, Nat.neq_0_lt_0. intros Hsize.
    apply size_empty_iff in Hsize. apply HX. by apply leibniz_equiv.
Qed.

Lemma topic_update_journal available sr self :
  journal (topic_update (Topics available) sr self).2 =
  journal self ++ ListTopics ::
    (if bool_decide (available ∖ current_topics self = ∅) then []
     else Log DEBUG (NewTopics (available ∖ current_topics self) (size available))
            :: Subscribe topics_dict_values :: subscribe_log sr).
Proof.
  unfold topic_update. cbn [emit current_topics set_current_topics].
  rewrite size_pos_non_empty. case_bool_decide as Hnew; cbn [negb].
  - reflexivity.
  - set (self1 := emit _ (set_current_topics _ _)).
    pose proof (subscribe_journal sr self1) as Hj.
    destruct (subscribe sr self1) as [[u|e] self2]; cbn in *; rewrite Hj;
      rewrite <- !app_assoc; reflexivity.
Qed.

Lemma topic_update_snapshot available sr self :
  current_topics (topic_update (Topics available) sr self).2 = available.
Proof.
  unfold topic_update. cbn [emit current_topics set_current_topics].
  destruct (0 <? size _)%nat; [|reflexivity].
  set (self1 := emit _ (set_current_topics _ _)).
  pose proof (subscribe_current_topics sr self1) as Hc.
  destruct (subscribe sr self1) as [[u|e] self2]; cbn in *; by rewrite Hc.
Qed.

Lemma topic_update_value available sr self :
  (topic_update (Topics available) sr self).1 =
  match sr with
  | SubscribeRaises e =>
      if bool_decide (available ∖ current_topics self = ∅) then Return None else Raise e
  | _ => Return None
  end.
Proof.
  unfold topic_update. cbn [emit current_topics set_current_topics].
  rewrite size_pos_non_empty. case_bool_decide as Hnew; cbn [negb].
  - by destruct sr.
  - by destruct sr.
Qed.

(** ** The classification of broker errors, on examples *)

Example split_of_librdkafka_text :
  split_colon_space
    "Subscribed topic not available: ^.*_anomalies$: Broker: Unknown topic or partition"
    EmptyString
  = ["Subscribed topic not available"; "^.*_anomalies$"; "Broker";
     "Unknown topic or partition"].
Proof. reflexivity. Qed.

Example split_without_separator :
  split_colon_space "Unknown topic or partition" EmptyString = ["Unknown topic or partition"].
Proof. reflexivity. Qed.

Example end_of_partition_is_info :
  report_error {| code := _PARTITION_EOF; str := "Broker: No more messages" |} fresh
  = (Return tt,
     emit (Log INFO (EndOfPartition {| code := _PARTITION_EOF;
                                       str := "Broker: No more messages" |})) fresh).
Proof. reflexivity. Qed.

Example unknown_pattern_topic_is_info :
  report_error
    {| code := UNKNOWN_TOPIC_OR_PART;
       str := "Subscribed topic not available: ^.*_anomalies$: Broker: Unknown topic or partition" |}
    fresh
  = (Return tt, emit (Log INFO NoVehiclesYet) fresh).
Proof. reflexivity. Qed.

Example unknown_other_topic_is_error :
  report_error
    {| code := UNKNOWN_TOPIC_OR_PART;
       str := "Subscribed topic not available: v1_other: Broker: Unknown topic or partition" |}
    fresh
  = (Return tt,
     emit (Log ERROR (ConsumerError
       {| code := UNKNOWN_TOPIC_OR_PART;
          str := "Subscribed topic not available: v1_other: Broker: Unknown topic or partition" |}))
       fresh).
Proof. reflexivity. Qed.

Example unknown_topic_without_field_raises :
  report_error {| code := UNKNOWN_TOPIC_OR_PART; str := "Unknown topic or partition" |} fresh
  = (Raise IndexError, fresh).
Proof. reflexivity. Qed.

(** The values Python counts as false. *)
Example falsy_values :
  truthy JNull = false ∧ truthy (JBool false) = false ∧ truthy (JInt 0) = false
  ∧ truthy (JFloat 0%float) = false ∧ truthy (JStr EmptyString) = false
  ∧ truthy (JList []) = false ∧ truthy (JDict []) = false.
Proof. repeat split; reflexivity. Qed.

Example truthy_values :
  truthy (JBool true) = true ∧ truthy (JInt 7) = true ∧ truthy (JStr "0") = true
  ∧ truthy (JList [JNull]) = true ∧ truthy (JDict [("speed", JInt 0)]) = true.
Proof. repeat split; reflexivity. Qed.

Lemma subscribe_retry_delay sr self : retry_delay (subscribe sr self).2 = retry_delay self.
Proof. by destruct sr. Qed.

Lemma topic_update_retry_delay lr sr self :
  retry_delay (topic_update lr sr self).2 = retry_delay self.
Proof.
  unfold topic_update. destruct lr as [available|e]; [|done].
  cbn [emit current_topics set_current_topics].
  destruct (0 <? size (available ∖ current_topics self))%nat; [|done].
  set (self1 := emit _ (set_current_topics _ _)).
  pose proof (subscribe_retry_delay sr self1) as Hr.
  destruct (subscribe sr self1) as [[u|e] self2]; cbn in *; by rewrite Hr.
Qed.

(** The constructor leaves [self.retry_delay] at one second. *)
Lemma init_retry_delay sr0 lr sr1 : retry_delay (__init__ sr0 lr sr1).2 = 1.
Proof.
  unfold __init__.
  set (self0 := {| is_running := true; current_topics := ∅; retry_delay := 1; journal := [] |}).
  pose proof (subscribe_retry_delay sr0 self0) as H0.
  destruct (subscribe sr0 self0) as [[u|e] self1]; cbn [snd] in *; [|done].
  pose proof (topic_update_retry_delay lr sr1 self1) as H1.
  destruct (topic_update lr sr1 self1) as [[u'|e] self2]; cbn [snd] in *;
    by rewrite H1, H0.
Qed.

(** ** The consumption loop *)

Lemma dispatches_app evs1 evs2 : dispatches (evs1 ++ evs2) = dispatches evs1 ++ dispatches evs2.
Proof. apply omap_app. Qed.

Lemma none_warnings_app evs1 evs2 :
  none_warnings (evs1 ++ evs2) = (none_warnings evs1 + none_warnings evs2)%nat.
Proof. unfold none_warnings. by rewrite List.filter_app, length_app. Qed.

Lemma report_error_journal err self r self' :
  report_error err self = (r, self') →
  retry_delay self' = retry_delay self
  ∧ ∃ evs, journal self' = journal self ++ evs
      ∧ dispatches evs = [] ∧ none_warnings evs = 0%nat.
Proof.
  unfold report_error. intros H.
  repeat case_match; simplify_eq; cbn; (split; [done|]);
    first [ by exists []; rewrite app_nil_r | by eexists [_] ].
Qed.

Lemma deserialize_message_journal msg self r self' :
  deserialize_message msg self = (r, self') →
  retry_delay self' = retry_delay self
  ∧ ∃ evs, journal self' = journal self ++ evs
      ∧ dispatches evs = [] ∧ none_warnings evs = 0%nat.
Proof.
  unfold deserialize_message. intros H.
  repeat case_match; simplify_eq; cbn; (split; [done|]);
    first [ by exists []; rewrite app_nil_r | by eexists [_] ].
Qed.

Arguments dispatches : simpl never.
Arguments none_warnings : simpl never.

Ltac journal_tidy :=
  cbn [journal emit retry_delay];
  rewrite ?dispatches_app, ?none_warnings_app;
  repeat match goal with
  | |- context [none_warnings (?x :: ?l)] =>
      let v := eval cbv in (none_warnings (x :: l)) in
      change (none_warnings (x :: l)) with v
  | |- context [dispatches (?x :: ?l)] =>
      let v := eval cbv in (dispatches (x :: l)) in
      change (dispatches (x :: l)) with v
  end;
  cbn; rewrite ?app_nil_r, ?Nat.add_0_r, <- ?app_assoc; cbn.

(** The loop consumes a prefix of the replies; the routine is called on
    exactly the deliverable records of that prefix, in order, the warning
    is logged once per dropped record, and [self.retry_delay] is never
    written. *)
Lemma poll_loop_consumes replies : ∀ self parent local ex self' parent' local' rest,
  poll_loop routine replies self parent local = (ex, self', parent', local', rest) →
  ∃ consumed, replies = consumed ++ rest
    ∧ dispatches (journal self') = dispatches (journal self) ++ omap deliverable consumed
    ∧ none_warnings (journal self') =
        (none_warnings (journal self) + length (List.filter dropped consumed))%nat
    ∧ retry_delay self' = retry_delay self
    ∧ (ex = Exhausted → rest = [])
    ∧ parent' = handed routine (omap deliverable consumed) parent
    ∧ (ex ≠ Exhausted → consumed ≠ []).
Proof.
  induction replies as [|reply replies IH]; intros self parent local ex self' parent' local' rest H.
  - cbn in H. simplify_eq. exists []. by journal_tidy.
  - cbn [poll_loop] in H.
    destruct reply as [e| |[[err|] t v]].
    + simplify_eq. exists [PollRaises e]. by journal_tidy.
    + apply IH in H as (consumed & -> & Hd & Hw & Hr & Hex & Hp & Hne).
      exists (NoMessage :: consumed). rewrite Hd, Hw, Hr. by journal_tidy.
    + cbn [error] in H.
      destruct (report_error err (emit Poll self)) as [[u|e] self1] eqn:E;
        apply report_error_journal in E as (Hr1 & evs & Hj & Hd1 & Hw1).
      * apply IH in H as (consumed & -> & Hd & Hw & Hr & Hex & Hp & Hne).
        eexists (Delivered _ :: consumed). split; [reflexivity|]. rewrite Hd, Hw, Hr, Hr1, Hj.
        journal_tidy. by rewrite Hd1, Hw1; journal_tidy.
      * simplify_eq. eexists [Delivered _]. split; [reflexivity|]. rewrite Hr1, Hj.
        journal_tidy. by rewrite Hd1, Hw1; journal_tidy.
    + cbn [error] in H. unfold deserialize_message in H. cbn [value topic] in H.
      destruct v as [| | |e|v].
      * simplify_eq. eexists [Delivered _]. split; [reflexivity|]. by journal_tidy.
      * simplify_eq. eexists [Delivered _]. split; [reflexivity|]. by journal_tidy.
      * cbn [truthy] in H.
        apply IH in H as (consumed & -> & Hd & Hw & Hr & Hex & Hp & Hne).
        eexists (Delivered _ :: consumed). split; [reflexivity|]. rewrite Hd, Hw, Hr.
        journal_tidy. repeat split; [lia|done..].
      * destruct (is_json_decode_error e) eqn:He.
        -- cbn [truthy] in H.
           apply IH in H as (consumed & -> & Hd & Hw & Hr & Hex & Hp & Hne).
           eexists (Delivered _ :: consumed). split; [reflexivity|]. rewrite Hd, Hw, Hr.
           journal_tidy. rewrite He. journal_tidy. repeat split; [lia|done..].
        -- simplify_eq. eexists [Delivered _]. split; [reflexivity|].
           journal_tidy. rewrite He. by journal_tidy.
      * destruct (truthy v) eqn:Hv.
        -- destruct (routine t v parent) as [[u|e] parent1] eqn:E.
           ++ apply IH in H as (consumed & -> & Hd & Hw & Hr & Hex & Hp & Hne).
              eexists (Delivered _ :: consumed). split; [reflexivity|]. rewrite Hd, Hw, Hr.
              journal_tidy. rewrite Hv. journal_tidy.
              split_and!; try done. unfold handed. cbn [foldl fst snd]. by rewrite E.
           ++ simplify_eq. eexists [Delivered _]. split; [reflexivity|].
              journal_tidy. rewrite Hv. journal_tidy.
              split_and!; try done. unfold handed. cbn [foldl fst snd]. by rewrite E.
        -- apply IH in H as (consumed & -> & Hd & Hw & Hr & Hex & Hp & Hne).
           eexists (Delivered _ :: consumed). split; [reflexivity|]. rewrite Hd, Hw, Hr.
           journal_tidy. rewrite Hv. journal_tidy. repeat split; [lia|done..].
Qed.

Lemma report_error_extends err self :
  ∃ evs, journal (report_error err self).2 = journal self ++ evs.
Proof.
  unfold report_error. repeat case_match; cbn;
    first [ by exists []; rewrite app_nil_r | by eexists [_] ].
Qed.

Lemma poll_loop_extends replies : ∀ self parent local,
  ∃ evs, journal (poll_loop routine replies self parent local).1.1.1.2 = journal self ++ evs.
Proof.
  induction replies as [|reply replies IH]; intros self parent local.
  - exists []. cbn. by rewrite app_nil_r.
  - cbn [poll_loop].
    assert (∀ self1 parent1 local1 evs1, journal self1 = journal self ++ evs1 →
      ∃ evs, journal (poll_loop routine replies self1 parent1 local1).1.1.1.2
             = journal self ++ evs) as Hnext.
    { intros self1 parent1 local1 evs1 Hj.
      destruct (IH self1 parent1 local1) as [evs Hevs].
      exists (evs1 ++ evs). by rewrite Hevs, Hj, app_assoc. }
    destruct reply as [e| |[[err|] t v]]; cbn [error topic value].
    + by exists [Poll].
    + by apply (Hnext _ _ _ [Poll]).
    + destruct (report_error_extends err (emit Poll self)) as [evs Hevs].
      destruct (report_error err (emit Poll self)) as [[u|e] self1]; cbn in Hevs.
      * apply (Hnext _ _ _ (Poll :: evs)). by rewrite Hevs, <- app_assoc.
      * exists (Poll :: evs). cbn. by rewrite Hevs, <- app_assoc.
    + unfold deserialize_message. cbn [value].
      destruct v as [| | |e|v]; [by exists [Poll]|by exists [Poll]| | |].
      * cbn [truthy].
        apply (Hnext _ _ _ [Poll; Log ERROR ErrorDeserializing;
                            Log WARNING DeserializedMessageIsNone]).
        cbn. by rewrite <- !app_assoc.
      * destruct (is_json_decode_error e); [|by exists [Poll]].
        cbn [truthy].
        apply (Hnext _ _ _ [Poll; Log ERROR ErrorDeserializing;
                            Log WARNING DeserializedMessageIsNone]).
        cbn. by rewrite <- !app_assoc.
      * destruct (truthy v).
        -- destruct (routine t v parent) as [[u|e] parent1].
           ++ apply (Hnext _ _ _ [Poll; Dispatch t v]). cbn. by rewrite <- app_assoc.
           ++ exists [Poll; Dispatch t v]. cbn. by rewrite <- app_assoc.
        -- apply (Hnext _ _ _ [Poll; Log WARNING DeserializedMessageIsNone]).
           cbn. by rewrite <- app_assoc.
Qed.

(** Once an exception leaves the loop, [read_messages] logs, sleeps for
    [self.retry_delay], closes the consumer and returns: nothing is polled
    again, and the doubled delay lands in the local variable only. *)
Lemma read_messages_returned replies self parent self' parent' local' rest :
  read_messages routine replies self parent = (Returned, self', parent', local', rest) →
  ∃ e evs, journal self' = journal self ++ evs ++ farewell e (retry_delay self)
    ∧ retry_delay self' = retry_delay self
    ∧ local' = Some (Z.min (retry_delay self * 2) 60).
Proof.
  unfold read_messages. intros H.
  pose proof (poll_loop_extends replies self parent None) as [evs Hevs].
  destruct (poll_loop routine replies self parent None)
    as [[[[ex self1] parent1] local1] rest1] eqn:E.
  apply poll_loop_consumes in E as (consumed & _ & _ & _ & Hr & _).
  destruct ex as [|e]; [discriminate|]. simplify_eq. cbn in Hevs.
  exists e, evs. cbn. by rewrite Hr, Hevs, <- !app_assoc.
Qed.

Lemma subscriptions_app evs1 evs2 :
  subscriptions (evs1 ++ evs2) = (subscriptions evs1 + subscriptions evs2)%nat.
Proof. unfold subscriptions. by rewrite List.filter_app, length_app. Qed.

Lemma subscriptions_subscribe_log sr : subscriptions (subscribe_log sr) = 0%nat.
Proof. by destruct sr. Qed.

(** C2 (amended): a refresh replaces the snapshot by the broker's listing,
    computes the new topics as the listing minus the old snapshot and, when
    that set is not empty, logs it and resubscribes once with the fixed
    patterns; otherwise it calls nothing but the listing.  The new topics
    are not handed back: the value of [topic_update] is [None] (or the
    exception [subscribe] let through).  A second refresh with the same
    listing resubscribes nothing. *)
Theorem topic_update_replaces_snapshot_and_resubscribes
    (available : gset string) (sr sr' : subscribe_reply) (self : KafkaMessageConsumer) :
  let new_topics := available ∖ current_topics self in
  let r := topic_update (Topics available) sr self in
  current_topics r.2 = available
  ∧ journal r.2 = journal self ++ ListTopics ::
      (if bool_decide (new_topics = ∅) then []
       else Log DEBUG (NewTopics new_topics (size available))
              :: Subscribe topics_dict_values :: subscribe_log sr)
  ∧ subscriptions (journal r.2) =
      (subscriptions (journal self) + (if bool_decide (new_topics = ∅) then 0 else 1))%nat
  ∧ (∀ returned, r.1 ≠ Return (Some returned))
  ∧ journal (topic_update (Topics available) sr' r.2).2 = journal r.2 ++ [ListTopics].
Proof.
  intros new_topics r. subst r new_topics.
  split_and!.
  - apply topic_update_snapshot.
  - apply topic_update_journal.
  - rewrite topic_update_journal, subscriptions_app.
    case_bool_decide; [done|].
    change (ListTopics :: ?x :: ?y :: ?l) with ([ListTopics; x; y] ++ l).
    by rewrite subscriptions_app, subscriptions_subscribe_log.
  - intros returned. rewrite topic_update_value. by repeat case_match.
  - rewrite (topic_update_journal available sr'), topic_update_snapshot.
    by rewrite difference_diag_L, bool_decide_eq_true_2.
Qed.

(** The refresh as the specification words it fails where a topic is new:
    the caller gets [None], not the set of new topics. *)
Lemma topic_update_returns_no_topics :
  ¬ refresh_as_specified {["v1_anomalies"]} Subscribed fresh.
Proof.
  unfold refresh_as_specified. intros (_ & Hreturned & _).
  rewrite topic_update_value in Hreturned. discriminate.
Qed.

(** C10: the routine is called on exactly the records that arrive without
    broker error and whose payload parses to a value Python counts as
    true, in the order they are polled, and on no other; every record
    whose payload parses to a false value ([None], [False], 0, 0.0, the
    empty string, list or dict) gets the warning instead and the loop goes
    on with the next poll.  The replies consumed are all of them while the
    loop is running, and a prefix that is not empty once it has returned.
    For a single record: a true value is handed to the routine once and
    nothing is warned; a false value is handed to nobody, the warning is
    logged once and the loop is still polling. *)
Theorem falsy_payload_is_logged_and_dropped
    (replies : list poll_reply) (self : KafkaMessageConsumer) (parent : Parent)
    (t : string) (v : json) :
  let r := read_messages routine replies self parent in
  let one := read_messages routine
               [Delivered {| error := None; topic := t; value := JsonText v |}] self parent in
  (∃ consumed,
     replies = consumed ++ r.2
     ∧ (r.1.1.1.1 = Polling → r.2 = [])
     ∧ (r.1.1.1.1 = Returned → consumed ≠ [])
     ∧ dispatches (journal r.1.1.1.2)
         = dispatches (journal self) ++ omap deliverable consumed
     ∧ r.1.1.2 = handed routine (omap deliverable consumed) parent
     ∧ none_warnings (journal r.1.1.1.2)
         = (none_warnings (journal self) + length (List.filter dropped consumed))%nat)
  ∧ (truthy v = true →
     dispatches (journal one.1.1.1.2) = dispatches (journal self) ++ [(t, v)]
     ∧ one.1.1.2 = (routine t v parent).2
     ∧ none_warnings (journal one.1.1.1.2) = none_warnings (journal self))
  ∧ (truthy v = false →
     one = (Polling, emit (Log WARNING DeserializedMessageIsNone) (emit Poll self),
            parent, Some 1, [])
     ∧ dispatches (journal one.1.1.1.2) = dispatches (journal self)
     ∧ none_warnings (journal one.1.1.1.2) = S (none_warnings (journal self))).
Proof.
  cbv zeta. split_and!.
  - unfold read_messages.
    destruct (poll_loop routine replies self parent None)
      as [[[[ex self1] parent1] local1] rest1] eqn:E.
    apply poll_loop_consumes in E as (consumed & -> & Hd & Hw & _ & Hex & Hp & Hne).
    destruct ex as [|e]; exists consumed; cbn [fst snd]; split_and!; try done.
    + intros _. by apply Hex.
    + intros _. by apply Hne.
    + journal_tidy. by rewrite Hd, ?app_nil_r.
    + journal_tidy. by rewrite Hw.
  - intros Hv. unfold read_messages. cbn [poll_loop error topic value].
    unfold deserialize_message. cbn [value]. rewrite Hv.
    destruct (routine t v parent) as [[u|e] parent1]; cbn [fst snd];
      split_and!; try done; by journal_tidy.
  - intros Hv. unfold read_messages. cbn [poll_loop error topic value].
    unfold deserialize_message. cbn [value]. rewrite Hv. cbn [fst snd].
    split_and!; [done|by journal_tidy|journal_tidy; lia].
Qed.

(** A broker error whose code is not "unknown topic", or whose text has a
    second field, is logged and the loop polls again. *)
Lemma report_error_continues err self :
  code err ≠ UNKNOWN_TOPIC_OR_PART ∨ is_Some (split_colon_space (str err) EmptyString !! 1%nat) →
  ∃ lv m, report_error err self = (Return tt, emit (Log lv m) self).
Proof.
  unfold report_error. intros H.
  destruct (code err =? _PARTITION_EOF); [by eauto|].
  destruct (code err =? UNKNOWN_TOPIC_OR_PART) eqn:Hc; [|by eauto].
  apply Z.eqb_eq in Hc. destruct H as [H|[name ->]]; [done|].
  case_bool_decide; eauto.
Qed.

(** C6 (evaluated where the claim fails): the first poll raises.  The
    handler logs, sleeps for [self.retry_delay] and [finally] closes the
    consumer; [read_messages] returns with the next reply unread, so there
    is no retry.  The doubled delay is stored in the local variable and
    [self.retry_delay] keeps its value: a second call sleeps for one
    second again. *)
Theorem read_messages_never_retries (parent : Parent) :
  let replies := [PollRaises (KafkaException "broker down"); NoMessage] in
  let first := read_messages routine replies fresh parent in
  first =
    (Returned,
     {| is_running := true; current_topics := ∅; retry_delay := 1;
        journal := Poll :: farewell (KafkaException "broker down") 1 |},
     parent, Some 2, [NoMessage])
  ∧ journal (read_messages routine replies first.1.1.1.2 parent).1.1.1.2 =
      (Poll :: farewell (KafkaException "broker down") 1)
      ++ (Poll :: farewell (KafkaException "broker down") 1).
Proof. split; reflexivity. Qed.

(** An "unknown topic" error whose text had no colon-space would leave the
    loop: reading the second field raises [IndexError] before anything is
    logged for the broker error. *)
Example unknown_topic_without_field_ends_the_loop (parent : Parent) :
  let err := {| code := UNKNOWN_TOPIC_OR_PART; str := "Unknown topic or partition" |} in
  let msg := {| error := Some err; topic := "v1_anomalies"; value := NoValue |} in
  read_messages routine [Delivered msg; NoMessage] fresh parent =
    (Returned,
     {| is_running := true; current_topics := ∅; retry_delay := 1;
        journal := Poll :: farewell IndexError 1 |},
     parent, Some 2, [NoMessage]).
Proof. reflexivity. Qed.

(** C9 (evaluated where the claim fails): a record whose bytes are not
    UTF-8.  [deserialize_message] catches [json.JSONDecodeError] only, so
    [UnicodeDecodeError] leaves the loop: the consumer is closed and the
    next reply stays unread. *)
Theorem undecodable_payload_ends_the_loop (parent : Parent) :
  let msg := {| error := None; topic := "v1_anomalies"; value := NotUtf8 |} in
  read_messages routine [Delivered msg; NoMessage] fresh parent =
    (Returned,
     {| is_running := true; current_topics := ∅; retry_delay := 1;
        journal := Poll :: farewell UnicodeDecodeError 1 |},
     parent, Some 2, [NoMessage]).
Proof. reflexivity. Qed.

(** Text that is UTF-8 but not JSON is handled as the claim says. *)
Lemma not_json_payload_is_dropped replies self parent local t :
  poll_loop routine (Delivered {| error := None; topic := t; value := NotJson |} :: replies)
    self parent local
  = poll_loop routine replies
      (emit (Log WARNING DeserializedMessageIsNone)
         (emit (Log ERROR ErrorDeserializing) (emit Poll self))) parent (Some 1).
Proof. reflexivity. Qed.

(** ** The loop, one reply at a time *)

Lemma count_app kind evs1 evs2 :
  count kind (evs1 ++ evs2) = (count kind evs1 + count kind evs2)%nat.
Proof. unfold count. by rewrite List.filter_app, length_app. Qed.

Lemma count_harmless kind evs :
  (∀ ev, harmless ev = true → kind ev = false) →
  Forall (λ ev, harmless ev = true) evs → count kind evs = 0%nat.
Proof.
  intros Hkind. unfold count. induction 1 as [|ev evs Hev _ IH]; [done|].
  cbn. by rewrite (Hkind ev Hev).
Qed.

Lemma report_error_step err self :
  ∃ tail, Forall (λ ev, harmless ev = true) tail
    ∧ journal (report_error err self).2 = journal self ++ tail
    ∧ current_topics (report_error err self).2 = current_topics self
    ∧ is_running (report_error err self).2 = is_running self
    ∧ retry_delay (report_error err self).2 = retry_delay self
    ∧ ((∃ u, (report_error err self).1 = Return u) ∨
       (report_error err self).1 = Raise IndexError ∧ benign (Delivered {| error := Some err;
          topic := EmptyString; value := NoValue |}) = false).
Proof.
  unfold report_error, benign. cbn [error code str].
  destruct (code err =? _PARTITION_EOF);
    [exists [Log INFO (EndOfPartition err)]; split_and!; eauto|].
  destruct (code err =? UNKNOWN_TOPIC_OR_PART);
    [|exists [Log ERROR (ConsumerError err)]; split_and!; eauto].
  destruct (split_colon_space (str err) EmptyString !! 1%nat) as [name|] eqn:Hfield.
  - case_bool_decide.
    + exists [Log INFO NoVehiclesYet]. split_and!; eauto.
    + exists [Log ERROR (ConsumerError err)]. split_and!; eauto.
  - exists []. cbn. rewrite app_nil_r. split_and!; try done. by right.
Qed.

(** One turn of the loop: the poll, then log records and at most one call
    of the routine; either the loop goes on with the next reply or an
    exception leaves it, and then the reply was not benign or the routine
    raised. *)
Lemma poll_loop_step reply replies self parent local :
  ∃ tail self1 parent1 local1,
    Forall (λ ev, harmless ev = true) tail
    ∧ journal self1 = journal self ++ Poll :: tail
    ∧ current_topics self1 = current_topics self
    ∧ is_running self1 = is_running self
    ∧ retry_delay self1 = retry_delay self
    ∧ (poll_loop routine (reply :: replies) self parent local
         = poll_loop routine replies self1 parent1 local1
       ∨ ∃ e, poll_loop routine (reply :: replies) self parent local
                = (Escaped e, self1, parent1, local, replies)
              ∧ (benign reply = false
                 ∨ ∃ t d p, (routine t d p).1 = Raise e)).
Proof.
  cbn [poll_loop].
  destruct reply as [e| |[[err|] t v]]; cbn [error topic value].
  - exists [], (emit Poll self), parent, local. split_and!; try done.
    right. exists e. split; [done|by left].
  - exists [], (emit Poll self), parent, local. split_and!; try done. by left.
  - destruct (report_error_step err (emit Poll self))
      as (tail & Htail & Hj & Hc & Hi & Hr & Hres).
    destruct (report_error err (emit Poll self)) as [res self1]. cbn [fst snd] in *.
    exists tail, self1, parent, local.
    split_and!; try done; [by rewrite Hj; cbn; rewrite <- app_assoc|].
    destruct Hres as [[u ->]|[-> Hb]]; [by left|].
    right. exists IndexError. split; [done|]. left. exact Hb.
  - unfold deserialize_message. cbn [value].
    destruct v as [| | |e0|v].
    + exists [], (emit Poll self), parent, local. split_and!; try done.
      right. exists AttributeError. split; [done|by left].
    + exists [], (emit Poll self), parent, local. split_and!; try done.
      right. exists UnicodeDecodeError. split; [done|by left].
    + cbn [truthy].
      exists [Log ERROR ErrorDeserializing; Log WARNING DeserializedMessageIsNone],
        (emit (Log WARNING DeserializedMessageIsNone)
           (emit (Log ERROR ErrorDeserializing) (emit Poll self))), parent, (Some 1).
      split_and!; [by repeat constructor| |done..|by left]. cbn. by rewrite <- !app_assoc.
    + destruct (is_json_decode_error e0) eqn:He0.
      * cbn [truthy].
        exists [Log ERROR ErrorDeserializing; Log WARNING DeserializedMessageIsNone],
          (emit (Log WARNING DeserializedMessageIsNone)
             (emit (Log ERROR ErrorDeserializing) (emit Poll self))), parent, (Some 1).
        split_and!; [by repeat constructor| |done..|by left]. cbn. by rewrite <- !app_assoc.
      * exists [], (emit Poll self), parent, local. split_and!; try done.
        right. exists e0. split; [done|]. left. cbn. exact He0.
    + destruct (truthy v).
      * destruct (routine t v parent) as [[u|e] parent1] eqn:E.
        -- exists [Dispatch t v], (emit (Dispatch t v) (emit Poll self)), parent1, (Some 1).
           split_and!; [by repeat constructor| |done..|by left].
           cbn. by rewrite <- !app_assoc.
        -- exists [Dispatch t v], (emit (Dispatch t v) (emit Poll self)), parent1, local.
           split_and!; [by repeat constructor| |done..|]; [cbn; by rewrite <- !app_assoc|].
           right. exists e. split; [done|]. right. exists t, v, parent. by rewrite E.
      * exists [Log WARNING DeserializedMessageIsNone],
          (emit (Log WARNING DeserializedMessageIsNone) (emit Poll self)), parent, (Some 1).
        split_and!; [by repeat constructor| |done..|by left]. cbn. by rewrite <- !app_assoc.
Qed.

Lemma poll_loop_trace replies : ∀ self parent local,
  ∃ consumed evs,
    replies = consumed ++ (poll_loop routine replies self parent local).2
    ∧ journal (poll_loop routine replies self parent local).1.1.1.2 = journal self ++ evs
    ∧ Forall poll_or_harmless evs
    ∧ count is_poll evs = length consumed
    ∧ current_topics (poll_loop routine replies self parent local).1.1.1.2 = current_topics self
    ∧ is_running (poll_loop routine replies self parent local).1.1.1.2 = is_running self
    ∧ retry_delay (poll_loop routine replies self parent local).1.1.1.2 = retry_delay self
    ∧ match (poll_loop routine replies self parent local).1.1.1.1 with
      | Exhausted => (poll_loop routine replies self parent local).2 = []
      | Escaped _ => consumed ≠ []
      end.
Proof.
  induction replies as [|reply replies IH]; intros self parent local.
  - exists [], []. cbn. rewrite app_nil_r. split_and!; try done.
  - destruct (poll_loop_step reply replies self parent local)
      as (tail & self1 & parent1 & local1 & Htail & Hj & Hc & Hi & Hr & Hstep).
    assert (Forall poll_or_harmless (Poll :: tail)) as Hall.
    { constructor; [by left|]. eapply Forall_impl; [exact Htail|]. intros ev Hev. by right. }
    assert (count is_poll (Poll :: tail) = 1%nat) as Hone.
    { change (Poll :: tail) with ([Poll] ++ tail). rewrite count_app.
      rewrite (count_harmless is_poll tail); [done| |done]. by intros []. }
    destruct Hstep as [->|(e & -> & _)].
    + destruct (IH self1 parent1 local1)
        as (consumed & evs & Hsplit & Hj' & Hall' & Hcount & Hc' & Hi' & Hr' & Hend).
      exists (reply :: consumed), ((Poll :: tail) ++ evs).
      split_and!.
      * cbn. by rewrite <- Hsplit.
      * by rewrite Hj', Hj, <- app_assoc.
      * by apply Forall_app.
      * rewrite count_app, Hone, Hcount. done.
      * by rewrite Hc'.
      * by rewrite Hi'.
      * by rewrite Hr'.
      * destruct (poll_loop routine replies self1 parent1 local1).1.1.1.1; [done|].
        done.
    + exists [reply], (Poll :: tail). cbn [fst snd]. split_and!; try done.
Qed.

Lemma count_poll_or_harmless kind evs :
  (∀ ev, poll_or_harmless ev → kind ev = false) →
  Forall poll_or_harmless evs → count kind evs = 0%nat.
Proof.
  intros Hkind. unfold count. induction 1 as [|ev evs Hev _ IH]; [done|].
  cbn. by rewrite (Hkind ev Hev).
Qed.

Lemma not_close ev : poll_or_harmless ev → is_close ev = false.
Proof. by destruct ev; intros [?|?]. Qed.

Lemma not_sleep ev : poll_or_harmless ev → is_sleep ev = false.
Proof. by destruct ev; intros [?|?]. Qed.

Lemma not_subscribe ev : poll_or_harmless ev → is_subscribe ev = false.
Proof. by destruct ev; intros [?|?]. Qed.

(** X1: whatever the broker replies and whatever the routine does,
    [read_messages] polls once per reply it consumes, never subscribes,
    and leaves [self.current_topics] and [self.retry_delay] as they were.
    While it is in the loop it neither sleeps nor closes the client; when
    it returns, at least one reply was consumed and its last two calls are
    one sleep of the unchanged [self.retry_delay] and the one [close()]. *)
Theorem read_messages_polls_once_per_reply replies self parent :
  let r := read_messages routine replies self parent in
  ∃ consumed evs,
    replies = consumed ++ r.2
    ∧ journal r.1.1.1.2 = journal self ++ evs
    ∧ count is_poll evs = length consumed
    ∧ subscriptions evs = 0%nat
    ∧ current_topics r.1.1.1.2 = current_topics self
    ∧ retry_delay r.1.1.1.2 = retry_delay self
    ∧ match r.1.1.1.1 with
      | Polling => r.2 = [] ∧ count is_close evs = 0%nat ∧ count is_sleep evs = 0%nat
      | Returned =>
          consumed ≠ []
          ∧ ∃ before, evs = before ++ [Sleep (retry_delay self); Close]
              ∧ count is_close before = 0%nat ∧ count is_sleep before = 0%nat
      end.
Proof.
  cbv zeta. unfold read_messages.
  destruct (poll_loop_trace replies self parent None)
    as (consumed & evs & Hsplit & Hj & Hall & Hcount & Hc & Hi & Hr & Hend).
  destruct (poll_loop routine replies self parent None) as [[[[[|e] self1] parent1] local1] rest].
  - cbn [fst snd] in *. exists consumed, evs. split_and!; try done.
    + by apply (count_poll_or_harmless is_subscribe); [apply not_subscribe|].
    + by apply count_poll_or_harmless; [apply not_close|].
    + by apply count_poll_or_harmless; [apply not_sleep|].
  - cbn [fst snd] in *.
    exists consumed, (evs ++ farewell e (retry_delay self)).
    cbn [journal emit retry_delay current_topics]. rewrite Hr, Hj.
    split_and!; try done.
    + by rewrite <- !app_assoc.
    + rewrite count_app, Hcount. cbn. lia.
    + change subscriptions with (count is_subscribe). rewrite count_app.
      rewrite (count_poll_or_harmless is_subscribe evs); [done|apply not_subscribe|done].
    + exists (evs ++ [Log ERROR (ErrorWhileReading e); Log INFO (RetryingIn (retry_delay self))]).
      split_and!.
      * by rewrite <- app_assoc.
      * rewrite count_app.
        by rewrite (count_poll_or_harmless is_close evs); [|apply not_close|].
      * rewrite count_app.
        by rewrite (count_poll_or_harmless is_sleep evs); [|apply not_sleep|].
Qed.



(** ** The classification of broker errors *)

Lemma split_colon_space_cons s : ∀ cur, ∃ field fields, split_colon_space s cur = field :: fields.
Proof.
  induction s as [|a rest IH]; intros cur; [by eexists _, _|].
  destruct rest as [|b rest']; [by eexists _, _|].
  cbn [split_colon_space]. destruct (Ascii.eqb a ":" && Ascii.eqb b " "); [by eexists _, _|].
  apply IH.
Qed.

Lemma split_second_field s : ∀ cur,
  is_Some (split_colon_space s cur !! 1%nat) ↔ has_colon_space s = true.
Proof.
  induction s as [|a rest IH]; intros cur.
  - cbn. split; [by intros [? ?]|done].
  - destruct rest as [|b rest'].
    + cbn. split; [by intros [? ?]|done].
    + change (split_colon_space (String a (String b rest')) cur)
        with (if Ascii.eqb a ":" && Ascii.eqb b " "
              then cur :: split_colon_space rest' EmptyString
              else split_colon_space (String b rest') (cur +:+ String a EmptyString)).
      change (has_colon_space (String a (String b rest')))
        with ((Ascii.eqb a ":" && Ascii.eqb b " ") || has_colon_space (String b rest')).
      destruct (Ascii.eqb a ":" && Ascii.eqb b " ").
      * destruct (split_colon_space_cons rest' EmptyString) as (field & fields & ->).
        cbn. split; [done|by eexists].
      * rewrite orb_false_l. apply IH.
Qed.

Lemma report_error_classified err self :
  (code err = UNKNOWN_TOPIC_OR_PART → has_colon_space (str err) = true) →
  report_error err self = (Return tt, emit (classified err) self).
Proof.
  intros Htext. unfold report_error, classified, topic_named.
  destruct (code err =? _PARTITION_EOF); [done|].
  destruct (code err =? UNKNOWN_TOPIC_OR_PART) eqn:Hcode; [|done].
  apply Z.eqb_eq in Hcode. specialize (Htext Hcode).
  apply (split_second_field (str err) EmptyString) in Htext as [name ->].
  cbn [andb]. by case_bool_decide.
Qed.

Lemma poll_loop_over_broker_errors replies : ∀ self parent local,
  Forall no_record_or_broker_error replies →
  poll_loop routine replies self parent local =
    (Exhausted,
     {| is_running := is_running self; current_topics := current_topics self;
        retry_delay := retry_delay self;
        journal := journal self ++ flat_map calls_for replies |},
     parent, local, []).
Proof.
  induction replies as [|reply replies IH]; intros self parent local Hall.
  - cbn. rewrite app_nil_r. by destruct self.
  - apply Forall_cons in Hall as [Hreply Hall].
    destruct reply as [e| |[[err|] t v]]; try done.
    + cbn [poll_loop]. rewrite (IH _ _ _ Hall). cbn. by rewrite <- app_assoc.
    + cbn [poll_loop error]. cbn in Hreply.
      rewrite (report_error_classified err _ Hreply), (IH _ _ _ Hall).
      cbn. by rewrite <- !app_assoc.
Qed.

(** C8: as long as the polls return no record or a record with a broker
    error, the loop never ends: it polls once for each reply and, for each
    broker error, logs one record right after its poll, informational for
    the end of a partition and for an unknown topic whose name is one of
    the subscription patterns, an error otherwise; nothing else is called,
    the routine is not called, nothing is raised and the client is not
    closed.  The text of an "unknown topic" error is taken to have a
    colon-space, as the texts of the client library for that code do; the
    topic it names is the second field of that text. *)
Theorem broker_errors_are_logged_and_polling_goes_on
    (replies : list poll_reply) (self : KafkaMessageConsumer) (parent : Parent) :
  Forall no_record_or_broker_error replies →
  read_messages routine replies self parent =
    (Polling,
     {| is_running := is_running self; current_topics := current_topics self;
        retry_delay := retry_delay self;
        journal := journal self ++ flat_map calls_for replies |},
     parent, None, []).
Proof.
  intros Hall. unfold read_messages. by rewrite (poll_loop_over_broker_errors _ _ _ _ Hall).
Qed.

(** X3: the [if msg.error():] block raises exactly when the code is
    UNKNOWN_TOPIC_OR_PART and the text of the error has no colon-space,
    the exception is then IndexError and nothing was logged; in every other
    case it logs exactly one record, at INFO exactly for the end of a
    partition and for an unknown topic whose second field is one of the
    three patterns, and at ERROR, with the error itself, otherwise. *)
Theorem report_error_raises_only_without_second_field err self :
  let r := report_error err self in
  (∀ e, r.1 = Raise e ↔
        e = IndexError ∧ code err = UNKNOWN_TOPIC_OR_PART ∧ has_colon_space (str err) = false)
  ∧ (∀ e, r.1 = Raise e → r.2 = self)
  ∧ (∀ u, r.1 = Return u →
       ∃ lv m, r.2 = emit (Log lv m) self
         ∧ (lv = INFO ↔
              code err = _PARTITION_EOF
              ∨ (code err = UNKNOWN_TOPIC_OR_PART
                 ∧ ∃ name, split_colon_space (str err) EmptyString !! 1%nat = Some name
                           ∧ name ∈ topics_dict_values))
         ∧ (lv ≠ INFO → lv = ERROR ∧ m = ConsumerError err)).
Proof.
  cbv zeta. unfold report_error.
  pose proof (split_second_field (str err) EmptyString) as Hfield.
  destruct (code err =? _PARTITION_EOF) eqn:Heof.
  { apply Z.eqb_eq in Heof. cbn [fst snd]. split_and!; try done.
    - intros e. split; [done|]. intros (_ & Hcode & _). rewrite Hcode in Heof. done.
    - intros _ _. exists INFO, (EndOfPartition err). split_and!; try done. split; auto. }
  apply Z.eqb_neq in Heof.
  destruct (code err =? UNKNOWN_TOPIC_OR_PART) eqn:Hunknown.
  2:{ apply Z.eqb_neq in Hunknown. cbn [fst snd]. split_and!; try done.
      - intros e. split; [done|]. by intros (_ & Hcode & _).
      - intros _ _. exists ERROR, (ConsumerError err). split_and!; try done.
        split; [done|]. by intros [?|[? _]]. }
  apply Z.eqb_eq in Hunknown.
  destruct (split_colon_space (str err) EmptyString !! 1%nat) as [name|] eqn:Hsecond.
  - assert (has_colon_space (str err) = true) as Hhas by (apply Hfield; by eexists).
    case_bool_decide as Hname; cbn [fst snd]; split_and!; try done.
    + intros e. split; [done|]. intros (_ & _ & Hno). congruence.
    + intros _ _. exists INFO, NoVehiclesYet. split_and!; try done.
      split; [|done]. intros _. right. split; [done|]. by exists name.
    + intros e. split; [done|]. intros (_ & _ & Hno). congruence.
    + intros _ _. exists ERROR, (ConsumerError err). split_and!; try done.
      split; [done|]. intros [?|(_ & name' & Hname' & Hin)]; [done|]. congruence.
  - assert (has_colon_space (str err) = false) as Hhas.
    { destruct (has_colon_space (str err)); [|done].
      destruct Hfield as [_ Hfield]. by destruct (Hfield eq_refl). }
    cbn [fst snd]. split_and!; try done.
    intros e. split; [intros [= <-]; done|]. by intros (-> & _ & _).
Qed.

(** ** The periodic refresh *)

Lemma difference_empty_subseteq (X Y : gset string) : X ∖ Y = ∅ ↔ X ⊆ Y.
Proof.
  split; [intros Hempty x Hx|intros Hsub; apply leibniz_equiv; intros x].
  - destruct (decide (x ∈ Y)) as [|Hout]; [done|].
    assert (x ∈ X ∖ Y) as Hin by (apply elem_of_difference; done).
    rewrite Hempty in Hin. by apply elem_of_empty in Hin.
  - rewrite elem_of_difference, elem_of_empty. split; [|done].
    intros [Hx Hout]. apply Hout, Hsub, Hx.
Qed.

Lemma topic_update_events lr sr self :
  ∃ evs,
    journal (topic_update lr sr self).2 = journal self ++ evs
    ∧ count is_sleep evs = 0%nat ∧ count is_poll evs = 0%nat ∧ count is_close evs = 0%nat
    ∧ subscriptions evs =
        match lr with
        | Topics names => if bool_decide (names ⊆ current_topics self) then 0%nat else 1%nat
        | ListTopicsRaises _ => 0%nat
        end
    ∧ current_topics (topic_update lr sr self).2 =
        match lr with
        | Topics names => names
        | ListTopicsRaises _ => current_topics self
        end
    ∧ is_running (topic_update lr sr self).2 = is_running self.
Proof.
  destruct lr as [names|e].
  - rewrite topic_update_journal, topic_update_snapshot.
    eexists. split; [reflexivity|].
    assert (is_running (topic_update (Topics names) sr self).2 = is_running self) as Hrun.
    { unfold topic_update. cbn [emit current_topics set_current_topics].
      destruct (0 <? size _)%nat; [|done]. by destruct sr. }
    pose proof (difference_empty_subseteq names (current_topics self)) as Hiff.
    case_bool_decide as Hnew; case_bool_decide as Hsub.
    + done.
    + by destruct Hsub; apply Hiff.
    + by destruct Hnew; apply Hiff.
    + by destruct sr.
  - exists [ListTopics]. by cbn.
Qed.

(** X4: an exception of a refresh does not end the periodic loop.  It goes
    through every turn up to the first one that finds [self.is_running]
    cleared, and returns exactly when there is such a turn; on the way it
    sleeps once per turn, keeps as snapshot the last listing the broker
    gave, resubscribes once per listing that shows a topic the listing
    before did not, logs at most one error per turn, and never polls or
    closes the client. *)
Theorem periodic_topic_update_survives_exceptions interval turns : ∀ self,
  let r := _periodic_topic_update interval turns self in
  (r.1.1 = Stopped ↔ active turns ≠ turns)
  ∧ current_topics r.1.2 = last_listing (current_topics self) (active turns)
  ∧ retry_delay r.1.2 = retry_delay self
  ∧ (length r.2 ≤ length (active turns))%nat
  ∧ ∃ evs, journal r.1.2 = journal self ++ evs
      ∧ count is_sleep evs = length (active turns)
      ∧ subscriptions evs = listings_with_news (current_topics self) (active turns)
      ∧ count is_poll evs = 0%nat ∧ count is_close evs = 0%nat.
Proof.
  induction turns as [|t turns IH]; intros self; cbv zeta.
  - cbn. split_and!; try done. exists []. by rewrite app_nil_r.
  - cbn [_periodic_topic_update active]. destruct (running t) eqn:Hrunning.
    2:{ cbn. split_and!; try done. exists []. by rewrite app_nil_r. }
    set (self1 := emit (Sleep (Z.of_N interval)) (set_is_running true self)).
    destruct (topic_update_events (listing t) (resubscription t) self1)
      as (evs1 & Hj1 & Hsleep1 & Hpoll1 & Hclose1 & Hsubs1 & Hsnap1 & _).
    pose proof (topic_update_retry_delay (listing t) (resubscription t) self1) as Hdelay1.
    set (r1 := topic_update (listing t) (resubscription t) self1) in *.
    destruct (IH r1.2) as (Hstop & Hsnap & Hdelay & Herrors & evs & Hj & Hsleep & Hsubs & Hpoll & Hclose).
    match goal with |- context [(?X).1.1 = Stopped] => set (out := X) end.
    assert (out.1 = (_periodic_topic_update interval turns r1.2).1
            ∧ (length out.2 ≤ S (length (_periodic_topic_update interval turns r1.2).2))%nat)
      as [Hsame Hlen].
    { subst out. clearbody r1. destruct r1 as [[v|e] self2]; cbn [fst snd length];
        (split; [by destruct (_periodic_topic_update interval turns self2) as [[? ?] ?]|lia]). }
    rewrite Hsame. split_and!.
    + rewrite Hstop. split; [congruence|]. intros Hne Heq. apply Hne. by rewrite Heq.
    + rewrite Hsnap, Hsnap1. cbn [last_listing]. by destruct (listing t).
    + by rewrite Hdelay, Hdelay1.
    + cbn [length]. lia.
    + exists (Sleep (Z.of_N interval) :: evs1 ++ evs). split_and!.
      * rewrite Hj, Hj1. cbn. by rewrite <- !app_assoc.
      * change (Sleep (Z.of_N interval) :: evs1 ++ evs)
          with ([Sleep (Z.of_N interval)] ++ evs1 ++ evs).
        rewrite !count_app, Hsleep1, Hsleep. done.
      * change (Sleep (Z.of_N interval) :: evs1 ++ evs)
          with ([Sleep (Z.of_N interval)] ++ evs1 ++ evs).
        change subscriptions with (count is_subscribe) in *.
        rewrite !count_app, Hsubs1, Hsubs, Hsnap1. cbn [listings_with_news].
        by destruct (listing t).
      * change (Sleep (Z.of_N interval) :: evs1 ++ evs)
          with ([Sleep (Z.of_N interval)] ++ evs1 ++ evs).
        by rewrite !count_app, Hpoll1, Hpoll.
      * change (Sleep (Z.of_N interval) :: evs1 ++ evs)
          with ([Sleep (Z.of_N interval)] ++ evs1 ++ evs).
        by rewrite !count_app, Hclose1, Hclose.
Qed.

(** ** The constructor *)

Lemma refresh_in_constructor lr sr1 self1 :
  let r := match topic_update lr sr1 self1 with
           | (Raise e, self) => (Raise e, self)
           | (Return _, self) => (Return tt, self)
           end in
  is_running r.2 = is_running self1
  ∧ (∃ evs, journal r.2 = journal self1 ++ evs)
  ∧ match lr with
    | ListTopicsRaises e =>
        r.1 = Raise e ∧ subscriptions (journal r.2) = subscriptions (journal self1)
        ∧ current_topics r.2 = current_topics self1
    | Topics names =>
        current_topics r.2 = names
        ∧ subscriptions (journal r.2) =
            (subscriptions (journal self1)
             + if bool_decide (names ⊆ current_topics self1) then 0 else 1)%nat
        ∧ r.1 = match sr1 with
                | SubscribeRaises e =>
                    if bool_decide (names ⊆ current_topics self1) then Return tt else Raise e
                | _ => Return tt
                end
    end.
Proof.
  cbv zeta.
  destruct (topic_update_events lr sr1 self1) as (evs & Hj & _ & _ & _ & Hsubs & Hsnap & Hrun).
  assert (∀ r : py_result (option (gset string)) * KafkaMessageConsumer,
            (match r with
             | (Raise e, self) => (Raise e, self)
             | (Return _, self) => (Return tt, self)
             end).2 = r.2) as Hsecond by (by intros [[?|?] ?]).
  rewrite !Hsecond, Hrun, Hj, Hsnap.
  change subscriptions with (count is_subscribe) in *. rewrite count_app, Hsubs.
  split_and!; [done|by eexists|].
  destruct lr as [names|e]; [|by split_and!].
  pose proof (topic_update_value names sr1 self1) as Hvalue.
  split_and!; [done..|].
  destruct (topic_update (Topics names) sr1 self1) as [[v|e] self2]; cbn [fst snd] in *.
  - destruct sr1; try done.
    case_bool_decide as Hnew; [|done].
    apply difference_empty_subseteq in Hnew. by rewrite bool_decide_eq_true_2.
  - destruct sr1; try done.
    case_bool_decide as Hnew; [done|]. injection Hvalue as ->.
    rewrite bool_decide_eq_false_2; [done|]. intros Hsub. by apply Hnew, difference_empty_subseteq.
Qed.

(** X5: the constructor subscribes before it lists the topics, and a
    KafkaError of that first subscription does not stop it.  It lists the
    topics once unless the first subscription raised, takes the listing as
    snapshot, and subscribes a second time exactly when the listing is not
    empty; it raises what the first subscription, the listing or that
    second subscription raises. *)
Theorem init_subscribes_before_listing sr0 lr sr1 :
  let r := __init__ sr0 lr sr1 in
  is_running r.2 = true
  ∧ (∃ evs, journal r.2 = Subscribe topics_dict_values :: evs)
  ∧ match sr0 with
    | SubscribeRaises e =>
        r.1 = Raise e ∧ journal r.2 = [Subscribe topics_dict_values] ∧ current_topics r.2 = ∅
    | _ =>
        match lr with
        | ListTopicsRaises e =>
            r.1 = Raise e ∧ subscriptions (journal r.2) = 1%nat ∧ current_topics r.2 = ∅
        | Topics names =>
            current_topics r.2 = names
            ∧ subscriptions (journal r.2) = (if bool_decide (names = ∅) then 1 else 2)%nat
            ∧ r.1 = match sr1 with
                    | SubscribeRaises e => if bool_decide (names = ∅) then Return tt else Raise e
                    | _ => Return tt
                    end
        end
    end.
Proof.
  cbv zeta. unfold __init__.
  assert (∀ names : gset string, bool_decide (names ⊆ ∅) = bool_decide (names = ∅)) as Hempty.
  { intros names. apply bool_decide_ext. split; [|by intros ->].
    intros Hsub. apply leibniz_equiv. intros x. split; [apply Hsub|].
    intros Hx. by apply elem_of_empty in Hx. }
  destruct sr0 as [|e0|e0]; cbn [subscribe].
  - match goal with |- context [topic_update _ _ ?s] => set (self1 := s) end.
    destruct (refresh_in_constructor lr sr1 self1) as (Hrun & [evs Hj] & Hrest).
    split_and!; [done|rewrite Hj; by eexists|].
    destruct lr as [names|e]; [|done].
    destruct Hrest as (Hsnap & Hsubs & Hvalue). cbn [current_topics self1 emit] in *.
    rewrite Hempty in *. split_and!; [done| |done]. rewrite Hsubs. by case_bool_decide.
  - match goal with |- context [topic_update _ _ ?s] => set (self1 := s) end.
    destruct (refresh_in_constructor lr sr1 self1) as (Hrun & [evs Hj] & Hrest).
    split_and!; [done|rewrite Hj; by eexists|].
    destruct lr as [names|e]; [|done].
    destruct Hrest as (Hsnap & Hsubs & Hvalue). cbn [current_topics self1 emit] in *.
    rewrite Hempty in *. split_and!; [done| |done]. rewrite Hsubs. by case_bool_decide.
  - cbn. split_and!; try done. by eexists.
Qed.

End KafkaConsumerFacts.

(** * Properties of the health probe *)

Section HealthProbe.
Import Http.

Variable net : network.

Lemma http_request_clock rq w : clock w ≤ clock (http_request net rq w).2.
Proof. unfold http_request. cbn. lia. Qed.

Lemma health_poll_earlier api_url start start' deadline x :
  start' ≤ start → health_poll api_url start deadline x → health_poll api_url start' deadline x.
Proof. unfold health_poll. intros ? [? ?]. split; [done|lia]. Qed.

Lemma waited_earlier markers api_url start start' deadline polls accepted finish :
  start' ≤ start →
  waited markers api_url start deadline polls accepted finish →
  waited markers api_url start' deadline polls accepted finish.
Proof.
  intros Hle (Hpolls & Hfin & Hres). split_and!; [|lia|done].
  eapply Forall_impl; [exact Hpolls|]. intros x. by apply health_poll_earlier.
Qed.

Lemma health_loop_waited style api_url deadline w :
  ∃ polls,
    exchanges (health_loop net style api_url deadline w).2 = exchanges w ++ polls
    ∧ waited (markers style) api_url (clock w) deadline polls
        (health_loop net style api_url deadline w).1
        (clock (health_loop net style api_url deadline w).2).
Proof.
  funelim (health_loop net style api_url deadline w).
  - set (rq := health_request api_url) in *.
    set (r := http_request net rq w) in *.
    pose proof (http_request_clock rq w) as Hclock. fold r in Hclock.
    set (x := mkExchange (clock w) rq r.1).
    assert (exchanges r.2 = exchanges w ++ [x]) as Hx by done.
    assert (health_poll api_url (clock w) deadline x) as Hpoll by (split; [done|cbn; lia]).
    destruct (passed (judge (markers style) r.1)) eqn:Hpassed.
    + exists [x]. cbn. split; [done|]. split_and!; [by constructor|lia|].
      exists [], x. by split_and!.
    + match goal with IH : ∃ _, _ |- _ => destruct IH as (polls & Hex & Hw) end.
      exists (x :: polls). split.
      * rewrite Hex. cbn [exchanges sleep say_all]. by rewrite Hx, <- app_assoc.
      * apply (waited_earlier _ _ _ (clock w)) in Hw; [|cbn [clock sleep say_all]; lia].
        destruct Hw as (Hpolls & Hfin & Hres). split_and!; [by constructor|done|].
        destruct (health_loop net style api_url deadline _).1.
        -- destruct Hres as (init & last & -> & Hinit & Hlast).
           exists (x :: init), last. split_and!; [done| |done]. by constructor.
        -- destruct Hres as [Hall Hdead]. split; [|done]. by constructor.
  - exists []. cbn. rewrite app_nil_r. split; [done|].
    unfold waited. split_and!; first [apply Forall_nil_2 | lia].
Qed.

Lemma first_healthy_probed markers span wait :
  waits markers span wait →
  ∀ candidates w, ∃ polls,
    exchanges (first_healthy wait candidates w).2 = exchanges w ++ polls
    ∧ probed markers span candidates (clock w) polls
        (first_healthy wait candidates w).1 (clock (first_healthy wait candidates w).2).
Proof.
  intros Hwait candidates.
  induction candidates as [|candidate rest IH]; intros w.
  - exists []. cbn. rewrite app_nil_r. split; [done|constructor].
  - cbn [first_healthy].
    destruct (Hwait candidate w) as (polls & Hex & Hsome & Hw).
    destruct (wait candidate w) as [accepted w1]; cbn [fst snd] in *.
    destruct accepted.
    + exists polls. split; [done|]. by constructor.
    + destruct (IH w1) as (later & Hex' & Hp).
      exists (polls ++ later). split.
      * by rewrite Hex', Hex, app_assoc.
      * by econstructor.
Qed.

(** A candidate is returned exactly when a healthy reply was received. *)
Lemma probed_accepts_iff_healthy markers span candidates start polls result finish :
  probed markers span candidates start polls result finish →
  (is_Some result ↔ Exists (λ x, healthy markers (answered x) = true) polls)
  ∧ (∀ candidate, result = Some candidate → candidate ∈ candidates).
Proof.
  induction 1 as [start|candidate rest start polls finish Hw
                 |candidate rest start polls next later result finish Hsome Hw Hp IH].
  - split; [|done]. split; [by intros [? ?]|by intros ?%Exists_nil].
  - destruct Hw as (_ & _ & init & last & -> & _ & Hlast). split.
    + split; [|by eauto]. intros _. apply Exists_app. right. by constructor.
    + intros ? [= <-]. by left.
  - destruct Hw as (_ & _ & Hall & _). destruct IH as [IH1 IH2]. split.
    + rewrite IH1, Exists_app. split; [by right|]. intros [Hex|Hex]; [|done].
      exfalso. apply Exists_exists in Hex as (x & Hin & Hx).
      rewrite Forall_forall in Hall. specialize (Hall x Hin). unfold unhealthy in Hall.
      congruence.
    + intros c Hc. right. by apply IH2.
Qed.

(** ** How many rounds a wait can take, and what it logs *)

(** Every round but the accepting one is followed by a sleep of two
    seconds, so the rounds of one wait fit its window. *)
Lemma health_loop_rounds style api_url deadline w :
  ∃ polls,
    exchanges (health_loop net style api_url deadline w).2 = exchanges w ++ polls
    ∧ 2000 * Z.of_nat (length polls) < Z.max 0 (deadline - clock w) + 2000
    ∧ (clock w < deadline → polls ≠ [])
    ∧ Forall (λ x, clock w ≤ sent_at x) polls.
Proof.
  funelim (health_loop net style api_url deadline w).
  - set (rq := health_request api_url) in *.
    set (r := http_request net rq w) in *.
    pose proof (http_request_clock rq w) as Hclock. fold r in Hclock.
    set (x := mkExchange (clock w) rq r.1).
    assert (exchanges r.2 = exchanges w ++ [x]) as Hx by done.
    destruct (passed (judge (markers style) r.1)) eqn:Hpassed.
    + exists [x]. cbn. split_and!; [done|lia|done|]. by repeat constructor.
    + match goal with IH : ∃ _, _ |- _ => destruct IH as (polls & Hex & Hlen & _ & Hsent) end.
      cbn [clock sleep say_all] in Hlen, Hsent.
      exists (x :: polls). split_and!.
      * rewrite Hex. cbn [exchanges sleep say_all]. by rewrite Hx, <- app_assoc.
      * cbn [length]. lia.
      * done.
      * constructor; [done|]. eapply Forall_impl; [exact Hsent|]. cbn. intros; lia.
  - exists []. cbn. rewrite app_nil_r. split_and!; [done|lia|lia|constructor].
Qed.

Lemma health_loop_silent style api_url deadline w :
  (∀ u v, on_round style u v = []) → (∀ u, on_timeout style u = []) →
  logged (health_loop net style api_url deadline w).2 = logged w.
Proof.
  intros Hround Htimeout.
  funelim (health_loop net style api_url deadline w).
  - rewrite Hround in *.
    destruct (passed (judge (markers style) _)).
    + cbn. by rewrite app_nil_r.
    + match goal with IH : _ → _ → logged _ = _ |- _ => rewrite (IH Hround Htimeout) end.
      cbn. by rewrite app_nil_r.
  - rewrite Htimeout. cbn. by rewrite app_nil_r.
Qed.

(** The probe over the candidates makes at most [bound] requests for each
    candidate when each wait makes at most [bound]. *)
Lemma first_healthy_bounded (wait : string → World → bool * World) (bound : nat) :
  (∀ api_url w, ∃ polls,
     exchanges (wait api_url w).2 = exchanges w ++ polls
     ∧ (1 ≤ length polls ≤ bound)%nat
     ∧ clock w ≤ clock (wait api_url w).2) →
  ∀ candidates w, ∃ polls,
    exchanges (first_healthy wait candidates w).2 = exchanges w ++ polls
    ∧ (length polls ≤ bound * length candidates)%nat
    ∧ (candidates ≠ [] → polls ≠ []).
Proof.
  intros Hwait candidates.
  induction candidates as [|candidate rest IH]; intros w.
  - exists []. cbn. rewrite app_nil_r. split_and!; [done|lia|done].
  - cbn [first_healthy].
    destruct (Hwait candidate w) as (polls & Hex & Hlen & _).
    destruct (wait candidate w) as [accepted w1]; cbn [fst snd] in *.
    assert (polls ≠ []) as Hsome by (intros ->; cbn in Hlen; lia).
    destruct accepted.
    + exists polls. split_and!; [done|cbn [length]; lia|done].
    + destruct (IH w1) as (later & Hex' & Hlen' & _).
      exists (polls ++ later). split_and!.
      * by rewrite Hex', Hex, app_assoc.
      * rewrite length_app. cbn [length]. lia.
      * intros _ Hnil. apply app_eq_nil in Hnil as [? _]. done.
Qed.

End HealthProbe.

(** * Properties of the two managers *)

Section Managers.
Import Http.

Variable net : network.
Variable str_exn : exn → string.
Variable _build_config_data :
  gmap string json → string → py_result json * list (level * string).
Variable dumps_type_error : json → option string.
Variable cfg_payload : gmap string json → string → py_result json.

Lemma checked_exchange rq w :
  ∃ x, asked x = rq
    ∧ exchanges (checked net rq w).2 = exchanges w ++ [x]
    ∧ (checked net rq w).1 =
        if rejected (answered x) then Raise (rejection rq (answered x))
        else match answered x with
             | Response status_code body => Return (status_code, body)
             | Unreachable detail => Raise (RequestException detail)
             end.
Proof.
  unfold checked, http_request.
  destruct (net (exchanges w) (clock w) rq) as [rp elapsed]. cbn.
  exists {| sent_at := clock w; asked := rq; answered := rp |}.
  destruct rp as [status_code body|detail]; cbn; [|done].
  by destruct (is_error status_code).
Qed.

Lemma post_refused target data w :
  has_non_finite data = true → post net target data w = (Raise InvalidJSONError, w).
Proof. intros Hnan. unfold post. by rewrite Hnan. Qed.

Lemma post_exchange target data w :
  has_non_finite data = false →
  ∃ x, asked x = post_request target data
    ∧ exchanges (post net target data w).2 = exchanges w ++ [x]
    ∧ ((post net target data w).1 = Raise (rejection (post_request target data) (answered x))
       ∧ rejected (answered x) = true
       ∨ (∃ r, (post net target data w).1 = Return r) ∧ rejected (answered x) = false).
Proof.
  intros Hfinite.
  destruct (checked_exchange (post_request target data) w) as (x & Hx & Hex & Hr).
  unfold post. rewrite Hfinite. fold (post_request target data).
  exists x. split_and!; [done..|].
  rewrite Hr. destruct (answered x) as [status_code body|detail]; cbn; [|by left].
  destruct (is_error status_code); [by left|right; eauto].
Qed.

Lemma get_exchange target w :
  ∃ x, asked x = get_request target
    ∧ exchanges (get net target w).2 = exchanges w ++ [x]
    ∧ ((get net target w).1 = Raise (rejection (get_request target) (answered x))
       ∧ rejected (answered x) = true
       ∨ (∃ r, (get net target w).1 = Return r) ∧ rejected (answered x) = false).
Proof.
  destruct (checked_exchange (get_request target) w) as (x & Hx & Hex & Hr).
  exists x. split_and!; [done..|]. unfold get. fold (get_request target).
  rewrite Hr. destruct (answered x) as [status_code body|detail]; cbn; [|by left].
  destruct (is_error status_code); [by left|right; eauto].
Qed.

(** ** The waits of the two managers *)

Lemma producer_waits :
  waits (markers ProducerManager.producer_style) 20000
    (λ candidate, ProducerManager._wait_for_health net candidate 20).
Proof.
  intros api_url w. unfold ProducerManager._wait_for_health.
  destruct (health_loop_waited net ProducerManager.producer_style api_url
              (clock w + 1000 * 20) w) as (polls & Hex & Hw).
  destruct (health_loop_rounds net ProducerManager.producer_style api_url
              (clock w + 1000 * 20) w) as (polls' & Hex' & _ & Hsome & _).
  rewrite Hex in Hex'. apply app_inv_head in Hex'. subst polls'.
  exists polls. split_and!; [done|apply Hsome; lia|done].
Qed.

Lemma consumer_waits :
  waits (markers ConsumerManager.consumer_style) 62000
    (λ candidate, ConsumerManager.wait_for_health net candidate 60).
Proof.
  intros api_url w. unfold ConsumerManager.wait_for_health.
  destruct (health_loop_waited net ConsumerManager.consumer_style api_url
              (clock (sleep 2 w) + 1000 * 60) (sleep 2 w)) as (polls & Hex & Hw).
  destruct (health_loop_rounds net ConsumerManager.consumer_style api_url
              (clock (sleep 2 w) + 1000 * 60) (sleep 2 w)) as (polls' & Hex' & _ & Hsome & _).
  rewrite Hex in Hex'. apply app_inv_head in Hex'. subst polls'.
  exists polls. split; [done|]. split; [apply Hsome; lia|].
  replace (clock w + 62000) with (clock (sleep 2 w) + 1000 * 60) by (cbn; lia).
  eapply waited_earlier; [|exact Hw]. cbn. lia.
Qed.

Lemma consumer_pick_is_first_healthy hostname_url ip_url w :
  ConsumerManager.pick_api_url net hostname_url ip_url w =
  first_healthy (λ candidate, ConsumerManager.wait_for_health net candidate 60)
    [hostname_url; ip_url] w.
Proof.
  unfold ConsumerManager.pick_api_url. cbn [first_healthy].
  destruct (ConsumerManager.wait_for_health net hostname_url 60 w).1; [done|].
  by destruct (ConsumerManager.wait_for_health net ip_url 60 _).1.
Qed.

Lemma health_polls_are_gets markers api_url start deadline polls accepted finish :
  waited markers api_url start deadline polls accepted finish → Forall is_get polls.
Proof.
  intros (Hpolls & _). eapply Forall_impl; [exact Hpolls|].
  intros x [Hx _]. unfold is_get. by rewrite Hx.
Qed.

Lemma probed_polls_are_gets markers span candidates start polls result finish :
  probed markers span candidates start polls result finish → Forall is_get polls.
Proof.
  induction 1; [constructor|by eapply health_polls_are_gets|].
  apply Forall_app. split; [by eapply health_polls_are_gets|done].
Qed.

(** ** Configure, then start *)

(** [start_consumer] adds health polls and then either nothing (it gave up
    before configuring) or the exchanges of a [startup]. *)
Lemma start_consumer_exchanges self consumer_name consumer_container w outcome w' :
  ConsumerManager.start_consumer net str_exn cfg_payload self consumer_name
    consumer_container w = (outcome, w') →
  ∃ polls, Forall is_get polls
    ∧ (exchanges w' = exchanges w ++ polls
         ∧ (∃ detail, outcome = "Failed to start consumer " +:+ consumer_name +:+ ": " +:+ detail)
       ∨ ∃ api_url tail,
           exchanges w' = exchanges w ++ polls ++ tail
           ∧ startup api_url (consumer_failed str_exn consumer_name)
               ("Consumer " +:+ consumer_name +:+ " started successfully") false tail outcome).
Proof.
  unfold ConsumerManager.start_consumer, ConsumerManager.start_consumer_body. intros H.
  destruct (ConsumerManager.consumer_configs self !! _) as [consumer_config|];
    [|cbn in H; simplify_eq; exists []; split; [constructor|left; cbn; rewrite app_nil_r; eauto]].
  destruct (attrs_ip_address consumer_container) as [container_ip|];
    [|cbn in H; simplify_eq; exists []; split; [constructor|left; cbn; rewrite app_nil_r; eauto]].
  cbn zeta in H.
  set (hostname_url := "http://" +:+ consumer_name +:+ ":5000") in H.
  set (ip_url := "http://" +:+ container_ip +:+ ":5000") in H.
  unfold bind, ret, raise, say in H. cbv beta iota zeta in H.
  rewrite consumer_pick_is_first_healthy in H.
  destruct (first_healthy_probed _ _ _ consumer_waits [hostname_url; ip_url] w)
    as (polls & Hex & Hp).
  destruct (first_healthy _ _ w) as [[api_url|] w1]; cbn [fst snd] in *.
  2:{ simplify_eq. exists polls. split; [by eapply probed_polls_are_gets|]. left. eauto. }
  exists polls. split; [by eapply probed_polls_are_gets|].
  destruct (cfg_payload consumer_config _) as [payload|e];
    [|simplify_eq; left; cbn; eauto].
  destruct (has_non_finite payload) eqn:Hfinite.
  { rewrite post_refused in H by done. simplify_eq. left. cbn. eauto. }
  destruct (post_exchange (api_url +:+ "/configure") payload w1 Hfinite)
    as (c & Hc & Hexc & [[Hr Hrej]|[[r Hr] Hacc]]);
    destruct (post net (api_url +:+ "/configure") payload w1) as [res w2];
    cbn [fst snd] in *; subst res.
  { simplify_eq. right. exists api_url, [c]. cbn.
    split; [by rewrite Hexc, Hex, <- app_assoc|].
    rewrite <- Hc. by econstructor. }
  destruct (post_exchange (api_url +:+ "/start") (JDict []) w2 eq_refl)
    as (s & Hs & Hexs & [[Hr Hrej]|[[r' Hr] Hacc']]);
    destruct (post net (api_url +:+ "/start") (JDict []) w2) as [res w3];
    cbn [fst snd] in *; subst res.
  { simplify_eq. right. exists api_url, [c; s]. cbn.
    split; [by rewrite Hexs, Hexc, Hex, <- !app_assoc|].
    rewrite <- Hs. by econstructor. }
  simplify_eq. right. exists api_url, [c; s]. cbn.
  split; [by rewrite Hexs, Hexc, Hex, <- !app_assoc|].
  by eapply started_unverified.
Qed.

(** [start_producer] likewise, with the verifying GET of the status. *)
Lemma start_producer_exchanges self producer_name producer_container vehicle_config w
    outcome w' :
  ProducerManager.start_producer net str_exn _build_config_data dumps_type_error self
    producer_name producer_container vehicle_config w = (outcome, w') →
  ∃ polls, Forall is_get polls
    ∧ (exchanges w' = exchanges w ++ polls
         ∧ (∃ detail,
              outcome = "Failed to start producer " +:+ producer_name +:+ ": " +:+ detail
              ∨ outcome = "JSON serialization failed for " +:+ producer_name +:+ ": " +:+ detail)
       ∨ ∃ api_url tail,
           exchanges w' = exchanges w ++ polls ++ tail
           ∧ startup api_url (producer_failed str_exn producer_name)
               ("Producer " +:+ producer_name +:+ " started successfully") true tail outcome).
Proof.
  unfold ProducerManager.start_producer, ProducerManager.start_producer_body. intros H.
  destruct (ProducerManager.containers_ips self !! producer_name) as [[|a container_ip]|];
    [cbn in H; simplify_eq; exists []; split; [constructor|left; cbn; rewrite app_nil_r; eauto]
    | |cbn in H; simplify_eq; exists []; split; [constructor|left; cbn; rewrite app_nil_r; eauto]].
  cbn zeta in H.
  set (hostname_url := "http://" +:+ producer_name +:+ ":5000") in H.
  set (ip_url := "http://" +:+ String a container_ip +:+ ":5000") in H.
  unfold bind, ret, raise, say in H. cbv beta iota zeta in H.
  unfold ProducerManager.pick_api_url in H.
  destruct (first_healthy_probed _ _ _ producer_waits [hostname_url; ip_url] w)
    as (polls & Hex & Hp).
  destruct (first_healthy _ _ w) as [[api_url|] w1]; cbn [fst snd] in *.
  2:{ simplify_eq. exists polls. split; [by eapply probed_polls_are_gets|]. left. eauto. }
  exists polls. split; [by eapply probed_polls_are_gets|].
  destruct (_build_config_data vehicle_config _) as [[config_data|e] built];
    cbn [fst snd] in H; [|simplify_eq; left; cbn; eauto].
  assert (exchanges (say_all built w1) = exchanges w ++ polls) as Hexb by exact Hex.
  apply probed_polls_are_gets in Hp.
  clear Hex. rename Hexb into Hex. revert H Hex. generalize (say_all built w1).
  clear w1. intros w1 H Hex.
  destruct (dumps_type_error config_data) as [e|];
    [simplify_eq; left; cbn; eauto|].
  destruct (has_non_finite config_data) eqn:Hfinite.
  { rewrite post_refused in H by done. simplify_eq. left. cbn. eauto. }
  destruct (post_exchange (api_url +:+ "/configure") config_data w1 Hfinite)
    as (c & Hc & Hexc & [[Hr Hrej]|[[r Hr] Hacc]]);
    destruct (post net (api_url +:+ "/configure") config_data w1) as [res w2];
    cbn [fst snd] in *; subst res.
  { simplify_eq. right. exists api_url, [c]. cbn.
    split; [by rewrite Hexc, Hex, <- app_assoc|].
    rewrite <- Hc. by econstructor. }
  destruct (post_exchange (api_url +:+ "/start") (JDict []) w2 eq_refl)
    as (s & Hs & Hexs & [[Hr Hrej]|[[r' Hr] Hacc']]);
    destruct (post net (api_url +:+ "/start") (JDict []) w2) as [res w3];
    cbn [fst snd] in *; subst res.
  { simplify_eq. right. exists api_url, [c; s]. cbn.
    split; [by rewrite Hexs, Hexc, Hex, <- !app_assoc|].
    rewrite <- Hs. by econstructor. }
  destruct (get_exchange (api_url +:+ "/status") w3)
    as (g & Hg & Hexg & [[Hr Hrej]|[[r'' Hr] Hacc'']]);
    destruct (get net (api_url +:+ "/status") w3) as [res w4];
    cbn [fst snd] in *; subst res.
  { simplify_eq. right. exists api_url, [c; s; g]. cbn.
    split; [by rewrite Hexg, Hexs, Hexc, Hex, <- !app_assoc|].
    rewrite <- Hg. by eapply status_rejected. }
  simplify_eq. right. exists api_url, [c; s; g]. cbn.
  split; [by rewrite Hexg, Hexs, Hexc, Hex, <- !app_assoc|].
  by eapply started_verified.
Qed.

Lemma last_char_append s a rest previous :
  last_char (s +:+ String a rest) previous = last_char rest a.
Proof. revert previous. induction s as [|b s IH]; intros previous; cbn; [done|apply IH]. Qed.

Lemma configure_is_not_start api_url api_url' :
  api_url +:+ "/configure" ≠ api_url' +:+ "/start".
Proof.
  intros Heq. apply (f_equal (λ s, last_char s " "%char)) in Heq.
  rewrite !last_char_append in Heq. discriminate.
Qed.

Lemma post_in_tail polls tail before x after :
  Forall is_get polls → verb (asked x) = POST →
  polls ++ tail = before ++ x :: after →
  ∃ before', before = polls ++ before' ∧ tail = before' ++ x :: after.
Proof.
  intros Hgets Hpost. revert before.
  induction Hgets as [|p polls Hp Hgets IH]; intros before Heq; [by exists before|].
  destruct before as [|b before]; cbn in Heq; simplify_eq.
  - unfold is_get in Hp. congruence.
  - destruct (IH before) as (before' & -> & ->); [done|]. by exists before'.
Qed.

Lemma startup_start_follows_configure api_url failed succeeded verify polls tail outcome :
  Forall is_get polls →
  startup api_url failed succeeded verify tail outcome →
  start_follows_configure accepted (polls ++ tail).
Proof.
  intros Hgets Hstartup before x after Heq [api_url' Hx].
  apply post_in_tail in Heq as (before' & -> & Htail); [|done|by rewrite Hx].
  assert (∀ c data, asked c = post_request (api_url +:+ "/configure") data → x ≠ c) as Hnot.
  { intros c data Hc ->. rewrite Hc in Hx. injection Hx as Hurl _.
    by apply configure_is_not_start in Hurl. }
  assert (∀ g, asked g = get_request (api_url +:+ "/status") → x ≠ g) as Hnot'.
  { intros g Hg ->. rewrite Hg in Hx. discriminate. }
  inversion Hstartup; subst;
    destruct before' as [|b1 [|b2 [|b3 before']]]; cbn [app] in *; simplify_eq;
    try (by exfalso; eapply Hnot); try (by exfalso; eapply Hnot');
    try (by destruct before');
    exists polls; eexists; (split; [done|]); (split; [by eexists _, _|done]).
Qed.

Lemma startup_rejection_aborts api_url failed succeeded verify polls tail outcome :
  Forall is_get polls →
  startup api_url failed succeeded verify tail outcome →
  rejection_aborts failed (polls ++ tail) outcome.
Proof.
  intros Hgets Hstartup before x after Heq Hpost Hrej.
  apply post_in_tail in Heq as (before' & -> & Htail); [|done..].
  unfold accepted in *.
  inversion Hstartup; subst;
    destruct before' as [|b1 [|b2 [|b3 before']]]; cbn [app] in *; simplify_eq;
    try (by destruct before'); try congruence; try done.
Qed.

Lemma polls_start_follows_configure good polls :
  Forall is_get polls → start_follows_configure good polls.
Proof.
  intros Hgets before x after Heq [api_url Hx].
  rewrite <- (app_nil_r polls) in Heq.
  apply post_in_tail in Heq as (before' & _ & Htail); [|done|by rewrite Hx].
  by destruct before'.
Qed.

Lemma polls_rejection_aborts failed polls outcome :
  Forall is_get polls → rejection_aborts failed polls outcome.
Proof.
  intros Hgets before x after Heq Hpost _.
  rewrite <- (app_nil_r polls) in Heq.
  apply post_in_tail in Heq as (before' & _ & Htail); [|done..].
  by destruct before'.
Qed.

(** C5 (amended): in every startup, of a producer or of a consumer, the
    POST to the start endpoint is issued only right after a POST to the
    configure endpoint that was accepted, that is answered with a status
    outside 400..599 (what [raise_for_status] lets through: not only 2xx);
    a POST that is rejected (a status in 400..599 or a transport error), to
    configure or to start, is the last request of the startup and the
    outcome is the failure message of that worker. *)
Theorem start_is_posted_only_after_accepted_configure
    (producer_manager : ProducerManager.ProducerManager)
    (consumer_manager : ConsumerManager.ConsumerManager)
    (name : string) (box : container) (vehicle_config : gmap string json) (w : World) :
  let p := ProducerManager.start_producer net str_exn _build_config_data dumps_type_error
             producer_manager name box vehicle_config w in
  let c := ConsumerManager.start_consumer net str_exn cfg_payload consumer_manager name box w in
  (∃ news, exchanges p.2 = exchanges w ++ news
     ∧ start_follows_configure accepted news
     ∧ rejection_aborts (producer_failed str_exn name) news p.1)
  ∧ (∃ news, exchanges c.2 = exchanges w ++ news
     ∧ start_follows_configure accepted news
     ∧ rejection_aborts (consumer_failed str_exn name) news c.1).
Proof.
  intros p c. split.
  - destruct p as [outcome w'] eqn:Hp. subst p.
    apply start_producer_exchanges in Hp
      as (polls & Hgets & [[Hex _]|(api_url & tail & Hex & Hstartup)]); cbn [fst snd].
    + exists polls. split_and!; [done| |].
      * by apply polls_start_follows_configure.
      * by apply polls_rejection_aborts.
    + exists (polls ++ tail). split_and!; [done| |].
      * by eapply startup_start_follows_configure.
      * by eapply startup_rejection_aborts.
  - destruct c as [outcome w'] eqn:Hc. subst c.
    apply start_consumer_exchanges in Hc
      as (polls & Hgets & [[Hex _]|(api_url & tail & Hex & Hstartup)]); cbn [fst snd].
    + exists polls. split_and!; [done| |].
      * by apply polls_start_follows_configure.
      * by apply polls_rejection_aborts.
    + exists (polls ++ tail). split_and!; [done| |].
      * by eapply startup_start_follows_configure.
      * by eapply startup_rejection_aborts.
Qed.

(** ** The probe of the two managers *)

(** A reply is healthy exactly when it is a response that is [ok] and whose
    body parses to a dict with one of the marker keys. *)
(** Whatever the outcome, a probe of at least one candidate has polled. *)
Lemma probed_polls markers span candidate rest start polls result finish :
  probed markers span (candidate :: rest) start polls result finish → polls ≠ [].
Proof.
  inversion 1 as [|? ? ? ? ? Hw|? ? ? ? ? ? ? ? Hsome Hw Hp]; subst.
  - destruct Hw as (_ & _ & init & last & -> & _). by destruct init.
  - intros Hnil. apply app_eq_nil in Hnil as [? _]. done.
Qed.

Lemma healthy_iff markers rp :
  healthy markers rp = true ↔
  ∃ status_code entries marker,
    rp = Response status_code (Some (JDict entries))
    ∧ is_error status_code = false
    ∧ marker ∈ markers ∧ marker ∈ entries.*1.
Proof.
  unfold healthy, judge. split.
  - destruct rp as [status_code [data|]|detail]; [|by destruct (is_error _)|done].
    destruct (is_error status_code) eqn:Herr; [done|].
    destruct (has_marker markers data) eqn:Hm; [|done]. intros _.
    destruct data; try done. cbn in Hm.
    apply existsb_exists in Hm as (marker & Hin & Hkey).
    apply bool_decide_eq_true in Hkey.
    exists status_code, entries, marker. split_and!; [done..| |done].
    by apply list_elem_of_In.
  - intros (status_code & entries & marker & -> & -> & Hin & Hkey). cbn.
    assert (existsb (λ m, bool_decide (m ∈ entries.*1)) markers = true) as ->; [|done].
    apply existsb_exists. exists marker. split; [by apply list_elem_of_In|].
    by apply bool_decide_eq_true.
Qed.

(** C4 (amended): the probe waits on the candidates in list order.  A wait
    polls the candidate's health endpoint at least once, each poll sent
    before the candidate's deadline: the deadline is tested when a poll is
    about to be sent, not when its reply arrives.  The wait accepts on the
    first healthy reply, whenever it arrives, and the candidate is
    returned at once; a healthy reply is a response with a status outside
    400-599 whose body is a dict with a marker key.  Every other reply, a
    transport error included, only leads to the next poll; the next
    candidate is waited on only once the deadline of the one before has
    passed without a healthy reply.  So a candidate is returned exactly
    when a healthy reply was received, and with none the manager returns
    the failure outcome of the worker. *)
Theorem health_probe_accepts_first_healthy_candidate
    (candidates : list string) (hostname_url ip_url : string) (w : World)
    (producer_manager : ProducerManager.ProducerManager)
    (consumer_manager : ConsumerManager.ConsumerManager)
    (name : string) (box : container) (vehicle_config : gmap string json) :
  let p := ProducerManager.pick_api_url net candidates w in
  let c := ConsumerManager.pick_api_url net hostname_url ip_url w in
  (∃ polls, exchanges p.2 = exchanges w ++ polls
     ∧ probed ["running"; "config_loaded"; "vehicle"] 20000 candidates (clock w) polls
         p.1 (clock p.2)
     ∧ (is_Some p.1 ↔
        Exists (λ x, healthy ["running"; "config_loaded"; "vehicle"] (answered x) = true) polls)
     ∧ (candidates ≠ [] → polls ≠ []))
  ∧ (∃ polls, exchanges c.2 = exchanges w ++ polls
     ∧ probed ["running"; "configured"] 62000 [hostname_url; ip_url] (clock w) polls
         c.1 (clock c.2)
     ∧ (is_Some c.1 ↔
        Exists (λ x, healthy ["running"; "configured"] (answered x) = true) polls)
     ∧ polls ≠ [])
  ∧ (∀ markers rp,
       healthy markers rp = true ↔
       ∃ status_code entries marker,
         rp = Response status_code (Some (JDict entries))
         ∧ is_error status_code = false
         ∧ marker ∈ markers ∧ marker ∈ entries.*1)
  ∧ (∀ a container_ip,
       ProducerManager.containers_ips producer_manager !! name = Some (String a container_ip) →
       (ProducerManager.pick_api_url net
          ["http://" +:+ name +:+ ":5000"; "http://" +:+ String a container_ip +:+ ":5000"]
          w).1 = None →
       (ProducerManager.start_producer net str_exn _build_config_data dumps_type_error
          producer_manager name box vehicle_config w).1 =
       "Failed to start producer " +:+ name +:+ ": API not healthy at "
         +:+ ("http://" +:+ name +:+ ":5000") +:+ " or "
         +:+ ("http://" +:+ String a container_ip +:+ ":5000"))
  ∧ (∀ consumer_config container_ip,
       ConsumerManager.consumer_configs consumer_manager !! before_char "_" name
         = Some consumer_config →
       attrs_ip_address box = Some container_ip →
       (ConsumerManager.pick_api_url net ("http://" +:+ name +:+ ":5000")
          ("http://" +:+ container_ip +:+ ":5000") w).1 = None →
       (ConsumerManager.start_consumer net str_exn cfg_payload consumer_manager name box w).1 =
       "Failed to start consumer " +:+ name +:+ ": API not healthy").
Proof.
  intros p c. split_and!.
  - destruct (first_healthy_probed _ _ _ producer_waits candidates w) as (polls & Hex & Hp).
    exists polls. split_and!; [done..| |].
    + by eapply probed_accepts_iff_healthy.
    + intros Hsome. destruct candidates as [|candidate rest]; [done|].
      by eapply probed_polls.
  - subst c. rewrite consumer_pick_is_first_healthy.
    destruct (first_healthy_probed _ _ _ consumer_waits [hostname_url; ip_url] w)
      as (polls & Hex & Hp).
    exists polls. split_and!; [done..| |].
    + by eapply probed_accepts_iff_healthy.
    + by eapply probed_polls.
  - apply healthy_iff.
  - intros a container_ip Hip Hnone.
    unfold ProducerManager.start_producer, ProducerManager.start_producer_body.
    rewrite Hip. cbv beta iota zeta. unfold bind at 1. cbv beta iota zeta.
    rewrite Hnone. by cbv beta iota zeta delta [bind say ret].
  - intros consumer_config container_ip Hconfig Hip Hnone.
    unfold ConsumerManager.start_consumer, ConsumerManager.start_consumer_body.
    rewrite Hconfig, Hip. cbv beta iota zeta. unfold bind at 1. cbv beta iota zeta.
    rewrite Hnone. by cbv beta iota zeta delta [ret].
Qed.

(** ** Stopping *)

Lemma checked_logged rq w : logged (checked net rq w).2 = logged w.
Proof.
  unfold checked, http_request.
  destruct (net (exchanges w) (clock w) rq) as [[status_code body|detail] elapsed]; cbn; [|done].
  by destruct (is_error status_code).
Qed.

Lemma stop_consumer_attempts self consumer_name w :
  consumer_stop_attempts str_exn self consumer_name w
    (ConsumerManager.stop_consumer net str_exn self consumer_name w).
Proof.
  unfold consumer_stop_attempts, ConsumerManager.stop_consumer.
  destruct (dict_get _ consumer_name) as [box|]; [|done].
  destruct (attrs_ip_address box) as [container_ip|]; [|by cbn].
  unfold try_except, bind, ConsumerManager.stop_by_hostname, try_except, bind, ret, raise, say.
  cbv beta iota zeta.
  fold (hostname_stop consumer_name).
  destruct (post_exchange ("http://" +:+ consumer_name +:+ ":5000/stop") (JDict []) w eq_refl)
    as (h & Hh & Hexh & Hres).
  pose proof (checked_logged (hostname_stop consumer_name) w) as Hlog.
  unfold post in *. cbn [has_non_finite existsb] in *. fold (post_request ("http://" +:+ consumer_name +:+ ":5000/stop") (JDict [])) in *.
  fold (hostname_stop consumer_name) in *.
  destruct (checked net (hostname_stop consumer_name) w) as [res w1]; cbn [fst snd] in *.
  destruct Hres as [[-> Hrej]|[[r ->] Hacc]]; cbv beta iota zeta.
  - destruct container_ip as [|a container_ip].
    + cbn. split; [done|]. exists h. rewrite Hrej. split_and!; [done..|].
      eexists. by rewrite Hlog.
    + destruct (post_exchange ("http://" +:+ String a container_ip +:+ ":5000/stop")
                  (JDict []) w1 eq_refl) as (f & Hf & Hexf & Hres).
      pose proof (checked_logged (ip_stop (String a container_ip)) w1) as Hlog'.
      unfold post in *. cbn [has_non_finite existsb] in *.
      fold (post_request ("http://" +:+ String a container_ip +:+ ":5000/stop") (JDict [])) in *.
      fold (ip_stop (String a container_ip)) in *.
      destruct (checked net (ip_stop (String a container_ip)) w1) as [res w2];
        cbn [fst snd] in *.
      destruct Hres as [[-> Hrej']|[[r ->] Hacc']]; cbn; (split; [done|]);
        exists h; rewrite Hrej; (split; [done|]); exists f;
        rewrite ?Hrej', ?Hacc', Hexf, Hexh, Hlog', Hlog, <- ?app_assoc;
        split_and!; try done.
      by rewrite Hf.
  - cbn. split; [done|]. exists h. rewrite Hacc. by rewrite Hlog.
Qed.

Lemma dict_get_key {A : Type} (d : list (string * A)) key :
  key ∈ d.*1 → is_Some (dict_get d key).
Proof.
  unfold dict_get. induction d as [|[k v] d IH]; cbn; [by intros ?%elem_of_nil|].
  intros Hin. destruct (String.eqb k key) eqn:Hk; [by eexists|].
  apply IH. apply elem_of_cons in Hin as [->|]; [|done].
  by rewrite String.eqb_refl in Hk.
Qed.

(** The exchanges of a [stop_consumer] start with the POST by host name
    whenever the container reports an address entry. *)
Lemma stop_consumer_extends self consumer_name box w :
  dict_get (ConsumerManager.consumers self) consumer_name = Some box →
  (ConsumerManager.stop_consumer net str_exn self consumer_name w).1 = Return tt
  ∧ ∃ news,
      exchanges (ConsumerManager.stop_consumer net str_exn self consumer_name w).2
        = exchanges w ++ news
      ∧ (is_Some (attrs_ip_address box) →
         ∃ h rest, news = h :: rest ∧ asked h = hostname_stop consumer_name).
Proof.
  intros Hbox. pose proof (stop_consumer_attempts self consumer_name w) as H.
  unfold consumer_stop_attempts in H. rewrite Hbox in H. destruct H as [Hret H].
  split; [done|].
  destruct (attrs_ip_address box) as [container_ip|].
  - destruct H as (h & Hh & H). destruct (rejected (answered h)).
    + destruct container_ip as [|a container_ip].
      * destruct H as [Hex _]. exists [h]. split; [done|]. by eexists _, _.
      * destruct H as (f & _ & Hex & _). exists [h; f]. split; [done|]. by eexists _, _.
    + destruct H as [Hex _]. exists [h]. split; [done|]. by eexists _, _.
  - destruct H as [Hex _]. exists []. rewrite app_nil_r. split; [done|].
    by intros [? ?].
Qed.

Lemma stop_each_consumers self names : ∀ w,
  (∀ consumer_name, consumer_name ∈ names →
     is_Some (dict_get (ConsumerManager.consumers self) consumer_name)) →
  (ConsumerManager.stop_each net str_exn self names w).1 = Return tt
  ∧ ∃ news,
      exchanges (ConsumerManager.stop_each net str_exn self names w).2 = exchanges w ++ news
      ∧ ∀ consumer_name box,
          consumer_name ∈ names →
          dict_get (ConsumerManager.consumers self) consumer_name = Some box →
          is_Some (attrs_ip_address box) →
          ∃ x, x ∈ news ∧ asked x = hostname_stop consumer_name.
Proof.
  induction names as [|consumer_name names IH]; intros w Hkeys.
  - cbn. split; [done|]. exists []. rewrite app_nil_r. split; [done|].
    by intros ? ? ?%elem_of_nil.
  - cbn [ConsumerManager.stop_each]. unfold bind.
    destruct (Hkeys consumer_name) as [box Hbox]; [by left|].
    destruct (stop_consumer_extends self consumer_name box w Hbox) as (Hret & news & Hex & Hfirst).
    destruct (ConsumerManager.stop_consumer net str_exn self consumer_name w) as [res w1].
    cbn [fst snd] in *. subst res.
    destruct (IH w1) as (Hret' & later & Hex' & Hall).
    { intros n Hn. apply Hkeys. by right. }
    split; [done|]. exists (news ++ later). split; [by rewrite Hex', Hex, app_assoc|].
    intros n b Hn Hb Hip. apply elem_of_cons in Hn as [->|Hn].
    + rewrite Hbox in Hb. injection Hb as <-.
      destruct (Hfirst Hip) as (h & rest & -> & Hh).
      exists h. split; [|done]. apply elem_of_app. left. by left.
    + destruct (Hall n b Hn Hb Hip) as (x & Hx & Hasked).
      exists x. split; [|done]. apply elem_of_app. by right.
Qed.

Lemma string_append_assoc (a b c : string) : (a +:+ b) +:+ c = a +:+ (b +:+ c).
Proof.
  induction a as [|x a IH]; [done|].
  change (String x ((a +:+ b) +:+ c) = String x (a +:+ (b +:+ c))). by rewrite IH.
Qed.

Lemma dict_get_Some_key {A : Type} (d : list (string * A)) key v :
  dict_get d key = Some v → key ∈ d.*1.
Proof.
  unfold dict_get. induction d as [|[k v'] d IH]; cbn; [done|].
  destruct (String.eqb k key) eqn:Hk.
  - apply String.eqb_eq in Hk as ->. intros _. by left.
  - intros H. right. by apply IH.
Qed.

Lemma stop_producer_attempt self producer_name box w :
  producer_stop_attempt str_exn self producer_name w
    (ProducerManager.stop_producer net str_exn self producer_name box w).
Proof.
  unfold producer_stop_attempt, ProducerManager.stop_producer.
  destruct (ProducerManager.containers_ips self !! producer_name)
    as [[|a container_ip]|]; [done| |done].
  cbv zeta.
  assert (("http://" +:+ String a container_ip +:+ ":5000") +:+ "/stop"
          = "http://" +:+ String a container_ip +:+ ":5000/stop") as ->
    by (by rewrite !string_append_assoc).
  destruct (post_exchange ("http://" +:+ String a container_ip +:+ ":5000/stop")
              (JDict []) w eq_refl) as (x & Hx & Hex & Hres).
  fold (ip_stop (String a container_ip)) in *.
  destruct (post net _ (JDict []) w) as [res w1]; cbn [fst snd] in *.
  exists x. destruct Hres as [[-> Hrej]|[[r ->] Hacc]].
  - rewrite Hrej. cbn. by rewrite Hx.
  - rewrite Hacc. by cbn.
Qed.

Lemma stop_each_producers self names : ∀ w,
  (∀ producer_name, producer_name ∈ names →
     is_Some (dict_get (ProducerManager.producers self) producer_name)) →
  ∃ results w',
    ProducerManager.stop_each net str_exn self names w = (Return results, w')
    ∧ length results = length names.
Proof.
  induction names as [|producer_name names IH]; intros w Hkeys; [by eexists [], _|].
  cbn [ProducerManager.stop_each].
  destruct (Hkeys producer_name) as [box ->]; [by left|].
  unfold bind, ret. cbv beta iota zeta.
  destruct (IH (ProducerManager.stop_producer net str_exn self producer_name box w).2)
    as (results & w' & -> & Hlen).
  { intros n Hn. apply Hkeys. by right. }
  eexists (_ :: results), w'. split; [done|]. cbn. by rewrite Hlen.
Qed.

(** C7 (amended): [stop_consumer] first POSTs to the stop endpoint at the
    host name; only when that attempt fails and the container has an
    address it POSTs once more, to that address; it logs "Stopped" when
    one of the two went through and "Error stopping" otherwise, and never
    raises, so [stop_all_consumers] makes the attempt by host name for
    every consumer whose container reports an address entry.
    [stop_producer] makes a single attempt, at the container's address,
    and none when no address is known; it returns the failure instead of
    raising, and [stop_all_producers] returns one result per producer. *)
Theorem stop_attempts_of_both_managers
    (consumer_manager : ConsumerManager.ConsumerManager)
    (producer_manager : ProducerManager.ProducerManager)
    (name : string) (box : container) (w : World) :
  consumer_stop_attempts str_exn consumer_manager name w
    (ConsumerManager.stop_consumer net str_exn consumer_manager name w)
  ∧ ((ConsumerManager.stop_all_consumers net str_exn consumer_manager w).1 = Return tt
     ∧ ∃ news,
         exchanges (ConsumerManager.stop_all_consumers net str_exn consumer_manager w).2
           = exchanges w ++ news
         ∧ ∀ consumer_name consumer_box,
             dict_get (ConsumerManager.consumers consumer_manager) consumer_name
               = Some consumer_box →
             is_Some (attrs_ip_address consumer_box) →
             ∃ x, x ∈ news ∧ asked x = hostname_stop consumer_name)
  ∧ producer_stop_attempt str_exn producer_manager name w
      (ProducerManager.stop_producer net str_exn producer_manager name box w)
  ∧ ∃ results w',
      ProducerManager.stop_all_producers net str_exn producer_manager w
        = (Return ("All producers stopped!", results), w')
      ∧ length results = length (ProducerManager.producers producer_manager).
Proof.
  split_and!.
  - apply stop_consumer_attempts.
  - unfold ConsumerManager.stop_all_consumers.
    apply stop_each_consumers. intros n Hn. by apply dict_get_key.
  - unfold ConsumerManager.stop_all_consumers.
    destruct (stop_each_consumers consumer_manager
                (ConsumerManager.consumers consumer_manager).*1 w)
      as (_ & news & Hex & Hall); [intros n Hn; by apply dict_get_key|].
    exists news. split; [done|]. intros n b Hb Hip.
    apply (Hall n b); [|done..]. by eapply dict_get_Some_key.
  - apply stop_producer_attempt.
  - unfold ProducerManager.stop_all_producers, bind, ret.
    destruct (stop_each_producers producer_manager
                (ProducerManager.producers producer_manager).*1 w)
      as (results & w' & -> & Hlen); [intros n Hn; by apply dict_get_key|].
    exists results, w'. split; [done|]. by rewrite Hlen, length_fmap.
Qed.

(** ** Starting the fleet *)

Lemma startup_outcome api_url failed succeeded verify tail outcome :
  startup api_url failed succeeded verify tail outcome →
  outcome = succeeded ∨ ∃ e, outcome = failed e.
Proof. destruct 1; eauto. Qed.

Lemma start_consumer_names_outcome self consumer_name box w :
  names_outcome "consumer" "Consumer" consumer_name
    (ConsumerManager.start_consumer net str_exn cfg_payload self consumer_name box w).1.
Proof.
  destruct (ConsumerManager.start_consumer net str_exn cfg_payload self consumer_name box w)
    as [outcome w'] eqn:H.
  apply start_consumer_exchanges in H
    as (polls & _ & [[_ [detail ->]]|(api_url & tail & _ & Hstartup)]); cbn [fst].
  - right. by exists detail.
  - apply startup_outcome in Hstartup as [->|[e ->]]; [by left|right].
    by exists (str_exn e).
Qed.

(** [start_all_consumers] returns one outcome per consumer, in order, each
    naming its consumer, whatever the other consumers' starts did. *)
Lemma start_each_consumers self items : ∀ w,
  Forall2 (λ item outcome, names_outcome "consumer" "Consumer" item.1 outcome) items
    (ConsumerManager.start_each net str_exn cfg_payload self items w).1.
Proof.
  induction items as [|[consumer_name box] items IH]; intros w; cbn; [constructor|].
  constructor; [apply start_consumer_names_outcome|apply IH].
Qed.

Lemma start_all_consumers_one_outcome_each self w :
  length (ConsumerManager.start_all_consumers net str_exn cfg_payload self w).1.2
    = length (ConsumerManager.consumers self)
  ∧ Forall2 (λ item outcome, names_outcome "consumer" "Consumer" item.1 outcome)
      (ConsumerManager.consumers self)
      (ConsumerManager.start_all_consumers net str_exn cfg_payload self w).1.2.
Proof.
  pose proof (start_each_consumers self (ConsumerManager.consumers self) w) as H.
  split; [|done]. symmetry. by eapply Forall2_length.
Qed.

(** [start_all_producers] returns one outcome per pair of the zip. *)
Lemma start_paired_length self pairs : ∀ w,
  (∀ producer_name vehicle_name, (producer_name, vehicle_name) ∈ pairs →
     is_Some (dict_get (ProducerManager.producers self) producer_name)
     ∧ is_Some (ProducerManager.vehicle_configs self !! vehicle_name)) →
  ∃ results w',
    ProducerManager.start_paired net str_exn _build_config_data dumps_type_error self pairs w
      = (Return results, w')
    ∧ length results = length pairs.
Proof.
  induction pairs as [|[producer_name vehicle_name] pairs IH]; intros w Hkeys;
    [by eexists [], _|].
  cbn [ProducerManager.start_paired].
  destruct (Hkeys producer_name vehicle_name) as [[box ->] [vehicle_config ->]]; [by left|].
  unfold bind, ret. cbv beta iota zeta.
  destruct (IH (ProducerManager.start_producer net str_exn _build_config_data
                  dumps_type_error self producer_name box vehicle_config w).2)
    as (results & w' & -> & Hlen).
  { intros p v Hin. apply Hkeys. by right. }
  eexists (_ :: results), w'. split; [done|]. cbn. by rewrite Hlen.
Qed.

Lemma add_vehicles_names cfg vs : ∀ acc,
  (foldl (ProducerManager.add_vehicle cfg) acc vs).1 = acc.1 ++ (vehicle_name_of <$> vs).
Proof.
  induction vs as [|v vs IH]; intros acc; cbn; [by rewrite app_nil_r|].
  rewrite IH. cbn. by rewrite <- app_assoc.
Qed.

Lemma add_vehicles_keeps cfg vs : ∀ acc name,
  name ∉ vehicle_name_of <$> vs →
  (foldl (ProducerManager.add_vehicle cfg) acc vs).2 !! name = acc.2 !! name.
Proof.
  induction vs as [|v vs IH]; intros acc name Hnot; [done|].
  cbn [foldl]. rewrite IH; [|by intros ?; apply Hnot; right].
  cbn. apply lookup_insert_ne. intros Heq. apply Hnot. rewrite <- Heq. by left.
Qed.

Lemma add_vehicles_last cfg pre v post acc :
  vehicle_name_of v ∉ vehicle_name_of <$> post →
  (foldl (ProducerManager.add_vehicle cfg) acc (pre ++ v :: post)).2 !! vehicle_name_of v
    = Some (producer_resolved cfg v).
Proof.
  intros Hnot. rewrite foldl_app. cbn [foldl].
  rewrite add_vehicles_keeps; [|done]. cbn. apply lookup_insert_eq.
Qed.

Lemma add_vehicles_known cfg vs : ∀ acc name,
  name ∈ vehicle_name_of <$> vs →
  is_Some ((foldl (ProducerManager.add_vehicle cfg) acc vs).2 !! name).
Proof.
  induction vs as [|v vs IH]; intros acc name Hin; [by apply elem_of_nil in Hin|].
  cbn [foldl].
  destruct (decide (name ∈ vehicle_name_of <$> vs)) as [Hlater|Hlater]; [by apply IH|].
  rewrite add_vehicles_keeps; [|done].
  cbn in Hin. apply elem_of_cons in Hin as [->|]; [|done].
  cbn. rewrite lookup_insert_eq. by eexists.
Qed.

(** From a manager built by [__init__], [start_all_producers] returns as
    many outcomes as the shorter of the producers and the vehicles. *)
Lemma start_all_producers_outcomes cfg fleet ips w :
  ∃ results w',
    ProducerManager.start_all_producers net str_exn _build_config_data dumps_type_error
      (ProducerManager.__init__ cfg fleet ips) w
      = (Return ("All producers started!", results), w')
    ∧ length results = (length fleet `min` length (vehicles cfg))%nat.
Proof.
  unfold ProducerManager.start_all_producers, bind, ret.
  set (self := ProducerManager.__init__ cfg fleet ips).
  cbv beta.
  destruct (start_paired_length self
              (zip (ProducerManager.producers self).*1 (ProducerManager.vehicle_names self)) w)
    as (results & w' & -> & Hlen).
  - intros producer_name vehicle_name Hin. split.
    + apply dict_get_key. by eapply elem_of_zip_l.
    + apply elem_of_zip_r in Hin. subst self. cbn in *.
      rewrite add_vehicles_names in Hin. by apply add_vehicles_known.
  - exists results, w'. split; [done|]. rewrite Hlen, length_zip_with.
    subst self. cbn. rewrite add_vehicles_names. cbn. by rewrite !length_fmap.
Qed.

(** C1 (evaluated where the claim fails): two producers and one vehicle
    in the configuration.  The zip of the producers with the vehicle names
    stops after the first pair: [start_all_producers] returns a single
    outcome and never starts "v2_producer", whatever the network does. *)
Theorem start_all_producers_skips_unpaired_producer (w : World) :
  let self := ProducerManager.__init__ one_vehicle_cfg two_producers two_ips in
  length (ProducerManager.producers self) = 2%nat
  ∧ ∃ outcome w',
      ProducerManager.start_all_producers net str_exn _build_config_data dumps_type_error
        self w = (Return ("All producers started!", [outcome]), w').
Proof.
  intros self. split; [done|].
  destruct (start_all_producers_outcomes one_vehicle_cfg two_producers two_ips w)
    as (results & w' & Hrun & Hlen).
  destruct results as [|outcome [|? ?]]; try discriminate.
  by exists outcome, w'.
Qed.

(** ** One start, step by step *)

Lemma post_logged target data w : logged (post net target data w).2 = logged w.
Proof. unfold post. destruct (has_non_finite data); [done|apply checked_logged]. Qed.

Lemma get_logged target w : logged (get net target w).2 = logged w.
Proof. apply checked_logged. Qed.

(** What [start_consumer] does after the probe, by what the probe and the
    payload give. *)
Lemma start_consumer_trace self consumer_name box w consumer_config container_ip :
  ConsumerManager.consumer_configs self !! before_char "_" consumer_name = Some consumer_config →
  attrs_ip_address box = Some container_ip →
  let pick := ConsumerManager.pick_api_url net ("http://" +:+ consumer_name +:+ ":5000")
                ("http://" +:+ container_ip +:+ ":5000") w in
  let r := ConsumerManager.start_consumer net str_exn cfg_payload self consumer_name box w in
  let succeeded := "Consumer " +:+ consumer_name +:+ " started successfully" in
  ∃ tail lines,
    exchanges r.2 = exchanges pick.2 ++ tail ∧ logged r.2 = logged pick.2 ++ lines
    ∧ match pick.1 with
      | None =>
          tail = [] ∧ lines = []
          ∧ r.1 = "Failed to start consumer " +:+ consumer_name +:+ ": API not healthy"
      | Some api_url =>
          match cfg_payload consumer_config (before_char "_" consumer_name) with
          | Raise e =>
              tail = [] ∧ lines = [(ERROR, r.1)]
              ∧ r.1 = consumer_failed str_exn consumer_name e
          | Return payload =>
              if has_non_finite payload then
                tail = [] ∧ lines = [(ERROR, r.1)]
                ∧ r.1 = consumer_failed str_exn consumer_name InvalidJSONError
              else
                startup api_url (consumer_failed str_exn consumer_name) succeeded false tail r.1
                ∧ (∃ c rest, tail = c :: rest
                     ∧ asked c = post_request (api_url +:+ "/configure") payload)
                ∧ (lines = [(INFO, r.1)] ∧ r.1 = succeeded
                   ∨ ∃ e, lines = [(ERROR, r.1)]
                          ∧ r.1 = consumer_failed str_exn consumer_name e)
          end
      end.
Proof.
  intros Hcfg Hip. cbv zeta.
  destruct (ConsumerManager.start_consumer net str_exn cfg_payload self consumer_name box w)
    as [outcome w'] eqn:H.
  unfold ConsumerManager.start_consumer, ConsumerManager.start_consumer_body in H.
  rewrite Hcfg, Hip in H. cbn zeta in H.
  unfold bind, ret, raise, say in H. cbv beta iota zeta in H.
  destruct (ConsumerManager.pick_api_url net _ _ w) as [[api_url|] w1]; cbn [fst snd] in *.
  2:{ simplify_eq. exists [], []. by rewrite !app_nil_r. }
  destruct (cfg_payload consumer_config _) as [payload|e].
  2:{ simplify_eq. exists [], [(ERROR, consumer_failed str_exn consumer_name e)].
      cbn. by rewrite !app_nil_r. }
  destruct (has_non_finite payload) eqn:Hfinite.
  { rewrite post_refused in H by done. simplify_eq.
    exists [], [(ERROR, consumer_failed str_exn consumer_name InvalidJSONError)].
    cbn. by rewrite !app_nil_r. }
  pose proof (post_logged (api_url +:+ "/configure") payload w1) as Hlogc.
  destruct (post_exchange (api_url +:+ "/configure") payload w1 Hfinite)
    as (c & Hc & Hexc & [[Hr Hrej]|[[r Hr] Hacc]]);
    destruct (post net (api_url +:+ "/configure") payload w1) as [res w2];
    cbn [fst snd] in *; subst res.
  { simplify_eq. eexists [c], [(ERROR, _)]. cbn [exchanges logged say_all fst snd].
    rewrite Hexc, Hlogc. split_and!; [done|done| |by eauto|by eauto].
    rewrite <- Hc. by econstructor. }
  pose proof (post_logged (api_url +:+ "/start") (JDict []) w2) as Hlogs.
  destruct (post_exchange (api_url +:+ "/start") (JDict []) w2 eq_refl)
    as (s & Hs & Hexs & [[Hr Hrej]|[[r' Hr] Hacc']]);
    destruct (post net (api_url +:+ "/start") (JDict []) w2) as [res w3];
    cbn [fst snd] in *; subst res.
  { simplify_eq. eexists [c; s], [(ERROR, _)]. cbn [exchanges logged say_all fst snd].
    rewrite Hexs, Hexc, Hlogs, Hlogc, <- !app_assoc.
    split_and!; [done|done| |by eauto|by eauto].
    rewrite <- Hs. by econstructor. }
  simplify_eq. eexists [c; s], [(INFO, _)]. cbn [exchanges logged say_all fst snd].
  rewrite Hexs, Hexc, Hlogs, Hlogc, <- !app_assoc.
  split_and!; [done|done| |by eauto|by left].
  by eapply started_unverified.
Qed.

(** Likewise [start_producer], which also logs what the builder logged,
    tries the serialization and verifies the status. *)
Lemma start_producer_trace self producer_name box vehicle_config w a container_ip :
  ProducerManager.containers_ips self !! producer_name = Some (String a container_ip) →
  let hostname_url := "http://" +:+ producer_name +:+ ":5000" in
  let ip_url := "http://" +:+ String a container_ip +:+ ":5000" in
  let pick := ProducerManager.pick_api_url net [hostname_url; ip_url] w in
  let r := ProducerManager.start_producer net str_exn _build_config_data dumps_type_error
             self producer_name box vehicle_config w in
  let succeeded := "Producer " +:+ producer_name +:+ " started successfully" in
  let built := _build_config_data vehicle_config (before_char "_" producer_name) in
  ∃ tail lines,
    exchanges r.2 = exchanges pick.2 ++ tail ∧ logged r.2 = logged pick.2 ++ lines
    ∧ match pick.1 with
      | None =>
          tail = [] ∧ lines = [(ERROR, r.1)]
          ∧ r.1 = "Failed to start producer " +:+ producer_name +:+ ": API not healthy at "
                    +:+ hostname_url +:+ " or " +:+ ip_url
      | Some api_url =>
          match built.1 with
          | Raise e =>
              tail = [] ∧ lines = built.2 ++ [(ERROR, r.1)]
              ∧ r.1 = producer_failed str_exn producer_name e
          | Return config_data =>
              match dumps_type_error config_data with
              | Some e =>
                  tail = []
                  ∧ lines = built.2
                      ++ ProducerManager.serialization_report dumps_type_error r.1 config_data
                  ∧ r.1 = "JSON serialization failed for " +:+ producer_name +:+ ": " +:+ e
              | None =>
                  if has_non_finite config_data then
                    tail = [] ∧ lines = built.2 ++ [(ERROR, r.1)]
                    ∧ r.1 = producer_failed str_exn producer_name InvalidJSONError
                  else
                    startup api_url (producer_failed str_exn producer_name) succeeded true
                      tail r.1
                    ∧ (∃ c rest, tail = c :: rest
                         ∧ asked c = post_request (api_url +:+ "/configure") config_data)
                    ∧ (lines = built.2 ++ [(INFO, r.1)] ∧ r.1 = succeeded
                       ∨ ∃ e, lines = built.2 ++ [(ERROR, r.1)]
                              ∧ r.1 = producer_failed str_exn producer_name e)
              end
          end
      end.
Proof.
  intros Hip. cbv zeta.
  destruct (ProducerManager.start_producer net str_exn _build_config_data dumps_type_error
              self producer_name box vehicle_config w) as [outcome w'] eqn:H.
  unfold ProducerManager.start_producer, ProducerManager.start_producer_body in H.
  rewrite Hip in H. cbn zeta in H.
  unfold bind, ret, raise, say in H. cbv beta iota zeta in H.
  destruct (ProducerManager.pick_api_url net _ w) as [[api_url|] w0]; cbn [fst snd] in *.
  2:{ simplify_eq. eexists [], [(ERROR, _)]. cbn. by rewrite !app_nil_r. }
  destruct (_build_config_data vehicle_config _) as [[config_data|e] built];
    cbn [fst snd] in *.
  2:{ simplify_eq. exists [], (built ++ [(ERROR, producer_failed str_exn producer_name e)]).
      cbn. by rewrite !app_nil_r, <- app_assoc. }
  set (w1 := say_all built w0) in *.
  assert (exchanges w1 = exchanges w0) as Hex1 by done.
  assert (logged w1 = logged w0 ++ built) as Hlog1 by done.
  clearbody w1.
  destruct (dumps_type_error config_data) as [e|] eqn:Hdumps.
  { simplify_eq.
    exists [], (built ++ ProducerManager.serialization_report dumps_type_error
                  ("JSON serialization failed for " +:+ producer_name +:+ ": " +:+ e)
                  config_data).
    cbn [exchanges logged say_all fst snd].
    rewrite app_nil_r, Hex1, Hlog1, <- app_assoc. by split_and!. }
  destruct (has_non_finite config_data) eqn:Hfinite.
  { rewrite post_refused in H by done. simplify_eq.
    exists [], (built ++ [(ERROR, producer_failed str_exn producer_name InvalidJSONError)]).
    cbn [exchanges logged say_all fst snd].
    rewrite app_nil_r, Hex1, Hlog1, <- app_assoc. by split_and!. }
  pose proof (post_logged (api_url +:+ "/configure") config_data w1) as Hlogc.
  destruct (post_exchange (api_url +:+ "/configure") config_data w1 Hfinite)
    as (c & Hc & Hexc & [[Hr Hrej]|[[r Hr] Hacc]]);
    destruct (post net (api_url +:+ "/configure") config_data w1) as [res w2];
    cbn [fst snd] in *; subst res.
  { simplify_eq. eexists [c], (built ++ [(ERROR, _)]).
    cbn [exchanges logged say_all fst snd].
    rewrite Hexc, Hlogc, Hex1, Hlog1, <- !app_assoc.
    split_and!; [done|done| |by eauto|by eauto].
    rewrite <- Hc. by econstructor. }
  pose proof (post_logged (api_url +:+ "/start") (JDict []) w2) as Hlogs.
  destruct (post_exchange (api_url +:+ "/start") (JDict []) w2 eq_refl)
    as (s & Hs & Hexs & [[Hr Hrej]|[[r' Hr] Hacc']]);
    destruct (post net (api_url +:+ "/start") (JDict []) w2) as [res w3];
    cbn [fst snd] in *; subst res.
  { simplify_eq. eexists [c; s], (built ++ [(ERROR, _)]).
    cbn [exchanges logged say_all fst snd].
    rewrite Hexs, Hexc, Hlogs, Hlogc, Hex1, Hlog1, <- !app_assoc.
    split_and!; [done|done| |by eauto|by eauto].
    rewrite <- Hs. by econstructor. }
  pose proof (get_logged (api_url +:+ "/status") w3) as Hlogg.
  destruct (get_exchange (api_url +:+ "/status") w3)
    as (g & Hg & Hexg & [[Hr Hrej]|[[r'' Hr] Hacc'']]);
    destruct (get net (api_url +:+ "/status") w3) as [res w4];
    cbn [fst snd] in *; subst res.
  { simplify_eq. eexists [c; s; g], (built ++ [(ERROR, _)]).
    cbn [exchanges logged say_all fst snd].
    rewrite Hexg, Hexs, Hexc, Hlogg, Hlogs, Hlogc, Hex1, Hlog1, <- !app_assoc.
    split_and!; [done|done| |by eauto|by eauto].
    rewrite <- Hg. by eapply status_rejected. }
  simplify_eq. eexists [c; s; g], (built ++ [(INFO, _)]).
  cbn [exchanges logged say_all fst snd].
  rewrite Hexg, Hexs, Hexc, Hlogg, Hlogs, Hlogc, Hex1, Hlog1, <- !app_assoc.
  split_and!; [done|done| |by eauto|by left].
  by eapply started_verified.
Qed.

(** ** The requests of the probe *)

Lemma producer_wait_rounds api_url w :
  ∃ polls,
    exchanges (ProducerManager._wait_for_health net api_url 20 w).2 = exchanges w ++ polls
    ∧ (1 ≤ length polls ≤ 10)%nat
    ∧ clock w ≤ clock (ProducerManager._wait_for_health net api_url 20 w).2.
Proof.
  unfold ProducerManager._wait_for_health.
  destruct (health_loop_rounds net ProducerManager.producer_style api_url
              (clock w + 1000 * 20) w) as (polls & Hex & Hlen & Hsome & _).
  destruct (health_loop_waited net ProducerManager.producer_style api_url
              (clock w + 1000 * 20) w) as (_ & _ & _ & Hfinish & _).
  exists polls. split_and!; [done| |lia|done].
  destruct polls; [by destruct Hsome; [lia|]|cbn [length]; lia].
Qed.

Lemma consumer_wait_rounds api_url w :
  ∃ polls,
    exchanges (ConsumerManager.wait_for_health net api_url 60 w).2 = exchanges w ++ polls
    ∧ (1 ≤ length polls ≤ 30)%nat
    ∧ clock w ≤ clock (ConsumerManager.wait_for_health net api_url 60 w).2
    ∧ Forall (λ x, clock w + 2000 ≤ sent_at x) polls.
Proof.
  unfold ConsumerManager.wait_for_health.
  destruct (health_loop_rounds net ConsumerManager.consumer_style api_url
              (clock (sleep 2 w) + 1000 * 60) (sleep 2 w)) as (polls & Hex & Hlen & Hsome & Hsent).
  destruct (health_loop_waited net ConsumerManager.consumer_style api_url
              (clock (sleep 2 w) + 1000 * 60) (sleep 2 w)) as (_ & _ & _ & Hfinish & _).
  cbn [clock sleep] in *.
  exists polls. split_and!; [done| |lia|lia|].
  - destruct polls; [by destruct Hsome; [lia|]|cbn [length]; lia].
  - eapply Forall_impl; [exact Hsent|]. cbn. intros; lia.
Qed.

(** X7: the health probe is bounded by its sleeps.  A wait of the producer
    manager (20 seconds, two seconds after each failed round) makes at
    least one and at most 10 requests for a candidate, so its probe makes
    at most 10 per candidate; the probe of the consumer manager (60 seconds
    for each of its two candidates) makes at least one and at most 60
    requests, none of them sooner than two seconds after it began. *)
Theorem health_probe_polls_are_bounded
    (candidates : list string) (hostname_url ip_url : string) (w : World) :
  let p := ProducerManager.pick_api_url net candidates w in
  let c := ConsumerManager.pick_api_url net hostname_url ip_url w in
  (∃ polls, exchanges p.2 = exchanges w ++ polls
     ∧ (length polls ≤ 10 * length candidates)%nat
     ∧ (candidates ≠ [] → polls ≠ []))
  ∧ (∃ polls, exchanges c.2 = exchanges w ++ polls
     ∧ (1 ≤ length polls ≤ 60)%nat
     ∧ Forall (λ x, clock w + 2000 ≤ sent_at x) polls).
Proof.
  cbv zeta. split.
  - unfold ProducerManager.pick_api_url.
    apply (first_healthy_bounded (λ candidate, ProducerManager._wait_for_health net candidate 20)).
    intros api_url w0. apply producer_wait_rounds.
  - unfold ConsumerManager.pick_api_url.
    destruct (consumer_wait_rounds hostname_url w) as (polls & Hex & Hlen & Hclock & Hsent).
    destruct (ConsumerManager.wait_for_health net hostname_url 60 w) as [accepted w1];
      cbn [fst snd] in *.
    destruct accepted; cbn [fst snd].
    + exists polls. split_and!; [done|lia|lia|done].
    + destruct (consumer_wait_rounds ip_url w1) as (later & Hex' & Hlen' & _ & Hsent').
      destruct (ConsumerManager.wait_for_health net ip_url 60 w1) as [accepted w2];
        cbn [fst snd] in *.
      exists (polls ++ later).
      assert (exchanges w2 = exchanges w ++ polls ++ later) as Hall
        by (by rewrite Hex', Hex, app_assoc).
      assert (Forall (λ x, clock w + 2000 ≤ sent_at x) (polls ++ later)) as Hboth.
      { apply Forall_app. split; [done|].
        eapply Forall_impl; [exact Hsent'|]. cbn. intros; lia. }
      rewrite length_app.
      destruct accepted; cbn [fst snd]; (split_and!; [done|lia|lia|done]).
Qed.

Lemma producer_pick_polls hostname_url ip_url w :
  ∃ x polls,
    exchanges (ProducerManager.pick_api_url net [hostname_url; ip_url] w).2
      = exchanges w ++ x :: polls.
Proof.
  destruct (first_healthy_bounded (λ candidate, ProducerManager._wait_for_health net candidate 20)
              10 producer_wait_rounds [hostname_url; ip_url] w) as (polls & Hex & _ & Hsome).
  destruct polls as [|x polls]; [by destruct Hsome|]. by exists x, polls.
Qed.

Lemma consumer_pick_polls hostname_url ip_url w :
  ∃ x polls,
    exchanges (ConsumerManager.pick_api_url net hostname_url ip_url w).2
      = exchanges w ++ x :: polls
    ∧ logged (ConsumerManager.pick_api_url net hostname_url ip_url w).2 = logged w.
Proof.
  assert (∀ api_url w0,
            logged (ConsumerManager.wait_for_health net api_url 60 w0).2 = logged w0) as Hsilent.
  { intros api_url w0. unfold ConsumerManager.wait_for_health.
    by rewrite health_loop_silent. }
  rewrite consumer_pick_is_first_healthy.
  destruct (first_healthy_bounded (λ candidate, ConsumerManager.wait_for_health net candidate 60)
              30) with (candidates := [hostname_url; ip_url]) (w := w)
    as (polls & Hex & _ & Hsome).
  { intros api_url w0. destruct (consumer_wait_rounds api_url w0) as (polls & ? & ? & ? & _).
    by exists polls. }
  destruct polls as [|x polls]; [by destruct Hsome|]. exists x, polls. split; [done|].
  cbn [first_healthy].
  pose proof (Hsilent hostname_url w) as H1.
  destruct (ConsumerManager.wait_for_health net hostname_url 60 w) as [[] w1];
    cbn [fst snd] in *; [done|].
  pose proof (Hsilent ip_url w1) as H2.
  destruct (ConsumerManager.wait_for_health net ip_url 60 w1) as [[] w2];
    cbn [fst snd] in *; congruence.
Qed.

(** ** Starts that send nothing *)

Lemma longer_list {A : Type} (l news : list A) x : l ++ x :: news ≠ l.
Proof.
  intros Heq. apply (f_equal length) in Heq. rewrite length_app in Heq. cbn in Heq. lia.
Qed.

(** X8: a start sends no request exactly when it has no address to send
    to.  [start_producer] sends nothing exactly when [containers_ips] has
    no address, or an empty one, for the producer: it then returns
    "Container IP not found" and logs nothing.  [start_consumer] sends
    nothing exactly when no configuration is stored under the text of the
    consumer's name before its first underscore, or the container's
    [attrs] have no 'NetworkSettings' or these no 'IPAddress': the KeyError
    of the key that is missing (the vehicle name, 'NetworkSettings' or
    'IPAddress') is caught, logged and returned as the failure. *)
Theorem start_without_address_sends_nothing
    (producer_manager : ProducerManager.ProducerManager)
    (consumer_manager : ConsumerManager.ConsumerManager)
    (name : string) (box : container) (vehicle_config : gmap string json) (w : World) :
  let p := ProducerManager.start_producer net str_exn _build_config_data dumps_type_error
             producer_manager name box vehicle_config w in
  let c := ConsumerManager.start_consumer net str_exn cfg_payload consumer_manager name box w in
  let no_ip := ProducerManager.containers_ips producer_manager !! name = None
               ∨ ProducerManager.containers_ips producer_manager !! name = Some EmptyString in
  let no_config :=
    ConsumerManager.consumer_configs consumer_manager !! before_char "_" name = None in
  (exchanges p.2 = exchanges w ↔ no_ip)
  ∧ (no_ip → p = ("Failed to start producer " +:+ name +:+ ": Container IP not found", w))
  ∧ (exchanges c.2 = exchanges w ↔ no_config ∨ attrs_ip_address box = None)
  ∧ (no_config →
     c = (consumer_failed str_exn name (KeyError (before_char "_" name)),
          say_all [(ERROR, consumer_failed str_exn name (KeyError (before_char "_" name)))] w))
  ∧ (¬ no_config → attrs_ip_address box = None →
     c = (consumer_failed str_exn name (KeyError (missing_attr box)),
          say_all [(ERROR, consumer_failed str_exn name (KeyError (missing_attr box)))] w)).
Proof.
  cbv zeta. split_and!.
  - destruct (ProducerManager.containers_ips producer_manager !! name)
      as [[|a container_ip]|] eqn:Hip.
    + split; [by right|]. intros _.
      unfold ProducerManager.start_producer, ProducerManager.start_producer_body.
      by rewrite Hip.
    + split; [|by intros [?|?]]. intros Heq. exfalso.
      destruct (start_producer_trace producer_manager name box vehicle_config w a container_ip Hip)
        as (tail & lines & Hex & _).
      destruct (producer_pick_polls ("http://" +:+ name +:+ ":5000")
                  ("http://" +:+ String a container_ip +:+ ":5000") w) as (x & polls & Hpolls).
      rewrite Hex, Hpolls, <- app_assoc in Heq. by apply longer_list in Heq.
    + split; [by left|]. intros _.
      unfold ProducerManager.start_producer, ProducerManager.start_producer_body.
      by rewrite Hip.
  - unfold ProducerManager.start_producer, ProducerManager.start_producer_body.
    by intros [->| ->].
  - destruct (ConsumerManager.consumer_configs consumer_manager !! before_char "_" name)
      as [consumer_config|] eqn:Hcfg.
    2:{ split; [by left|]. intros _.
        unfold ConsumerManager.start_consumer, ConsumerManager.start_consumer_body.
        by rewrite Hcfg. }
    destruct (attrs_ip_address box) as [container_ip|] eqn:Hip.
    2:{ split; [by right|]. intros _.
        unfold ConsumerManager.start_consumer, ConsumerManager.start_consumer_body.
        by rewrite Hcfg, Hip. }
    split; [|by intros [?|?]]. intros Heq. exfalso.
    destruct (start_consumer_trace consumer_manager name box w consumer_config container_ip
                Hcfg Hip) as (tail & lines & Hex & _).
    destruct (consumer_pick_polls ("http://" +:+ name +:+ ":5000")
                ("http://" +:+ container_ip +:+ ":5000") w) as (x & polls & Hpolls & _).
    rewrite Hex, Hpolls, <- app_assoc in Heq. by apply longer_list in Heq.
  - intros Hcfg.
    unfold ConsumerManager.start_consumer, ConsumerManager.start_consumer_body.
    by rewrite Hcfg.
  - intros Hcfg Hip.
    unfold ConsumerManager.start_consumer, ConsumerManager.start_consumer_body.
    destruct (ConsumerManager.consumer_configs consumer_manager !! before_char "_" name);
      [|done].
    by rewrite Hip.
Qed.

(** X9: [start_consumer] logs exactly one record, its outcome, at INFO when
    the consumer was started and at ERROR when an exception was caught;
    the health probe logs nothing, and when no candidate turns healthy the
    failure is returned without any record. *)
Theorem start_consumer_logs_its_outcome
    (self : ConsumerManager.ConsumerManager) (name : string) (box : container) (w : World) :
  let r := ConsumerManager.start_consumer net str_exn cfg_payload self name box w in
  ∃ lines, logged r.2 = logged w ++ lines
    ∧ (lines = [] ∧ r.1 = "Failed to start consumer " +:+ name +:+ ": API not healthy"
       ∨ lines = [(INFO, r.1)] ∧ r.1 = "Consumer " +:+ name +:+ " started successfully"
       ∨ ∃ e, lines = [(ERROR, r.1)] ∧ r.1 = consumer_failed str_exn name e).
Proof.
  cbv zeta.
  destruct (ConsumerManager.consumer_configs self !! before_char "_" name)
    as [consumer_config|] eqn:Hcfg.
  2:{ unfold ConsumerManager.start_consumer, ConsumerManager.start_consumer_body.
      rewrite Hcfg. cbn. eexists. split; [done|]. right. right. by eexists. }
  destruct (attrs_ip_address box) as [container_ip|] eqn:Hip.
  2:{ unfold ConsumerManager.start_consumer, ConsumerManager.start_consumer_body.
      rewrite Hcfg, Hip. cbn. eexists. split; [done|]. right. right. by eexists. }
  destruct (start_consumer_trace self name box w consumer_config container_ip Hcfg Hip)
    as (tail & lines & _ & Hlog & Hcases).
  destruct (consumer_pick_polls ("http://" +:+ name +:+ ":5000")
              ("http://" +:+ container_ip +:+ ":5000") w) as (x & polls & _ & Hsilent).
  rewrite Hsilent in Hlog. exists lines. split; [done|].
  destruct (ConsumerManager.pick_api_url net _ _ w).1 as [api_url|].
  - destruct (cfg_payload consumer_config _) as [payload|e].
    + destruct (has_non_finite payload).
      * destruct Hcases as (_ & ? & ?). right. right. by eexists.
      * destruct Hcases as (_ & _ & [?|?]); [right; by left|right; by right].
    + destruct Hcases as (_ & ? & ?). right. right. by exists e.
  - destruct Hcases as (_ & ? & ?). by left.
Qed.

(** ** What "started successfully" means *)

(** X10: [start_consumer] reports "started successfully" exactly when,
    after the health polls, it posted the configuration and the start and
    neither reply made [raise_for_status] raise; these two POSTs are then
    its last two requests. *)
Theorem consumer_started_iff_both_posts_accepted
    (self : ConsumerManager.ConsumerManager) (name : string) (box : container) (w : World) :
  let r := ConsumerManager.start_consumer net str_exn cfg_payload self name box w in
  r.1 = "Consumer " +:+ name +:+ " started successfully" ↔
  ∃ polls c s,
    exchanges r.2 = exchanges w ++ polls ++ [c; s] ∧ Forall is_get polls
    ∧ is_configure_post c ∧ accepted (answered c)
    ∧ is_start_post s ∧ accepted (answered s).
Proof.
  cbv zeta.
  destruct (ConsumerManager.start_consumer net str_exn cfg_payload self name box w)
    as [outcome w'] eqn:H.
  apply start_consumer_exchanges in H as (polls & Hgets & Hcases). cbn [fst snd].
  split.
  - intros ->. destruct Hcases as [[_ [detail Hfailed]]|(api_url & tail & Hex & Hstartup)];
      [by cbn in Hfailed|].
    inversion Hstartup; subst;
      try match goal with H : _ = consumer_failed _ _ _ |- _ => by cbn in H end;
      try done.
    exists polls, c, s. split_and!; [done|done|by eexists _, _|done|by eexists|done].
  - intros (polls' & c & s & Hex' & Hgets' & [u [data Hc]] & Hacc & [u' Hs] & Hacc').
    assert (verb (asked c) = POST) as Hpost by (by rewrite Hc).
    assert (verb (asked s) = POST) as Hpost' by (by rewrite Hs).
    destruct Hcases as [[Hex _]|(api_url & tail & Hex & Hstartup)].
    + rewrite Hex in Hex'. apply app_inv_head in Hex'. subst polls.
      apply Forall_app in Hgets as [_ Hgets]. inversion Hgets as [|? ? Hget _]; subst.
      unfold is_get in Hget. congruence.
    + rewrite Hex in Hex'. apply app_inv_head in Hex'.
      destruct (post_in_tail polls tail polls' c [s] Hgets Hpost Hex') as (front & -> & ->).
      apply Forall_app in Hgets' as [_ Hfront].
      destruct front as [|y front].
      * cbn [app] in Hstartup. inversion Hstartup; subst; try done.
        unfold accepted in *. congruence.
      * exfalso. inversion Hfront as [|? ? Hget _]; subst.
        inversion Hstartup; subst;
          match goal with H : asked y = post_request _ _ |- _ =>
            unfold is_get in Hget; rewrite H in Hget; done end.
Qed.

(** X11: [start_producer] reports "started successfully" exactly when,
    after the health polls, it posted the configuration and the start and
    asked for the status and none of the three replies made
    [raise_for_status] raise; these are then its last three requests. *)
Theorem producer_started_iff_three_requests_accepted
    (self : ProducerManager.ProducerManager) (name : string) (box : container)
    (vehicle_config : gmap string json) (w : World) :
  let r := ProducerManager.start_producer net str_exn _build_config_data dumps_type_error
             self name box vehicle_config w in
  r.1 = "Producer " +:+ name +:+ " started successfully" ↔
  ∃ polls c s g,
    exchanges r.2 = exchanges w ++ polls ++ [c; s; g] ∧ Forall is_get polls
    ∧ is_configure_post c ∧ accepted (answered c)
    ∧ is_start_post s ∧ accepted (answered s)
    ∧ (∃ api_url, asked g = get_request (api_url +:+ "/status")) ∧ accepted (answered g).
Proof.
  cbv zeta.
  destruct (ProducerManager.start_producer net str_exn _build_config_data dumps_type_error
              self name box vehicle_config w) as [outcome w'] eqn:H.
  apply start_producer_exchanges in H as (polls & Hgets & Hcases). cbn [fst snd].
  split.
  - intros ->. destruct Hcases as [[_ [detail [Hfailed|Hfailed]]]|(api_url & tail & Hex & Hstartup)];
      [by cbn in Hfailed..|].
    inversion Hstartup; subst;
      try match goal with H : _ = producer_failed _ _ _ |- _ => by cbn in H end;
      try done.
    exists polls, c, s, g.
    split_and!; [done|done|by eexists _, _|done|by eexists|done|by eexists|done].
  - intros (polls' & c & s & g & Hex' & Hgets' & [u [data Hc]] & Hacc & [u' Hs] & Hacc'
            & [u'' Hg] & Hacc'').
    assert (verb (asked c) = POST) as Hpost by (by rewrite Hc).
    destruct Hcases as [[Hex _]|(api_url & tail & Hex & Hstartup)].
    + rewrite Hex in Hex'. apply app_inv_head in Hex'. subst polls.
      apply Forall_app in Hgets as [_ Hgets]. inversion Hgets as [|? ? Hget _]; subst.
      unfold is_get in Hget. congruence.
    + rewrite Hex in Hex'. apply app_inv_head in Hex'.
      destruct (post_in_tail polls tail polls' c [s; g] Hgets Hpost Hex') as (front & -> & ->).
      apply Forall_app in Hgets' as [_ Hfront].
      destruct front as [|y front].
      * cbn [app] in Hstartup. inversion Hstartup; subst; try done.
        unfold accepted in *. congruence.
      * exfalso. inversion Hfront as [|? ? Hget _]; subst.
        inversion Hstartup; subst;
          match goal with H : asked y = post_request _ _ |- _ =>
            unfold is_get in Hget; rewrite H in Hget; done end.
Qed.

(** ** The configuration a worker is sent *)

Lemma consumer_pick_probed hostname_url ip_url w :
  ∃ polls,
    exchanges (ConsumerManager.pick_api_url net hostname_url ip_url w).2 = exchanges w ++ polls
    ∧ Forall is_get polls ∧ polls ≠ []
    ∧ ∀ api_url, (ConsumerManager.pick_api_url net hostname_url ip_url w).1 = Some api_url →
                 api_url = hostname_url ∨ api_url = ip_url.
Proof.
  destruct (consumer_pick_polls hostname_url ip_url w) as (x & rest & Hpolls & _).
  rewrite consumer_pick_is_first_healthy in *.
  destruct (first_healthy_probed _ _ _ consumer_waits [hostname_url; ip_url] w)
    as (polls & Hex & Hp).
  exists polls. split_and!; [done|by eapply probed_polls_are_gets| |].
  - rewrite Hex in Hpolls. apply app_inv_head in Hpolls. by subst.
  - intros api_url Hpick.
    apply probed_accepts_iff_healthy in Hp as [_ Hin]. specialize (Hin api_url Hpick).
    apply elem_of_cons in Hin as [?|Hin]; [by left|].
    apply list_elem_of_singleton in Hin. by right.
Qed.

Lemma producer_pick_probed hostname_url ip_url w :
  ∃ polls,
    exchanges (ProducerManager.pick_api_url net [hostname_url; ip_url] w).2
      = exchanges w ++ polls
    ∧ Forall is_get polls ∧ polls ≠ []
    ∧ ∀ api_url, (ProducerManager.pick_api_url net [hostname_url; ip_url] w).1 = Some api_url →
                 api_url = hostname_url ∨ api_url = ip_url.
Proof.
  destruct (producer_pick_polls hostname_url ip_url w) as (x & rest & Hpolls).
  unfold ProducerManager.pick_api_url in *.
  destruct (first_healthy_probed _ _ _ producer_waits [hostname_url; ip_url] w)
    as (polls & Hex & Hp).
  exists polls. split_and!; [done|by eapply probed_polls_are_gets| |].
  - rewrite Hex in Hpolls. apply app_inv_head in Hpolls. by subst.
  - intros api_url Hpick.
    apply probed_accepts_iff_healthy in Hp as [_ Hin]. specialize (Hin api_url Hpick).
    apply elem_of_cons in Hin as [?|Hin]; [by left|].
    apply list_elem_of_singleton in Hin. by right.
Qed.

(** X12: once a candidate of a consumer has turned healthy, what
    [start_consumer] sends next depends on the payload built from the
    configuration stored under the text of the consumer's name before its
    first underscore.  When the payload is built and holds no NaN or
    infinite float, the first request after the health polls is the POST
    to that candidate's configure endpoint with that payload as its body.
    When building it raises, or when it holds such a float, which
    [requests.post] refuses before sending, nothing is posted and the
    exception is the failure returned. *)
Theorem consumer_is_configured_with_its_vehicle_payload
    (self : ConsumerManager.ConsumerManager) (name : string) (box : container) (w : World)
    (consumer_config : gmap string json) (container_ip api_url : string) :
  let hostname_url := "http://" +:+ name +:+ ":5000" in
  let ip_url := "http://" +:+ container_ip +:+ ":5000" in
  let pick := ConsumerManager.pick_api_url net hostname_url ip_url w in
  let r := ConsumerManager.start_consumer net str_exn cfg_payload self name box w in
  ConsumerManager.consumer_configs self !! before_char "_" name = Some consumer_config →
  attrs_ip_address box = Some container_ip →
  pick.1 = Some api_url →
  (api_url = hostname_url ∨ api_url = ip_url)
  ∧ match cfg_payload consumer_config (before_char "_" name) with
    | Raise e => exchanges r.2 = exchanges pick.2 ∧ r.1 = consumer_failed str_exn name e
    | Return payload =>
        if has_non_finite payload then
          exchanges r.2 = exchanges pick.2
          ∧ r.1 = consumer_failed str_exn name InvalidJSONError
        else
          ∃ polls c rest,
            exchanges r.2 = exchanges w ++ polls ++ c :: rest
            ∧ Forall is_get polls ∧ polls ≠ []
            ∧ asked c = post_request (api_url +:+ "/configure") payload
    end.
Proof.
  cbv zeta. intros Hcfg Hip Hpick.
  destruct (start_consumer_trace self name box w consumer_config container_ip Hcfg Hip)
    as (tail & lines & Hex & _ & Hcases).
  destruct (consumer_pick_probed ("http://" +:+ name +:+ ":5000")
              ("http://" +:+ container_ip +:+ ":5000") w) as (polls & Hpolls & Hgets & Hsome & Hin).
  rewrite Hpick in Hcases. split; [by apply Hin|].
  destruct (cfg_payload consumer_config _) as [payload|e].
  - destruct (has_non_finite payload).
    + destruct Hcases as (-> & _ & ?). by rewrite Hex, app_nil_r.
    + destruct Hcases as (_ & (c & rest & -> & Hc) & _).
      exists polls, c, rest. by rewrite Hex, Hpolls, <- app_assoc.
  - destruct Hcases as (-> & _ & ?). by rewrite Hex, app_nil_r.
Qed.

(** X13: once a candidate of a producer has turned healthy,
    [start_producer] calls [_build_config_data] on the vehicle
    configuration it was handed and on the text of the producer's name
    before its first underscore, and the records that call logged are in
    the log.  When the data is built, passes [json.dumps] and holds no NaN
    or infinite float, the first request after the health polls is the
    POST to that candidate's configure endpoint with that data as its
    body.  When the data cannot be built, when [json.dumps] raises
    TypeError on it, or when it holds such a float, which [json.dumps]
    lets through and the POST refuses before sending, nothing is posted. *)
Theorem producer_is_configured_with_the_built_data
    (self : ProducerManager.ProducerManager) (name : string) (box : container)
    (vehicle_config : gmap string json) (w : World) (a : ascii) (container_ip api_url : string) :
  let hostname_url := "http://" +:+ name +:+ ":5000" in
  let ip_url := "http://" +:+ String a container_ip +:+ ":5000" in
  let pick := ProducerManager.pick_api_url net [hostname_url; ip_url] w in
  let r := ProducerManager.start_producer net str_exn _build_config_data dumps_type_error
             self name box vehicle_config w in
  let built := _build_config_data vehicle_config (before_char "_" name) in
  ProducerManager.containers_ips self !! name = Some (String a container_ip) →
  pick.1 = Some api_url →
  (api_url = hostname_url ∨ api_url = ip_url)
  ∧ (∃ lines, logged r.2 = logged pick.2 ++ built.2 ++ lines)
  ∧ match built.1 with
    | Raise e => exchanges r.2 = exchanges pick.2 ∧ r.1 = producer_failed str_exn name e
    | Return config_data =>
        match dumps_type_error config_data with
        | Some e =>
            exchanges r.2 = exchanges pick.2
            ∧ r.1 = "JSON serialization failed for " +:+ name +:+ ": " +:+ e
        | None =>
            if has_non_finite config_data then
              exchanges r.2 = exchanges pick.2
              ∧ r.1 = producer_failed str_exn name InvalidJSONError
            else
              ∃ polls c rest,
                exchanges r.2 = exchanges w ++ polls ++ c :: rest
                ∧ Forall is_get polls ∧ polls ≠ []
                ∧ asked c = post_request (api_url +:+ "/configure") config_data
        end
    end.
Proof.
  cbv zeta. intros Hip Hpick.
  destruct (start_producer_trace self name box vehicle_config w a container_ip Hip)
    as (tail & lines & Hex & Hlog & Hcases).
  destruct (producer_pick_probed ("http://" +:+ name +:+ ":5000")
              ("http://" +:+ String a container_ip +:+ ":5000") w)
    as (polls & Hpolls & Hgets & Hsome & Hin).
  rewrite Hpick in Hcases. split; [by apply Hin|].
  destruct (_build_config_data vehicle_config _) as [[config_data|e] built];
    cbn [fst snd] in *.
  - destruct (dumps_type_error config_data) as [e|].
    + destruct Hcases as (-> & -> & ?). split; [by eexists|]. by rewrite Hex, app_nil_r.
    + destruct (has_non_finite config_data).
      * destruct Hcases as (-> & -> & ?). split; [by eexists|]. by rewrite Hex, app_nil_r.
      * destruct Hcases as (_ & (c & rest & -> & Hc) & Hlines). split.
        -- destruct Hlines as [[-> _]|(e & -> & _)]; by eexists.
        -- exists polls, c, rest. by rewrite Hex, Hpolls, <- app_assoc.
  - destruct Hcases as (-> & -> & ?). split; [by eexists|]. by rewrite Hex, app_nil_r.
Qed.

(** ** The loops over the workers *)

Lemma start_each_app self front back : ∀ w,
  ConsumerManager.start_each net str_exn cfg_payload self (front ++ back) w =
  let r1 := ConsumerManager.start_each net str_exn cfg_payload self front w in
  let r2 := ConsumerManager.start_each net str_exn cfg_payload self back r1.2 in
  (r1.1 ++ r2.1, r2.2).
Proof.
  induction front as [|[consumer_name box] front IH]; intros w.
  - cbn. by destruct (ConsumerManager.start_each _ _ _ _ back w).
  - cbn [app ConsumerManager.start_each]. by rewrite IH.
Qed.

(** X14: [start_all_consumers] goes through every consumer in the order of
    [self.consumers] and returns "All consumers started!" with one outcome
    for each, in that order, each naming its consumer as started or as
    failed: a failed start is reported and the loop goes on.  The starts
    run one after the other, each from the world the one before left. *)
Theorem start_all_consumers_reports_every_consumer
    (self : ConsumerManager.ConsumerManager) (w : World) :
  let r := ConsumerManager.start_all_consumers net str_exn cfg_payload self w in
  r.1.1 = "All consumers started!"
  ∧ Forall2 (λ item outcome, names_outcome "consumer" "Consumer" item.1 outcome)
      (ConsumerManager.consumers self) r.1.2
  ∧ ∀ front consumer_name box back,
      ConsumerManager.consumers self = front ++ (consumer_name, box) :: back →
      ∃ w_i, r.1.2 !! length front
             = Some (ConsumerManager.start_consumer net str_exn cfg_payload self
                       consumer_name box w_i).1
        ∧ w_i = (ConsumerManager.start_each net str_exn cfg_payload self front w).2.
Proof.
  cbv zeta. unfold ConsumerManager.start_all_consumers. cbn [fst snd].
  split_and!; [done|apply start_each_consumers|].
  intros front consumer_name box back ->.
  eexists. split; [|done].
  rewrite start_each_app. cbv zeta. cbn [fst snd ConsumerManager.start_each].
  rewrite lookup_app_r; [|by rewrite (Forall2_length _ _ _ (start_each_consumers self front w))].
  rewrite <- (Forall2_length _ _ _ (start_each_consumers self front w)), Nat.sub_diag.
  done.
Qed.

Lemma start_producer_outcome self producer_name box vehicle_config w :
  producer_outcome producer_name
    (ProducerManager.start_producer net str_exn _build_config_data dumps_type_error self
       producer_name box vehicle_config w).1.
Proof.
  destruct (ProducerManager.start_producer net str_exn _build_config_data dumps_type_error
              self producer_name box vehicle_config w) as [outcome w'] eqn:H.
  apply start_producer_exchanges in H
    as (polls & _ & [[_ [detail [->| ->]]]|(api_url & tail & _ & Hstartup)]); cbn [fst].
  - left. right. by exists detail.
  - right. by exists detail.
  - left. apply startup_outcome in Hstartup as [->|[e ->]]; [by left|right].
    by exists (str_exn e).
Qed.

Lemma start_paired_runs self pairs : ∀ w,
  (∀ producer_name vehicle_name, (producer_name, vehicle_name) ∈ pairs →
     is_Some (dict_get (ProducerManager.producers self) producer_name)
     ∧ is_Some (ProducerManager.vehicle_configs self !! vehicle_name)) →
  ∃ results w',
    ProducerManager.start_paired net str_exn _build_config_data dumps_type_error self pairs w
      = (Return results, w')
    ∧ ∀ i producer_name vehicle_name,
        pairs !! i = Some (producer_name, vehicle_name) →
        ∃ box vehicle_config w_i,
          dict_get (ProducerManager.producers self) producer_name = Some box
          ∧ ProducerManager.vehicle_configs self !! vehicle_name = Some vehicle_config
          ∧ results !! i
              = Some (ProducerManager.start_producer net str_exn _build_config_data
                        dumps_type_error self producer_name box vehicle_config w_i).1.
Proof.
  induction pairs as [|[producer_name vehicle_name] pairs IH]; intros w Hkeys;
    [by eexists [], _|].
  cbn [ProducerManager.start_paired].
  destruct (Hkeys producer_name vehicle_name) as [[box Hbox] [vehicle_config Hconfig]];
    [by left|].
  rewrite Hbox, Hconfig.
  unfold bind, ret. cbv beta iota zeta.
  destruct (IH (ProducerManager.start_producer net str_exn _build_config_data
                  dumps_type_error self producer_name box vehicle_config w).2)
    as (results & w' & -> & Hruns).
  { intros p v Hin. apply Hkeys. by right. }
  eexists (_ :: results), w'. split; [done|].
  intros [|i] p v Hi; cbn in Hi.
  - simplify_eq. by exists box, vehicle_config, w.
  - by apply Hruns.
Qed.

(** X15: from a manager built by [__init__], [start_all_producers] pairs
    the producers with the vehicles by position.  It returns "All producers
    started!" with as many outcomes as the shorter of the two, and the
    outcome at a position is that of starting the producer at that position
    with the configuration stored under the name of the vehicle at that
    position, whatever the producer is called; each outcome names its
    producer as started, as failed, or as failed at the serialization. *)
Theorem start_all_producers_pairs_by_position
    (cfg : Config) (fleet : list (string * container)) (ips : gmap string string) (w : World) :
  let self := ProducerManager.__init__ cfg fleet ips in
  ∃ results w',
    ProducerManager.start_all_producers net str_exn _build_config_data dumps_type_error self w
      = (Return ("All producers started!", results), w')
    ∧ length results = (length fleet `min` length (vehicles cfg))%nat
    ∧ ∀ i producer_name box vehicle,
        fleet !! i = Some (producer_name, box) → vehicles cfg !! i = Some vehicle →
        ∃ box' vehicle_config w_i,
          dict_get fleet producer_name = Some box'
          ∧ ProducerManager.vehicle_configs self !! vehicle_name_of vehicle = Some vehicle_config
          ∧ results !! i
              = Some (ProducerManager.start_producer net str_exn _build_config_data
                        dumps_type_error self producer_name box' vehicle_config w_i).1
          ∧ ∃ outcome, results !! i = Some outcome ∧ producer_outcome producer_name outcome.
Proof.
  cbv zeta.
  destruct (start_all_producers_outcomes cfg fleet ips w) as (results & w' & Hrun & Hlen).
  exists results, w'. split_and!; [done..|].
  revert Hrun. unfold ProducerManager.start_all_producers, bind, ret.
  set (self := ProducerManager.__init__ cfg fleet ips). cbv beta.
  destruct (start_paired_runs self
              (zip (ProducerManager.producers self).*1 (ProducerManager.vehicle_names self)) w)
    as (results' & w'' & -> & Hruns).
  { intros producer_name vehicle_name Hin. split.
    - apply dict_get_key. by eapply elem_of_zip_l.
    - apply elem_of_zip_r in Hin. subst self. cbn in *.
      rewrite add_vehicles_names in Hin. by apply add_vehicles_known. }
  intros [= <- <-].
  intros i producer_name box vehicle Hproducer Hvehicle.
  destruct (Hruns i producer_name (vehicle_name_of vehicle))
    as (box' & vehicle_config & w_i & Hbox & Hconfig & Hresult).
  { apply lookup_zip_with_Some. exists producer_name, (vehicle_name_of vehicle).
    split_and!; [done| |].
    - subst self. cbn. by rewrite list_lookup_fmap, Hproducer.
    - subst self. cbn. rewrite add_vehicles_names. cbn.
      by rewrite list_lookup_fmap, Hvehicle. }
  exists box', vehicle_config, w_i. split_and!; [done..|].
  eexists. split; [exact Hresult|]. apply start_producer_outcome.
Qed.

(** ** The loops that stop the workers *)

Lemma ip_stop_is_stop_post container_ip x : asked x = ip_stop container_ip → is_stop_post x.
Proof. intros Hx. by exists container_ip. Qed.

Lemma stop_producer_requests self producer_name box w :
  stop_outcome producer_name (ProducerManager.stop_producer net str_exn self producer_name box w).1
  ∧ ∃ news,
      exchanges (ProducerManager.stop_producer net str_exn self producer_name box w).2
        = exchanges w ++ news
      ∧ (length news ≤ 1)%nat ∧ Forall is_stop_post news.
Proof.
  pose proof (stop_producer_attempt self producer_name box w) as Hstop.
  unfold producer_stop_attempt in Hstop.
  destruct (ProducerManager.containers_ips self !! producer_name) as [[|a container_ip]|].
  - rewrite Hstop. cbn [fst snd]. split; [right; by eexists|].
    exists []. rewrite app_nil_r. split_and!; [done|cbn; lia|constructor].
  - destruct Hstop as (x & Hx & Hex & Hres). split.
    + rewrite Hres. destruct (rejected (answered x)); [right; by eexists|by left].
    + exists [x]. split_and!; [done|cbn; lia|].
      constructor; [by eapply ip_stop_is_stop_post|constructor].
  - rewrite Hstop. cbn [fst snd]. split; [right; by eexists|].
    exists []. rewrite app_nil_r. split_and!; [done|cbn; lia|constructor].
Qed.

Lemma stop_each_producers_requests self names : ∀ w,
  (∀ producer_name, producer_name ∈ names →
     is_Some (dict_get (ProducerManager.producers self) producer_name)) →
  ∃ results w' news,
    ProducerManager.stop_each net str_exn self names w = (Return results, w')
    ∧ Forall2 stop_outcome names results
    ∧ exchanges w' = exchanges w ++ news
    ∧ (length news ≤ length names)%nat ∧ Forall is_stop_post news.
Proof.
  induction names as [|producer_name names IH]; intros w Hkeys.
  { exists [], w, []. rewrite app_nil_r. split_and!; by try constructor. }
  cbn [ProducerManager.stop_each].
  destruct (Hkeys producer_name) as [box ->]; [by left|].
  unfold bind, ret. cbv beta iota zeta.
  destruct (stop_producer_requests self producer_name box w)
    as (Houtcome & news & Hex & Hlen & Hposts).
  destruct (IH (ProducerManager.stop_producer net str_exn self producer_name box w).2)
    as (results & w' & later & -> & Hall & Hex' & Hlen' & Hposts').
  { intros n Hn. apply Hkeys. by right. }
  eexists (_ :: results), w', (news ++ later). split_and!.
  - done.
  - by constructor.
  - by rewrite Hex', Hex, app_assoc.
  - rewrite length_app. cbn [length]. lia.
  - by apply Forall_app.
Qed.

Lemma stop_consumer_requests self consumer_name box w :
  dict_get (ConsumerManager.consumers self) consumer_name = Some box →
  (ConsumerManager.stop_consumer net str_exn self consumer_name w).1 = Return tt
  ∧ ∃ news,
      exchanges (ConsumerManager.stop_consumer net str_exn self consumer_name w).2
        = exchanges w ++ news
      ∧ (length news ≤ 2)%nat ∧ Forall is_stop_post news.
Proof.
  intros Hbox.
  pose proof (stop_consumer_attempts self consumer_name w) as Hstop.
  unfold consumer_stop_attempts in Hstop. rewrite Hbox in Hstop.
  destruct Hstop as [Hreturn Hstop]. split; [done|].
  destruct (attrs_ip_address box) as [container_ip|].
  2:{ destruct Hstop as [Hex _]. exists []. rewrite app_nil_r.
      split_and!; [done|cbn; lia|constructor]. }
  destruct Hstop as (h & Hh & Hstop).
  assert (is_stop_post h) as Hpost by (by exists consumer_name).
  destruct (rejected (answered h)).
  - destruct container_ip as [|a container_ip].
    + destruct Hstop as [Hex _]. exists [h].
      split_and!; [done|cbn; lia|by repeat constructor].
    + destruct Hstop as (f & Hf & Hex & _). exists [h; f].
      split_and!; [done|cbn; lia|].
      repeat constructor; [done|by eapply ip_stop_is_stop_post].
  - destruct Hstop as [Hex _]. exists [h].
    split_and!; [done|cbn; lia|by repeat constructor].
Qed.

Lemma stop_each_consumers_requests self names : ∀ w,
  (∀ consumer_name, consumer_name ∈ names →
     is_Some (dict_get (ConsumerManager.consumers self) consumer_name)) →
  (ConsumerManager.stop_each net str_exn self names w).1 = Return tt
  ∧ ∃ news,
      exchanges (ConsumerManager.stop_each net str_exn self names w).2 = exchanges w ++ news
      ∧ (length news ≤ 2 * length names)%nat ∧ Forall is_stop_post news.
Proof.
  induction names as [|consumer_name names IH]; intros w Hkeys.
  { cbn. split; [done|]. exists []. rewrite app_nil_r. split_and!; by try constructor. }
  cbn [ConsumerManager.stop_each]. unfold bind.
  destruct (Hkeys consumer_name) as [box Hbox]; [by left|].
  destruct (stop_consumer_requests self consumer_name box w Hbox)
    as (Hreturn & news & Hex & Hlen & Hposts).
  destruct (ConsumerManager.stop_consumer net str_exn self consumer_name w) as [res w1];
    cbn [fst snd] in *. subst res.
  destruct (IH w1) as (Hreturn' & later & Hex' & Hlen' & Hposts').
  { intros n Hn. apply Hkeys. by right. }
  split; [done|]. exists (news ++ later). split_and!.
  - by rewrite Hex', Hex, app_assoc.
  - rewrite length_app. cbn [length]. lia.
  - by apply Forall_app.
Qed.

(** X16: the loops that stop the workers send nothing but POSTs to stop
    endpoints.  [stop_all_consumers] never raises and sends at most two for
    each consumer; [stop_all_producers] never raises, sends at most one for
    each producer, and returns "All producers stopped!" with one result
    for each producer, in order, naming it as stopped or as failed. *)
Theorem stop_all_send_only_stop_posts
    (consumer_manager : ConsumerManager.ConsumerManager)
    (producer_manager : ProducerManager.ProducerManager) (w : World) :
  ((ConsumerManager.stop_all_consumers net str_exn consumer_manager w).1 = Return tt
   ∧ ∃ news,
       exchanges (ConsumerManager.stop_all_consumers net str_exn consumer_manager w).2
         = exchanges w ++ news
       ∧ (length news ≤ 2 * length (ConsumerManager.consumers consumer_manager))%nat
       ∧ Forall is_stop_post news)
  ∧ ∃ results w' news,
      ProducerManager.stop_all_producers net str_exn producer_manager w
        = (Return ("All producers stopped!", results), w')
      ∧ Forall2 (λ item outcome, stop_outcome item.1 outcome)
          (ProducerManager.producers producer_manager) results
      ∧ exchanges w' = exchanges w ++ news
      ∧ (length news ≤ length (ProducerManager.producers producer_manager))%nat
      ∧ Forall is_stop_post news.
Proof.
  split.
  - unfold ConsumerManager.stop_all_consumers.
    destruct (stop_each_consumers_requests consumer_manager
                (ConsumerManager.consumers consumer_manager).*1 w) as (Hreturn & news & H).
    { intros n Hn. by apply dict_get_key. }
    split; [done|]. exists news. by rewrite length_fmap in H.
  - unfold ProducerManager.stop_all_producers, bind, ret.
    destruct (stop_each_producers_requests producer_manager
                (ProducerManager.producers producer_manager).*1 w)
      as (results & w' & news & -> & Hall & Hex & Hlen & Hposts).
    { intros n Hn. by apply dict_get_key. }
    exists results, w', news. rewrite length_fmap in Hlen.
    split_and!; [done| |done..].
    rewrite Forall2_fmap_l in Hall. eapply Forall2_impl; [exact Hall|]. by intros.
Qed.

End Managers.

(** ** The class lists of the configurations *)

Lemma producer_expand_other key classes config other :
  key ≠ other → ProducerManager.expand_all key classes config !! other = config !! other.
Proof.
  intros Hne. unfold ProducerManager.expand_all.
  destruct (config !! key) as [value|]; [|done].
  destruct (is_all value); [|done]. by apply lookup_insert_ne.
Qed.

Lemma producer_expand_all key classes config :
  config !! key = Some (JStr "all") →
  ProducerManager.expand_all key classes config !! key = Some (ints classes).
Proof.
  intros H. unfold ProducerManager.expand_all. rewrite H. cbn. apply lookup_insert_eq.
Qed.

Lemma consumer_resolve cfg v :
  has_class_keys cfg v →
  ∃ config, ConsumerManager.resolve cfg v = Return config
    ∧ (ConsumerManager.template cfg v !! "anomaly_classes" = Some (JStr "all") →
       config !! "anomaly_classes" = Some (ints (range 1 19))).
Proof.
  intros [[a Ha] [d Hd]]. unfold ConsumerManager.resolve, ConsumerManager.expand_all.
  rewrite Ha.
  set (config1 := if is_all a then _ else _).
  assert (config1 !! "diagnostics_classes" = Some d) as Hd1.
  { subst config1. destruct (is_all a); [|done]. by rewrite lookup_insert_ne. }
  rewrite Hd1. eexists. split; [done|]. intros Hall. simplify_eq.
  assert (config1 !! "anomaly_classes" = Some (ints (range 1 19))) as Ha1.
  { subst config1. cbn. apply lookup_insert_eq. }
  destruct (is_all d); [|done]. by rewrite lookup_insert_ne.
Qed.

Lemma fill_keeps cfg vs : ∀ configs,
  Forall (has_class_keys cfg) vs →
  ∃ configs', ConsumerManager.fill cfg vs configs = Return configs'
    ∧ ∀ name, name ∉ vehicle_name_of <$> vs → configs' !! name = configs !! name.
Proof.
  induction vs as [|v vs IH]; intros configs Hkeys; [by exists configs|].
  apply Forall_cons in Hkeys as [Hv Hkeys].
  destruct (consumer_resolve cfg v Hv) as (config & Hconfig & _).
  cbn [ConsumerManager.fill]. rewrite Hconfig.
  destruct (IH (<[vehicle_name_of v := config]> configs) Hkeys) as (configs' & -> & Hsame).
  exists configs'. split; [done|]. intros name Hnot.
  rewrite Hsame; [|by intros ?; apply Hnot; right].
  apply lookup_insert_ne. intros Heq. apply Hnot. rewrite <- Heq. by left.
Qed.

Lemma fill_last cfg pre v post : ∀ configs,
  Forall (has_class_keys cfg) (pre ++ v :: post) →
  vehicle_name_of v ∉ vehicle_name_of <$> post →
  ∃ configs' config,
    ConsumerManager.fill cfg (pre ++ v :: post) configs = Return configs'
    ∧ ConsumerManager.resolve cfg v = Return config
    ∧ configs' !! vehicle_name_of v = Some config.
Proof.
  induction pre as [|u pre IH]; intros configs Hkeys Hnot.
  - apply Forall_cons in Hkeys as [Hv Hkeys].
    destruct (consumer_resolve cfg v Hv) as (config & Hconfig & _).
    cbn [app ConsumerManager.fill]. rewrite Hconfig.
    destruct (fill_keeps cfg post (<[vehicle_name_of v := config]> configs) Hkeys)
      as (configs' & -> & Hsame).
    exists configs', config. split_and!; [done..|].
    rewrite Hsame; [|done]. apply lookup_insert_eq.
  - cbn [app] in Hkeys. apply Forall_cons in Hkeys as [Hu Hkeys].
    destruct (consumer_resolve cfg u Hu) as (config & Hconfig & _).
    cbn [app ConsumerManager.fill]. rewrite Hconfig. by apply IH.
Qed.

(** C3: a vehicle whose configuration template holds ["all"] under
    [anomaly_classes] gets the list 0..18 in the producer manager and the
    list 1..18 in the consumer manager.  The vehicle is the last entry of
    [cfg.vehicles] with its name (a later entry of the same name replaces
    the stored configuration), and the consumer manager's constructor
    completes when every entry has the two class keys it subscripts. *)
Theorem anomaly_classes_all_expands_to_ranges
    (cfg : Config) (fleet : list (string * container)) (ips : gmap string string)
    (pre post : list vehicle) (v : vehicle) :
  vehicles cfg = pre ++ v :: post →
  vehicle_name_of v ∉ vehicle_name_of <$> post →
  (ProducerManager.template cfg v !! "anomaly_classes" = Some (JStr "all") →
   ∃ config,
     ProducerManager.vehicle_configs (ProducerManager.__init__ cfg fleet ips)
       !! vehicle_name_of v = Some config
     ∧ config !! "anomaly_classes"
         = Some (ints [0; 1; 2; 3; 4; 5; 6; 7; 8; 9; 10; 11; 12; 13; 14; 15; 16; 17; 18]))
  ∧ (ConsumerManager.template cfg v !! "anomaly_classes" = Some (JStr "all") →
     Forall (has_class_keys cfg) (vehicles cfg) →
     ∃ self config,
       ConsumerManager.__init__ cfg fleet = Return self
       ∧ ConsumerManager.consumer_configs self !! vehicle_name_of v = Some config
       ∧ config !! "anomaly_classes"
           = Some (ints [1; 2; 3; 4; 5; 6; 7; 8; 9; 10; 11; 12; 13; 14; 15; 16; 17; 18])).
Proof.
  intros Hvs Hnot. split.
  - intros Hall. exists (producer_resolved cfg v). split.
    + unfold ProducerManager.__init__. cbn [ProducerManager.vehicle_configs].
      rewrite Hvs. by apply add_vehicles_last.
    + unfold producer_resolved. rewrite producer_expand_other; [|done].
      by rewrite producer_expand_all.
  - intros Hall Hkeys. rewrite Hvs in Hkeys.
    destruct (fill_last cfg pre v post ∅ Hkeys Hnot) as (configs' & config & Hfill & Hres & Hlook).
    unfold ConsumerManager.__init__. rewrite Hvs, Hfill.
    eexists _, config. split_and!; [done..|].
    destruct (consumer_resolve cfg v) as (config' & Hres' & Hclasses).
    { rewrite Forall_app, Forall_cons in Hkeys. tauto. }
    rewrite Hres in Hres'. injection Hres' as <-. by apply Hclasses.
Qed.

(** ** A healthy reply that arrives after the deadline *)

Lemma late_probe_run :
  late_probe.1 = Some "http://v1_producer:5000"
  ∧ Http.clock late_probe.2 = 22000
  ∧ Http.exchanges late_probe.2 =
      [ Http.mkExchange 0 (Http.health_request "http://v1_producer:5000")
          (Http.Response 200 (Some (JDict [])));
        Http.mkExchange 6000 (Http.health_request "http://v1_producer:5000")
          (Http.Response 200 (Some (JDict [])));
        Http.mkExchange 12000 (Http.health_request "http://v1_producer:5000")
          (Http.Response 200 (Some (JDict [])));
        Http.mkExchange 18000 (Http.health_request "http://v1_producer:5000")
          (Http.Response 200 (Some (JDict [("running", JBool true)]))) ].
Proof. split_and!; vm_compute; reflexivity. Qed.

(** Where the claim as worded fails: the probe begins at 0, so the
    deadline of its candidate is at 20000.  The fourth poll is sent at
    18000, before the deadline; its reply, a 200 with the marker key
    "running", arrives at 22000, after the deadline, and the candidate is
    returned all the same. *)
Lemma late_reply_is_accepted :
  ¬ accepted_as_specified 20000 0 (Http.exchanges late_probe.2) late_probe.1
      (Http.clock late_probe.2).
Proof.
  unfold accepted_as_specified. destruct late_probe_run as (-> & -> & _).
  intros H. destruct H as [Hlate _]; [by eexists|]. lia.
Qed.

(** A reply whose status is not an error status passes the health check
    with a marker key in its body, also when the status is not a 2xx:
    [ok] is false for the statuses 400 to 599 only. *)
Example multiple_choices_reply_is_healthy :
  Http.healthy ["running"; "config_loaded"; "vehicle"]
    (Http.Response 300 (Some (JDict [("running", JBool true)]))) = true.
Proof. reflexivity. Qed.

(** ** A worker that answers 304 to every POST *)

Lemma not_modified_run_exchanges :
  Http.exchanges not_modified_run.2 =
  [ Http.mkExchange 2000 (Http.health_request "http://v1_consumer:5000")
      (Http.Response 200 (Some (JDict [("running", JBool true)])));
    Http.mkExchange 2005 (post_request "http://v1_consumer:5000/configure" (JDict []))
      (Http.Response 304 None);
    Http.mkExchange 2010 (post_request "http://v1_consumer:5000/start" (JDict []))
      (Http.Response 304 None) ]
  ∧ not_modified_run.1 = "Consumer v1_consumer started successfully".
Proof. split; vm_compute; reflexivity. Qed.

(** Where the claim as worded fails: configure is answered 304, not a 2xx,
    and the start is posted all the same. *)
Lemma start_posted_after_304_configure :
  ¬ start_follows_configure is_2xx (Http.exchanges not_modified_run.2).
Proof.
  destruct not_modified_run_exchanges as [-> _]. intros H.
  edestruct (H [_; _] _ [] eq_refl) as (earlier & c & Hbefore & _ & H2xx).
  { by exists "http://v1_consumer:5000". }
  change [?x; ?y] with ([x] ++ [y]) in Hbefore.
  apply app_inj_tail in Hbefore as [_ <-]. cbn in H2xx. lia.
Qed.

(** ** Stopping a producer whose address is known *)

Lemma producer_stop_run_exchanges :
  Http.exchanges producer_stop_run.2 =
  [ Http.mkExchange 0 (ip_stop "172.18.0.5") (Http.Response 304 None) ]
  ∧ producer_stop_run.1 = "Producer v1_producer stopped successfully".
Proof. split; vm_compute; reflexivity. Qed.

(** Where the claim as worded fails: the producer is stopped at its
    address; no request goes to its host name. *)
Lemma producer_stop_skips_the_hostname :
  ¬ stops_by_name_first "v1_producer" (Http.exchanges producer_stop_run.2).
Proof.
  destruct producer_stop_run_exchanges as [-> _].
  intros (x & rest & Heq & Hx). injection Heq as <- _. discriminate.
Qed.

(** ** Two vehicles, one with entries of its own *)

Lemma anomaly_classes_all_expands_for_v1 :
  (∃ config,
     ProducerManager.vehicle_configs (ProducerManager.__init__ two_vehicles_cfg [] ∅)
       !! "v1" = Some config
     ∧ config !! "anomaly_classes"
         = Some (ints [0; 1; 2; 3; 4; 5; 6; 7; 8; 9; 10; 11; 12; 13; 14; 15; 16; 17; 18]))
  ∧ (∃ self config,
       ConsumerManager.__init__ two_vehicles_cfg [] = Return self
       ∧ ConsumerManager.consumer_configs self !! "v1" = Some config
       ∧ config !! "anomaly_classes"
           = Some (ints [1; 2; 3; 4; 5; 6; 7; 8; 9; 10; 11; 12; 13; 14; 15; 16; 17; 18])).
Proof.
  destruct (anomaly_classes_all_expands_to_ranges two_vehicles_cfg [] ∅ []
              [Overridden "v2" {["anomaly_classes" := ints [3; 4]]}] (Named "v1"))
    as [Hproducer Hconsumer].
  - reflexivity.
  - cbn. intros Hin. apply list_elem_of_singleton in Hin. discriminate.
  - split.
    + apply Hproducer. vm_compute. reflexivity.
    + apply Hconsumer.
      * vm_compute. reflexivity.
      * repeat constructor; vm_compute; eexists; reflexivity.
Defined.

(** ** The text of a broker error, split and joined again *)

Lemma string_app_nil_r (s : string) : s +:+ EmptyString = s.
Proof.
  induction s as [|a s IH]; [done|].
  change (String a (s +:+ EmptyString) = String a s). by rewrite IH.
Qed.

Lemma split_then_join s :
  (∀ cur, join_colon_space (split_colon_space s cur) = cur +:+ s)
  ∧ (∀ a cur, join_colon_space (split_colon_space (String a s) cur) = cur +:+ String a s).
Proof.
  induction s as [|b s [IH1 IH2]].
  - split; intros; cbn; [by rewrite string_app_nil_r|done].
  - split; [intros cur; apply IH2|]. intros a cur.
    change (split_colon_space (String a (String b s)) cur)
      with (if Ascii.eqb a ":" && Ascii.eqb b " "
            then cur :: split_colon_space s EmptyString
            else split_colon_space (String b s) (cur +:+ String a EmptyString)).
    destruct (Ascii.eqb a ":" && Ascii.eqb b " ") eqn:Hsep.
    + apply andb_prop in Hsep as [->%Ascii.eqb_eq ->%Ascii.eqb_eq].
      pose proof (IH1 EmptyString) as Hrest.
      destruct (split_colon_space_cons s EmptyString) as (field & fields & Hsplit).
      rewrite Hsplit in *.
      change (join_colon_space (cur :: field :: fields))
        with (cur +:+ ": " +:+ join_colon_space (field :: fields)).
      by rewrite Hrest.
    + rewrite IH2, string_append_assoc. done.
Qed.

(** X6: the model of [str.split(': ')] loses nothing: joining the fields
    with colon-space gives the text back, there is always a first field,
    and there is a second one, which the error handling subscripts, exactly
    when the text contains colon-space. *)
Theorem split_colon_space_round_trip (s : string) :
  join_colon_space (split_colon_space s EmptyString) = s
  ∧ (∃ field fields, split_colon_space s EmptyString = field :: fields)
  ∧ (is_Some (split_colon_space s EmptyString !! 1%nat) ↔ has_colon_space s = true)
  ∧ (has_colon_space s = false ↔ split_colon_space s EmptyString = [s]).
Proof.
  pose proof (split_then_join s) as [Hjoin _]. specialize (Hjoin EmptyString).
  pose proof (split_second_field s EmptyString) as Hsecond.
  destruct (split_colon_space_cons s EmptyString) as (field & fields & Hsplit).
  split_and!; [done|by eauto|done|].
  rewrite Hsplit in *. split.
  - intros Hno. destruct fields as [|second fields].
    + cbn in Hjoin. by subst.
    + destruct Hsecond as [Hsecond _]. rewrite Hsecond in Hno; [done|by eexists].
  - intros [= -> ->]. destruct (has_colon_space s); [|done].
    destruct Hsecond as [_ Hsecond]. by destruct (Hsecond eq_refl).
Qed.

(** ** A run of the reading loop over benign replies *)


(** ** What the constructors store *)

Lemma producer_expand_same key classes config :
  ProducerManager.expand_all key classes config !! key
  = (λ value, if is_all value then ints classes else value) <$> config !! key.
Proof.
  unfold ProducerManager.expand_all.
  destruct (config !! key) as [value|] eqn:Hkey; [|by rewrite Hkey].
  cbn. destruct (is_all value); [by rewrite lookup_insert_eq|done].
Qed.

Lemma add_vehicles_domain cfg vs name :
  is_Some ((foldl (ProducerManager.add_vehicle cfg) ([], ∅) vs).2 !! name)
  ↔ name ∈ vehicle_name_of <$> vs.
Proof.
  split; [|apply add_vehicles_known].
  intros Hsome. destruct (decide (name ∈ vehicle_name_of <$> vs)) as [|Hnot]; [done|].
  rewrite add_vehicles_keeps in Hsome; [|done]. cbn in Hsome.
  rewrite lookup_empty in Hsome. by destruct Hsome.
Qed.

(** X17: for a configuration whose vehicle entries are names or one-key
    mappings from the name to a mapping of overrides, the manager the
    producer manager's constructor builds keeps the vehicle names in the
    order of [cfg.vehicles] and stores a configuration under exactly those
    names; the one stored for a name is that of its last entry: the
    entry's own values over the defaults, with the value "all" replaced by
    0..18 under [anomaly_classes] and by 1..14 under
    [diagnostics_classes], any other value of these keys kept, and the
    keys left absent when neither the entry nor the defaults have them. *)
Theorem producer_init_stores_every_vehicle
    (cfg : Config) (fleet : list (string * container)) (ips : gmap string string) :
  let self := ProducerManager.__init__ cfg fleet ips in
  ProducerManager.producers self = fleet
  ∧ ProducerManager.containers_ips self = ips
  ∧ ProducerManager.vehicle_names self = vehicle_name_of <$> vehicles cfg
  ∧ (∀ name, is_Some (ProducerManager.vehicle_configs self !! name)
             ↔ name ∈ vehicle_name_of <$> vehicles cfg)
  ∧ ∀ pre v post,
      vehicles cfg = pre ++ v :: post →
      vehicle_name_of v ∉ vehicle_name_of <$> post →
      ∃ config,
        ProducerManager.vehicle_configs self !! vehicle_name_of v = Some config
        ∧ (∀ key, key ≠ "anomaly_classes" → key ≠ "diagnostics_classes" →
             config !! key = ProducerManager.template cfg v !! key)
        ∧ config !! "anomaly_classes"
            = (λ value, if is_all value then ints (range 0 19) else value)
                <$> ProducerManager.template cfg v !! "anomaly_classes"
        ∧ config !! "diagnostics_classes"
            = (λ value, if is_all value then ints (range 1 15) else value)
                <$> ProducerManager.template cfg v !! "diagnostics_classes"
        ∧ ∀ key, ProducerManager.template cfg v !! key
                 = match v with
                   | Named _ => default_vehicle_config cfg !! key
                   | Overridden _ overrides =>
                       match overrides !! key with
                       | Some value => Some value
                       | None => default_vehicle_config cfg !! key
                       end
                   end.
Proof.
  cbv zeta. unfold ProducerManager.__init__.
  cbn [ProducerManager.producers ProducerManager.containers_ips
         ProducerManager.vehicle_configs ProducerManager.vehicle_names].
  split_and!; [done|done|by rewrite add_vehicles_names|apply add_vehicles_domain|].
  intros pre v post Hvehicles Hlast. rewrite Hvehicles.
  exists (producer_resolved cfg v). split_and!.
  - by apply add_vehicles_last.
  - intros key Ha Hd. unfold producer_resolved.
    rewrite !producer_expand_other; done.
  - unfold producer_resolved.
    rewrite producer_expand_other; [|done]. apply producer_expand_same.
  - unfold producer_resolved.
    rewrite producer_expand_same, producer_expand_other; done.
  - intros key. destruct v as [name|name overrides]; [done|].
    cbn [ProducerManager.template]. rewrite lookup_union.
    destruct (overrides !! key), (default_vehicle_config cfg !! key); done.
Qed.








(** ** The vehicle a consumer is configured as *)

Lemma before_char_append sep (s rest : string) :
  before_char sep (s +:+ String sep rest) = before_char sep s.
Proof.
  induction s as [|a s IH].
  - change (EmptyString +:+ String sep rest) with (String sep rest).
    cbn [before_char]. by rewrite Ascii.eqb_refl.
  - change (String a s +:+ String sep rest) with (String a (s +:+ String sep rest)).
    cbn [before_char]. destruct (Ascii.eqb a sep); [done|]. by rewrite IH.
Qed.

Section Compositions.
Import Http.

Variable net : network.
Variable str_exn : exn → string.
Variable cfg_payload : gmap string json → string → py_result json.
Variable json_error_is_request_exception : bool.

(** X19: a consumer container is called <vehicle>_<suffix>, and
    [start_consumer] reads the configuration stored under the text before
    the first underscore of that name, which is the text before the first
    underscore of <vehicle>.  The constructor stores the configurations
    under the full vehicle names, so the consumer of a vehicle whose name
    has an underscore is not started when that prefix is no vehicle name:
    the KeyError is logged and returned, and no request is sent. *)
Theorem consumer_is_looked_up_by_name_prefix
    (cfg : Config) (fleet : list (string * container))
    (vehicle suffix : string) (box : container) (w : World) :
  Forall (has_class_keys cfg) (vehicles cfg) →
  before_char "_" vehicle ∉ vehicle_name_of <$> vehicles cfg →
  let consumer_name := vehicle +:+ "_" +:+ suffix in
  before_char "_" consumer_name = before_char "_" vehicle
  ∧ ∃ self,
      ConsumerManager.__init__ cfg fleet = Return self
      ∧ ConsumerManager.start_consumer net str_exn cfg_payload self consumer_name box w
        = (consumer_failed str_exn consumer_name (KeyError (before_char "_" vehicle)),
           say_all [(ERROR, consumer_failed str_exn consumer_name
                              (KeyError (before_char "_" vehicle)))] w).
Proof.
  intros Hkeys Hprefix. cbv zeta.
  assert (before_char "_" (vehicle +:+ "_" +:+ suffix) = before_char "_" vehicle) as Hname
    by apply before_char_append.
  split; [done|].
  destruct (fill_keeps cfg (vehicles cfg) ∅ Hkeys) as (configs & Hfill & Hsame).
  unfold ConsumerManager.__init__. rewrite Hfill. eexists. split; [done|].
  unfold ConsumerManager.start_consumer, ConsumerManager.start_consumer_body.
  cbn [ConsumerManager.consumer_configs]. rewrite Hname, Hsame, lookup_empty; done.
Qed.

(** ** The status queries *)

Lemma get_producer_status_asks self producer_name box w :
  let r := ProducerStatus.get_producer_status net str_exn json_error_is_request_exception
             self producer_name box w in
  logged r.2 = logged w
  ∧ match ProducerManager.containers_ips self !! producer_name with
    | None | Some EmptyString =>
        r = (Return (ProducerStatus.error_dict "Container IP not found"), w)
    | Some container_ip =>
        ∃ x, asked x = get_request ("http://" +:+ container_ip +:+ ":5000/status")
          ∧ exchanges r.2 = exchanges w ++ [x]
          ∧ r.1 = match answered x with
                  | Unreachable detail =>
                      Return (ProducerStatus.error_dict (str_exn (RequestException detail)))
                  | Response status_code body =>
                      if is_error status_code
                      then Return (ProducerStatus.error_dict
                                     (str_exn (HTTPError status_code
                                                 ("http://" +:+ container_ip +:+ ":5000/status"))))
                      else match body with
                           | Some data => Return data
                           | None =>
                               if json_error_is_request_exception
                               then Return (ProducerStatus.error_dict (str_exn JSONDecodeError))
                               else Raise JSONDecodeError
                           end
                  end
    end.
Proof.
  cbv zeta. unfold ProducerStatus.get_producer_status.
  destruct (ProducerManager.containers_ips self !! producer_name)
    as [[|a container_ip]|]; [done| |done].
  cbv zeta.
  assert (("http://" +:+ String a container_ip +:+ ":5000") +:+ "/status"
          = "http://" +:+ String a container_ip +:+ ":5000/status") as ->
    by (by rewrite !string_append_assoc).
  set (target := "http://" +:+ String a container_ip +:+ ":5000/status").
  pose proof (checked_logged net (get_request target) w) as Hlog.
  destruct (checked_exchange net (get_request target) w) as (x & Hx & Hex & Hres).
  unfold get. fold (get_request target).
  destruct (checked net (get_request target) w) as [res w1]; cbn [fst snd] in *. subst res.
  split.
  - destruct (answered x) as [status_code body|detail]; cbn [rejected].
    + destruct (is_error status_code); [done|].
      destruct body; [done|]. by destruct json_error_is_request_exception.
    + done.
  - exists x. split; [done|].
    destruct (answered x) as [status_code body|detail]; cbn [rejected rejection].
    + destruct (is_error status_code); [by split|].
      destruct body; [by split|]. by destruct json_error_is_request_exception.
    + by split.
Qed.

Lemma get_producer_status_requests self producer_name box w :
  let r := ProducerStatus.get_producer_status net str_exn json_error_is_request_exception
             self producer_name box w in
  logged r.2 = logged w
  ∧ (json_error_is_request_exception = true → ∃ status, r.1 = Return status)
  ∧ (∀ e, r.1 = Raise e → e = JSONDecodeError)
  ∧ ∃ news, exchanges r.2 = exchanges w ++ news
      ∧ (length news ≤ 1)%nat ∧ Forall is_status_get news.
Proof.
  cbv zeta.
  destruct (get_producer_status_asks self producer_name box w) as [Hlog Hcases].
  split; [done|].
  destruct (ProducerManager.containers_ips self !! producer_name) as [[|a container_ip]|].
  - rewrite Hcases. cbn [fst snd]. split_and!; [by eexists|done|].
    exists []. rewrite app_nil_r. split_and!; [done|cbn; lia|constructor].
  - destruct Hcases as (x & Hx & Hex & Hres). rewrite Hres. split_and!.
    + intros ->. destruct (answered x) as [status_code body|detail]; [|by eexists].
      destruct (is_error status_code); [by eexists|]. destruct body; by eexists.
    + intros e. destruct (answered x) as [status_code body|detail]; [|done].
      destruct (is_error status_code); [done|]. destruct body; [done|].
      destruct json_error_is_request_exception; [done|]. by intros [= <-].
    + exists [x]. split_and!; [done|cbn; lia|].
      constructor; [by eexists|constructor].
  - rewrite Hcases. cbn [fst snd]. split_and!; [by eexists|done|].
    exists []. rewrite app_nil_r. split_and!; [done|cbn; lia|constructor].
Qed.

Lemma status_each_requests self items : ∀ w,
  let r := ProducerStatus.status_each net str_exn json_error_is_request_exception
             self items w in
  logged r.2 = logged w
  ∧ (json_error_is_request_exception = true →
     ∃ statuses, r.1 = Return statuses ∧ statuses.*1 = items.*1)
  ∧ (∀ statuses, r.1 = Return statuses → statuses.*1 = items.*1)
  ∧ (∀ e, r.1 = Raise e → e = JSONDecodeError)
  ∧ ∃ news, exchanges r.2 = exchanges w ++ news
      ∧ (length news ≤ length items)%nat ∧ Forall is_status_get news.
Proof.
  induction items as [|[producer_name box] items IH]; intros w; cbv zeta.
  { cbn. split_and!; [done|by eexists|by intros ? [= <-]|done|].
    exists []. rewrite app_nil_r. split_and!; [done|cbn; lia|constructor]. }
  cbn [ProducerStatus.status_each]. unfold bind, ret.
  destruct (get_producer_status_requests self producer_name box w)
    as (Hlog & Htotal & Hraise & news & Hex & Hlen & Hgets).
  destruct (ProducerStatus.get_producer_status net str_exn json_error_is_request_exception
              self producer_name box w) as [[status|e] w1]; cbn [fst snd] in *.
  - destruct (IH w1) as (Hlog' & Htotal' & Hkeys' & Hraise' & later & Hex' & Hlen' & Hgets').
    destruct (ProducerStatus.status_each net str_exn json_error_is_request_exception
                self items w1) as [[statuses|e] w2]; cbn [fst snd] in *.
    + split_and!.
      * congruence.
      * intros _. eexists. split; [done|]. cbn. f_equal. by apply Hkeys'.
      * intros ? [= <-]. cbn. f_equal. by apply Hkeys'.
      * done.
      * exists (news ++ later). split_and!;
          [by rewrite Hex', Hex, app_assoc|rewrite length_app; cbn [length]; lia|by apply Forall_app].
    + split_and!.
      * congruence.
      * intros Hflag. destruct (Htotal' Hflag) as (? & ? & _). done.
      * done.
      * intros ? [= <-]. by apply Hraise'.
      * exists (news ++ later). split_and!;
          [by rewrite Hex', Hex, app_assoc|rewrite length_app; cbn [length]; lia|by apply Forall_app].
  - split_and!.
    + done.
    + intros Hflag. destruct (Htotal Hflag) as (? & ?). done.
    + done.
    + intros ? [= <-]. by apply Hraise.
    + exists news. split_and!; [done|cbn [length]; lia|done].
Qed.

(** X20: [get_producer_status] logs nothing and sends at most one request:
    none when [containers_ips] has no address for the producer, which gives
    the dict with "Container IP not found" under "error", and otherwise one
    GET of the status endpoint at that address.  It returns the body of an
    accepted reply, and the text of the exception under "error" for a
    refused request or an error status.  [get_all_producer_statuses]
    logs nothing and sends only such GETs, at most one for each producer;
    when it returns, the dict has the producers' names as keys, in order;
    it can only raise the exception of a reply whose body is not JSON, and
    not even that when this exception is a RequestException. *)
Theorem producer_statuses_ask_each_producer_once
    (self : ProducerManager.ProducerManager) (producer_name : string) (box : container)
    (w : World) :
  let one := ProducerStatus.get_producer_status net str_exn json_error_is_request_exception
               self producer_name box w in
  let all := ProducerStatus.get_all_producer_statuses net str_exn
               json_error_is_request_exception self w in
  (logged one.2 = logged w
   ∧ match ProducerManager.containers_ips self !! producer_name with
     | None | Some EmptyString =>
         one = (Return (ProducerStatus.error_dict "Container IP not found"), w)
     | Some container_ip =>
         ∃ x, asked x = get_request ("http://" +:+ container_ip +:+ ":5000/status")
           ∧ exchanges one.2 = exchanges w ++ [x]
           ∧ (rejected (answered x) = true →
              one.1 = Return (ProducerStatus.error_dict
                                (str_exn (rejection (asked x) (answered x)))))
           ∧ (∀ status_code data,
                answered x = Response status_code (Some data) →
                is_error status_code = false → one.1 = Return data)
     end)
  ∧ logged all.2 = logged w
  ∧ (∃ news, exchanges all.2 = exchanges w ++ news
       ∧ (length news ≤ length (ProducerManager.producers self))%nat
       ∧ Forall is_status_get news)
  ∧ (∀ statuses, all.1 = Return statuses →
       ∃ entries, statuses = JDict entries
                  ∧ entries.*1 = (ProducerManager.producers self).*1)
  ∧ (∀ e, all.1 = Raise e → e = JSONDecodeError)
  ∧ (json_error_is_request_exception = true → ∃ statuses, all.1 = Return statuses).
Proof.
  cbv zeta. split.
  - destruct (get_producer_status_asks self producer_name box w) as [Hlog Hcases].
    split; [done|].
    destruct (ProducerManager.containers_ips self !! producer_name)
      as [[|a container_ip]|]; [done| |done].
    destruct Hcases as (x & Hx & Hex & Hres). exists x. split_and!; [done..| |].
    + rewrite Hres, Hx. destruct (answered x) as [status_code body|detail]; cbn; [|done].
      by intros ->.
    + intros status_code data Hanswer Hok. by rewrite Hres, Hanswer, Hok.
  - unfold ProducerStatus.get_all_producer_statuses, bind, ret.
    destruct (status_each_requests self (ProducerManager.producers self) w)
      as (Hlog & Htotal & Hkeys & Hraise & news & Hex & Hlen & Hgets).
    destruct (ProducerStatus.status_each net str_exn json_error_is_request_exception self
                (ProducerManager.producers self) w) as [[statuses|e] w1]; cbn [fst snd] in *.
    + split_and!; [done|by exists news| |done|by eexists].
      intros ? [= <-]. eexists. split; [done|]. by apply Hkeys.
    + split_and!; [done|by exists news|done| |].
      * intros ? [= <-]. by apply Hraise.
      * intros Hflag. destruct (Htotal Hflag) as (? & ? & _). done.
Qed.

End Compositions.

(** ** The data of the configure request *)

Lemma convert_plain_data (obj : json) :
  ProducerConfigData._convert_to_json_serializable obj = obj.
Proof.
  revert obj. fix IH 1. intros [| | | | |items|entries]; try reflexivity.
  - cbn [ProducerConfigData._convert_to_json_serializable]. f_equal.
    induction items as [|item items IHitems]; [reflexivity|].
    cbn [List.map]. by rewrite IH, IHitems.
  - cbn [ProducerConfigData._convert_to_json_serializable]. f_equal.
    induction entries as [|[key value] entries IHentries]; [reflexivity|].
    cbn [List.map]. by rewrite IH, IHentries.
Qed.

Lemma convert_plain_dict (d : gmap string json) :
  ProducerConfigData._convert_to_json_serializable <$> d = d.
Proof.
  rewrite <- (map_fmap_id d) at 2. apply map_fmap_ext. intros key value _.
  apply convert_plain_data.
Qed.

Lemma build_config_data_plain settings vehicle_config vehicle_name :
  ProducerConfigData._build_config_data settings vehicle_config vehicle_name =
  Return (JDict
    [ ("vehicle_name", JStr vehicle_name);
      ("kafka_broker",
         ProducerConfigData.dict_get_default vehicle_config "kafka_broker" (JStr "kafka:9092"));
      ("logging_level", ProducerConfigData.logging_level settings);
      ("manager_port", ProducerConfigData.manager_port settings);
      ("mode", ProducerConfigData.mode settings);
      ("target_ip",
         ProducerConfigData.dict_get_default (ProducerConfigData.attack_config settings)
           "target_ip" (JStr "172.18.0.4"));
      ("target_port",
         ProducerConfigData.dict_get_default (ProducerConfigData.attack_config settings)
           "target_port" (JInt 80));
      ("bot_port",
         ProducerConfigData.dict_get_default (ProducerConfigData.attack_config settings)
           "bot_port" (JInt 5002));
      ("probe_frequency_seconds",
         ProducerConfigData.dict_get_default vehicle_config "probe_frequency_seconds" (JInt 2));
      ("ping_thread_timeout",
         ProducerConfigData.dict_get_default vehicle_config "ping_thread_timeout" (JInt 5));
      ("ping_host",
         ProducerConfigData.dict_get_default vehicle_config "ping_host" (JStr "www.google.com"));
      ("duration",
         ProducerConfigData.dict_get_default (ProducerConfigData.attack_config settings)
           "duration" (JInt 0));
      ("packet_size",
         ProducerConfigData.dict_get_default (ProducerConfigData.attack_config settings)
           "packet_size" (JInt 1024));
      ("delay",
         ProducerConfigData.dict_get_default (ProducerConfigData.attack_config settings)
           "delay" (JFloat ProducerConfigData.delay_default));
      ("mu_anomalies",
         ProducerConfigData.dict_get_default vehicle_config "mu_anomalies" (JInt 157));
      ("mu_normal", ProducerConfigData.dict_get_default vehicle_config "mu_normal" (JInt 115));
      ("alpha",
         ProducerConfigData.dict_get_default vehicle_config "alpha"
           (JFloat ProducerConfigData.alpha_default));
      ("beta",
         ProducerConfigData.dict_get_default vehicle_config "beta"
           (JFloat ProducerConfigData.beta_default));
      ("time_emulation",
         ProducerConfigData.dict_get_default vehicle_config "time_emulation" (JBool false));
      ("probe_metrics", ProducerConfigData.probe_metrics settings);
      ("anomaly_classes",
         ProducerConfigData.dict_get_default vehicle_config "anomaly_classes"
           (ints (range 0 19)));
      ("diagnostics_classes",
         ProducerConfigData.dict_get_default vehicle_config "diagnostics_classes"
           (ints (range 0 15))) ]).
Proof.
  unfold ProducerConfigData._build_config_data. cbv zeta.
  by rewrite !convert_plain_dict, !convert_plain_data.
Qed.

(** X21: on plain data [_convert_to_json_serializable] changes nothing,
    and [_build_config_data] never raises: it returns a dict with the same
    22 keys in the same order whatever the vehicle configuration holds, so
    an entry of the vehicle under any other key is not sent.  The name is
    the one it was handed; each key read from the vehicle or from the
    attack configuration carries the value found there, or its default
    when the key is missing; the logging level, the port, the mode and
    the probe metrics are the manager's. *)
Theorem build_config_data_has_fixed_keys
    (settings : ProducerConfigData.Settings) (vehicle_config : gmap string json)
    (vehicle_name : string) :
  (∀ obj, ProducerConfigData._convert_to_json_serializable obj = obj)
  ∧ ∃ entries,
      ProducerConfigData._build_config_data settings vehicle_config vehicle_name
        = Return (JDict entries)
      ∧ entries.*1 = config_data_keys
      ∧ dict_get entries "vehicle_name" = Some (JStr vehicle_name)
      ∧ (∀ key default, (key, default) ∈ vehicle_defaults →
           dict_get entries key
           = Some (match vehicle_config !! key with Some value => value | None => default end))
      ∧ (∀ key default, (key, default) ∈ attack_defaults →
           dict_get entries key
           = Some (match ProducerConfigData.attack_config settings !! key with
                   | Some value => value
                   | None => default
                   end))
      ∧ dict_get entries "logging_level" = Some (ProducerConfigData.logging_level settings)
      ∧ dict_get entries "manager_port" = Some (ProducerConfigData.manager_port settings)
      ∧ dict_get entries "mode" = Some (ProducerConfigData.mode settings)
      ∧ dict_get entries "probe_metrics" = Some (ProducerConfigData.probe_metrics settings).
Proof.
  split; [apply convert_plain_data|].
  eexists. split; [apply build_config_data_plain|].
  split_and!; try reflexivity.
  - intros key default Hin. unfold vehicle_defaults in Hin.
    repeat (apply elem_of_cons in Hin as [[= -> ->]|Hin]; [reflexivity|]).
    by apply elem_of_nil in Hin.
  - intros key default Hin. unfold attack_defaults in Hin.
    repeat (apply elem_of_cons in Hin as [[= -> ->]|Hin]; [reflexivity|]).
    by apply elem_of_nil in Hin.
Qed.

(** X22: what a producer is sent as its classes depends on how the key is
    missing.  For the last entry of a vehicle in [cfg.vehicles], the data
    built from the configuration the constructor stored carries, under
    [anomaly_classes], 0..18 both when the vehicle has no such key and when
    it holds "all"; under [diagnostics_classes] it carries 0..14 when the
    vehicle has no such key but 1..14 when it holds "all"; any other value
    is sent as it is. *)
Theorem classes_sent_to_a_producer
    (settings : ProducerConfigData.Settings) (cfg : Config)
    (fleet : list (string * container)) (ips : gmap string string)
    (pre post : list vehicle) (v : vehicle) (name : string) :
  vehicles cfg = pre ++ v :: post →
  vehicle_name_of v ∉ vehicle_name_of <$> post →
  ∃ config entries,
    ProducerManager.vehicle_configs (ProducerManager.__init__ cfg fleet ips)
      !! vehicle_name_of v = Some config
    ∧ ProducerConfigData._build_config_data settings config name = Return (JDict entries)
    ∧ dict_get entries "anomaly_classes"
        = Some (classes_sent (range 0 19) (range 0 19)
                  (ProducerManager.template cfg v !! "anomaly_classes"))
    ∧ dict_get entries "diagnostics_classes"
        = Some (classes_sent (range 0 15) (range 1 15)
                  (ProducerManager.template cfg v !! "diagnostics_classes")).
Proof.
  intros Hvehicles Hlast.
  exists (producer_resolved cfg v). eexists. split_and!.
  - unfold ProducerManager.__init__. cbn [ProducerManager.vehicle_configs].
    rewrite Hvehicles. by apply add_vehicles_last.
  - apply build_config_data_plain.
  - change (Some (ProducerConfigData.dict_get_default (producer_resolved cfg v)
                    "anomaly_classes" (ints (range 0 19))) = 
            Some (classes_sent (range 0 19) (range 0 19)
                    (ProducerManager.template cfg v !! "anomaly_classes"))).
    f_equal. unfold ProducerConfigData.dict_get_default, producer_resolved, classes_sent.
    rewrite producer_expand_other; [|done]. rewrite producer_expand_same.
    by destruct (ProducerManager.template cfg v !! "anomaly_classes").
  - change (Some (ProducerConfigData.dict_get_default (producer_resolved cfg v)
                    "diagnostics_classes" (ints (range 0 15))) = 
            Some (classes_sent (range 0 15) (range 1 15)
                    (ProducerManager.template cfg v !! "diagnostics_classes"))).
    f_equal. unfold ProducerConfigData.dict_get_default, producer_resolved, classes_sent.
    rewrite producer_expand_same, producer_expand_other; [|done].
    by destruct (ProducerManager.template cfg v !! "diagnostics_classes").
Qed.

(** ** Runs against the worker that answers 304 *)

Lemma consumer_is_configured_with_its_vehicle_payload_at_v1 :
  ∃ polls c rest,
    Http.exchanges not_modified_run.2 = Http.exchanges midnight ++ polls ++ c :: rest
    ∧ Forall is_get polls ∧ polls ≠ []
    ∧ Http.asked c = post_request ("http://v1_consumer:5000" +:+ "/configure") (JDict []).
Proof.
  destruct (consumer_is_configured_with_its_vehicle_payload not_modified_net no_text
              empty_payload one_consumer "v1_consumer" (WithIPAddress "172.18.0.9")
              midnight ∅ "172.18.0.9" "http://v1_consumer:5000") as [_ H].
  - vm_compute. reflexivity.
  - reflexivity.
  - vm_compute. reflexivity.
  - exact H.
Defined.

Lemma producer_is_configured_with_the_built_data_at_v1 :
  (∃ lines,
     Http.logged built_start_run.2
     = Http.logged (ProducerManager.pick_api_url not_modified_net
                      ["http://v1_producer:5000"; "http://172.18.0.5:5000"] midnight).2
         ++ ProducerConfigData.debug_records plain_settings ++ lines)
  ∧ ∃ config_data polls c rest,
      ProducerConfigData._build_config_data plain_settings ∅ "v1" = Return config_data
      ∧ Http.exchanges built_start_run.2 = Http.exchanges midnight ++ polls ++ c :: rest
      ∧ Forall is_get polls ∧ polls ≠ []
      ∧ Http.asked c = post_request ("http://v1_producer:5000" +:+ "/configure") config_data.
Proof.
  destruct (producer_is_configured_with_the_built_data not_modified_net no_text
              (ProducerConfigData.build_and_log plain_settings) always_serializable
              one_producer "v1_producer"
              (WithIPAddress "172.18.0.5") ∅ midnight "1"%char "72.18.0.5"
              "http://v1_producer:5000") as (_ & Hlog & H).
  - vm_compute. reflexivity.
  - vm_compute. reflexivity.
  - split; [exact Hlog|].
    eexists. destruct H as (polls & c & rest & H). exists polls, c, rest.
    split; [reflexivity|exact H].
Defined.

(** ** The vehicle "my_car" *)

Lemma consumer_of_my_car_is_not_started :
  before_char "_" ("my_car" +:+ "_" +:+ "consumer") = before_char "_" "my_car"
  ∧ ∃ self,
      ConsumerManager.__init__ underscored_cfg underscored_fleet = Return self
      ∧ underscored_run self
        = (consumer_failed no_text ("my_car" +:+ "_" +:+ "consumer")
             (KeyError (before_char "_" "my_car")),
           Http.say_all
             [(ERROR, consumer_failed no_text ("my_car" +:+ "_" +:+ "consumer")
                        (KeyError (before_char "_" "my_car")))] midnight).
Proof.
  apply (consumer_is_looked_up_by_name_prefix not_modified_net no_text empty_payload
           underscored_cfg underscored_fleet "my_car" "consumer"
           (WithIPAddress "172.18.0.9") midnight).
  - repeat constructor; vm_compute; eexists; reflexivity.
  - cbn. intros Hin. apply list_elem_of_singleton in Hin. discriminate.
Defined.

(** ** The classes sent for "v1" *)

Lemma classes_sent_to_the_producer_of_v1 :
  ∃ config entries,
    ProducerManager.vehicle_configs (ProducerManager.__init__ two_vehicles_cfg [] ∅)
      !! "v1" = Some config
    ∧ ProducerConfigData._build_config_data plain_settings config "v1"
        = Return (JDict entries)
    ∧ dict_get entries "anomaly_classes"
        = Some (classes_sent (range 0 19) (range 0 19)
                  (ProducerManager.template two_vehicles_cfg (Named "v1") !! "anomaly_classes"))
    ∧ dict_get entries "diagnostics_classes"
        = Some (classes_sent (range 0 15) (range 1 15)
                  (ProducerManager.template two_vehicles_cfg (Named "v1")
                     !! "diagnostics_classes")).
Proof.
  apply (classes_sent_to_a_producer plain_settings two_vehicles_cfg [] ∅ []
           [Overridden "v2" {["anomaly_classes" := ints [3; 4]]}] (Named "v1") "v1").
  - reflexivity.
  - cbn. intros Hin. apply list_elem_of_singleton in Hin. discriminate.
Defined.

(** ** Polls that return broker errors *)

Lemma broker_errors_are_logged_for_the_library_texts :
  KafkaConsumer.read_messages counting_routine broker_error_replies fresh 0%nat =
    (KafkaConsumer.Polling,
     {| KafkaConsumer.is_running := KafkaConsumer.is_running fresh;
        KafkaConsumer.current_topics := KafkaConsumer.current_topics fresh;
        KafkaConsumer.retry_delay := KafkaConsumer.retry_delay fresh;
        KafkaConsumer.journal :=
          KafkaConsumer.journal fresh ++ flat_map calls_for broker_error_replies |},
     0%nat, None, []).
Proof.
  apply (broker_errors_are_logged_and_polling_goes_on counting_routine broker_error_replies
           fresh 0%nat).
  repeat (constructor; [first [exact I | intros _; reflexivity]|]). constructor.
Defined.
